(** * jetbrains-http-to-postman: the line-stream parser and document builder

    A shallow embedding of [convertHTTPToPostman] and of the helpers it
    calls ([detectVariables], [parseURL], [resetRequest]), followed by the
    properties of the parser that the specification states.

    Go strings are byte sequences; they are modelled by [string] (a list of
    8-bit characters), so that a UTF-8 encoded input is the very same bytes.
    Go maps are modelled by [gmap]; the iteration order of a [range] over a
    map, which the Go runtime leaves unspecified, is a parameter of the run. *)

From Stdlib Require Import Ascii String NArith Bool List Lia.
From stdpp Require Import base option list gmap strings pretty fin_maps.

Import ListNotations.
Local Open Scope stdpp_scope.

(** ** Part 1: the Go standard library functions the program calls *)

(** *** Package [unicode] and [strings] *)

Module GoStrings.

(** The ASCII members of [unicode.IsSpace]: '\t', '\n', '\v', '\f', '\r', ' '. *)
Definition isAsciiSpace (c : ascii) : bool :=
  match c with
  | "009" | "010" | "011" | "012" | "013" | " " => true
  | _ => false
  end%char.

(** [spaceWidth s] is the number of bytes of the white-space rune that
    [s] starts with, and [0] when [s] does not start with one.  The runes
    are those of [unicode.IsSpace]: the ASCII ones, U+0085, U+00A0, U+1680,
    U+2000..U+200A, U+2028, U+2029, U+202F, U+205F and U+3000, in their
    UTF-8 encoding. *)
Definition spaceWidth (s : string) : nat :=
  match s with
  | "" => 0
  | String c r =>
    if isAsciiSpace c then 1 else
    match N_of_ascii c, r with
    | 194%N, String d _ =>
        match N_of_ascii d with 133%N | 160%N => 2 | _ => 0 end
    | 225%N, String d (String e _) =>
        match N_of_ascii d, N_of_ascii e with 154%N, 128%N => 3 | _, _ => 0 end
    | 226%N, String d (String e _) =>
        match N_of_ascii d with
        | 128%N =>
            let x := N_of_ascii e in
            if ((128 <=? x) && (x <=? 138))%N then 3
            else match x with 168%N | 169%N | 175%N => 3 | _ => 0 end
        | 129%N => match N_of_ascii e with 159%N => 3 | _ => 0 end
        | _ => 0
        end
    | 227%N, String d (String e _) =>
        match N_of_ascii d, N_of_ascii e with 128%N, 128%N => 3 | _, _ => 0 end
    | _, _ => 0
    end
  end.

(** The same, read from the end of the string: [s] is given reversed. *)
Definition spaceWidthRev (r : string) : nat :=
  match r with
  | "" => 0
  | String c _ =>
    if isAsciiSpace c then 1 else
    match r with
    | String e (String d (String c0 _)) =>
        if Nat.eqb (spaceWidth (String c0 (String d (String e "")))) 3 then 3
        else if Nat.eqb (spaceWidth (String d (String e ""))) 2 then 2 else 0
    | String e (String d _) =>
        if Nat.eqb (spaceWidth (String d (String e ""))) 2 then 2 else 0
    | _ => 0
    end
  end.

Fixpoint drop (n : nat) (s : string) : string :=
  match n, s with
  | S k, String _ r => drop k r
  | _, _ => s
  end.

Fixpoint trimLeftGo (width : string -> nat) (fuel : nat) (s : string) : string :=
  match fuel with
  | 0 => s
  | S f =>
    match width s with
    | 0 => s
    | w => trimLeftGo width f (drop w s)
    end
  end.

(** [strings.TrimSpace]: all leading and trailing white space removed. *)
Definition TrimSpace (s : string) : string :=
  let l := trimLeftGo spaceWidth (String.length s) s in
  String.rev (trimLeftGo spaceWidthRev (String.length l) (String.rev l)).

(** [strings.HasPrefix]. *)
Definition HasPrefix (s p : string) : bool := String.prefix p s.

(** [strings.HasSuffix]. *)
Definition HasSuffix (s p : string) : bool :=
  String.prefix (String.rev p) (String.rev s).

(** [strings.TrimPrefix]. *)
Definition TrimPrefix (s p : string) : string :=
  if HasPrefix s p then drop (String.length p) s else s.

(** [strings.Contains]. *)
Fixpoint Contains (s sub : string) : bool :=
  String.prefix sub s ||
  match s with
  | "" => false
  | String _ r => Contains r sub
  end.

(** [strings.Split s sep] for a non-empty [sep]: the pieces between the
    successive leftmost occurrences of [sep].  [skip] counts the bytes of
    a separator still to be passed over, [cur] is the piece being read. *)
Fixpoint splitGo (sep : string) (skip : nat) (cur : string) (s : string)
  : list string :=
  match s with
  | "" => [cur]
  | String c r =>
    match skip with
    | S k => splitGo sep k cur r
    | 0 =>
      if String.prefix sep s
      then cur :: splitGo sep (String.length sep - 1) "" r
      else splitGo sep 0 (cur +:+ String c "") r
    end
  end.

(** With an empty [sep] Go explodes the string into its UTF-8 sequences;
    the program never calls [Split] that way and the model returns the
    string whole. *)
Definition Split (s sep : string) : list string :=
  match sep with
  | "" => [s]
  | _ => splitGo sep 0 "" s
  end.

(** [strings.SplitN s sep 2]: cut at the first occurrence of [sep] only. *)
Fixpoint splitFirst (sep : string) (cur : string) (s : string) : list string :=
  match s with
  | "" => [cur]
  | String c r =>
    if String.prefix sep s
    then [cur; drop (String.length sep) s]
    else splitFirst sep (cur +:+ String c "") r
  end.

Definition SplitN2 (s sep : string) : list string :=
  match sep with
  | "" => [s]
  | _ => splitFirst sep "" s
  end.

(** [strings.ReplaceAll s old new] for a non-empty [old]. *)
Fixpoint replaceGo (old new : string) (skip : nat) (s : string) : string :=
  match s with
  | "" => ""
  | String c r =>
    match skip with
    | S k => replaceGo old new k r
    | 0 =>
      if String.prefix old s
      then new +:+ replaceGo old new (String.length old - 1) r
      else String c (replaceGo old new 0 r)
    end
  end.

Definition ReplaceAll (s old new : string) : string :=
  match old with
  | "" => s
  | _ => replaceGo old new 0 s
  end.

(** [strings.Fields]: the maximal runs of bytes that are not white space. *)
Fixpoint fieldsGo (fuel : nat) (cur : string) (s : string) : list string :=
  let flush := match cur with "" => [] | _ => [cur] end in
  match fuel with
  | 0 => flush
  | S f =>
    match s with
    | "" => flush
    | String c r =>
      match spaceWidth s with
      | 0 => fieldsGo f (cur +:+ String c "") r
      | w => flush ++ fieldsGo f "" (drop w s)
      end
    end
  end.

Definition Fields (s : string) : list string :=
  fieldsGo (S (String.length s)) "" s.

(** [strings.Trim s cutset]: leading and trailing bytes of [cutset] removed
    (the cut sets of the program are ASCII). *)
Definition inCutset (cutset : string) (c : ascii) : bool :=
  Contains cutset (String c "").

Definition cutWidth (cutset : string) (s : string) : nat :=
  match s with
  | "" => 0
  | String c _ => if inCutset cutset c then 1 else 0
  end.

Definition Trim (s cutset : string) : string :=
  let l := trimLeftGo (cutWidth cutset) (String.length s) s in
  String.rev (trimLeftGo (cutWidth cutset) (String.length l) (String.rev l)).

End GoStrings.

Import GoStrings.

Definition nl : string := String "010"%char "".
Definition tab : string := String "009"%char "".



(** *** Package [regexp]: the patterns of the program

    Go's regular expressions are matched leftmost-first; [^] and [$] are the
    ends of the text, [.] is any byte but a newline, [\s] is the class
    [[\t\n\f\r ]] and [\w] is [[0-9A-Za-z_]].  Each pattern of the program is
    written out as the function that computes its match and its capture
    groups; the greedy repetitions of these patterns are each followed by a
    byte outside their class, so that the longest run is the only candidate,
    except for [\s*(.+)$], which [dotPlusToEnd] resolves. *)

Module Regexp.

Definition dq : string := String "034"%char "".

Definition isReSpace (c : ascii) : bool :=
  match c with
  | "009" | "010" | "012" | "013" | " " => true
  | _ => false
  end%char.

Definition isWord (c : ascii) : bool :=
  let n := N_of_ascii c in
  (((48 <=? n) && (n <=? 57)) || ((65 <=? n) && (n <=? 90))
   || ((97 <=? n) && (n <=? 122)) || (n =? 95))%N.

Definition isNewline (c : ascii) : bool := Ascii.eqb c "010"%char.
Definition notQuote (c : ascii) : bool := negb (Ascii.eqb c "034"%char).

(** The longest prefix whose bytes satisfy [p], and what follows it. *)
Fixpoint span (p : ascii -> bool) (s : string) : string * string :=
  match s with
  | "" => ("", "")
  | String c r =>
    if p c then let (a, b) := span p r in (String c a, b) else ("", s)
  end.

Fixpoint noNL (s : string) : bool :=
  match s with
  | "" => true
  | String c r => negb (isNewline c) && noNL r
  end.

(** [\s{minSp,}(.+)$] with greedy [\s]: the capture of [(.+)].  The white
    space takes the whole run when something follows it, and gives its
    last byte back to [.+] when nothing does. *)
Definition dotPlusToEnd (minSp : nat) (r : string) : option string :=
  let (ws, rest) := span isReSpace r in
  match rest with
  | String _ _ =>
    if (minSp <=? String.length ws) && noNL rest then Some rest else None
  | "" =>
    match String.rev ws with
    | String c _ =>
      if (S minSp <=? String.length ws) && negb (isNewline c)
      then Some (String c "") else None
    | "" => None
    end
  end.

(** [\{\{(\w+)\}\}] matched at the very beginning of [s]: the name and the
    text after the match. *)
Definition varAt (s : string) : option (string * string) :=
  if String.prefix "{{" s then
    let (w, r) := span isWord (drop 2 s) in
    match w with
    | "" => None
    | _ => if String.prefix "}}" r then Some (w, drop 2 r) else None
    end
  else None.

(** [varRegex.FindAllStringSubmatch(s, -1)], keeping the first group of
    each match: the successive leftmost matches, which do not overlap. *)
Fixpoint varRegex_FindAll (skip : nat) (s : string) : list string :=
  match s with
  | "" => []
  | String _ r =>
    match skip with
    | S k => varRegex_FindAll k r
    | 0 =>
      match varAt s with
      | Some (w, _) => w :: varRegex_FindAll (String.length w + 3) r
      | None => varRegex_FindAll 0 r
      end
    end
  end.

Definition varRegex_Match (s : string) : bool :=
  match varRegex_FindAll 0 s with [] => false | _ => true end.

(** [\s+.+] at the beginning of [r]. *)
Fixpoint spacesThenAny (r : string) : bool :=
  match r with
  | "" => false
  | String c r' =>
    isReSpace c &&
    match r' with
    | "" => false
    | String d _ => negb (isNewline d) || spacesThenAny r'
    end
  end.

Definition verbs : list string := ["GET"; "PUT"; "POST"; "DELETE"; "OPTIONS"].

(** [^(GET|PUT|POST|DELETE|OPTIONS)\s+.+] *)
Definition httpMethodRegex_Match (line : string) : bool :=
  existsb (fun v => String.prefix v line
                    && spacesThenAny (drop (String.length v) line)) verbs.

(** [^#\s*@group_name\s+(.+)$]: the first group. *)
Definition groupRegex_Find (line : string) : option string :=
  if String.prefix "#" line then
    let (_, r) := span isReSpace (drop 1 line) in
    if String.prefix "@group_name" r
    then dotPlusToEnd 1 (drop 11 r) else None
  else None.

(** [^#\s*@name\s+(\w+)$]: the first group. *)
Definition nameRegex_Find (line : string) : option string :=
  if String.prefix "#" line then
    let (_, r) := span isReSpace (drop 1 line) in
    if String.prefix "@name" r then
      let (ws, r1) := span isReSpace (drop 5 r) in
      let (w, r2) := span isWord r1 in
      match ws, w, r2 with
      | String _ _, String _ _, "" => Some w
      | _, _, _ => None
      end
    else None
  else None.

(** [^//\s*(.+)$]: the first group. *)
Definition descriptionRegex_Find (line : string) : option string :=
  if String.prefix "//" line then dotPlusToEnd 0 (drop 2 line) else None.

(** [^###.*$] *)
Definition requestSeparatorRegex_Match (line : string) : bool :=
  String.prefix "###" line && noNL (drop 3 line).

(** [^@(\w+)\s*=\s*(.+)$]: the two groups. *)
Definition localVariableRegex_Find (line : string) : option (string * string) :=
  if String.prefix "@" line then
    let (w, r) := span isWord (drop 1 line) in
    let (_, r1) := span isReSpace r in
    match w with
    | "" => None
    | _ =>
      if String.prefix "=" r1 then
        match dotPlusToEnd 0 (drop 1 r1) with
        | Some v => Some (w, v)
        | None => None
        end
      else None
    end
  else None.

Definition setCall : string := "request.variables.set(" +:+ dq.

(** The variable-setter pattern: the text [request.variables.set(], a
    quoted name (one or more bytes other than the quote), a comma, [\s*], a
    quoted value and [)].  Here it is matched at the very beginning of [s];
    the result is the two groups. *)
Definition requestVarAt (s : string) : option (string * string) :=
  if String.prefix setCall s then
    let (n, r) := span notQuote (drop (String.length setCall) s) in
    if String.prefix (dq +:+ ",") r then
      let (_, r1) := span isReSpace (drop 2 r) in
      if String.prefix dq r1 then
        let (v, r2) := span notQuote (drop 1 r1) in
        match n, v with
        | String _ _, String _ _ =>
          if String.prefix (dq +:+ ")") r2 then Some (n, v) else None
        | _, _ => None
        end
      else None
    else None
  else None.

(** [requestVariableRegex.FindStringSubmatch]: the leftmost match. *)
Fixpoint requestVariableRegex_Find (s : string) : option (string * string) :=
  match requestVarAt s with
  | Some m => Some m
  | None =>
    match s with
    | "" => None
    | String _ r => requestVariableRegex_Find r
    end
  end.

End Regexp.

Import Regexp.


(** ** Part 2: the document model (the structs of the program)

    A nil slice and an empty slice are both the empty list, a nil map and an
    empty map are both the empty [gmap]: the parser never tells them apart. *)

Module Header.
Record t := mk { Key : string; Value : string; Type_ : string }.
End Header.

Module QueryParam.
Record t := mk { Key : string; Value : string }.
End QueryParam.

Module Variable_.
Record t := mk { Key : string; Value : string; Type_ : string }.
End Variable_.

Module Body.
Record t := mk {
  Mode : string;
  Raw : string;
  Options : gmap string (gmap string string)
}.
Definition zero : t := mk "" "" ∅.
End Body.

Module URL.
Record t := mk {
  Raw : string;
  Protocol : string;
  Host : list string;
  Path : list string;
  Query : list QueryParam.t;
  Variable_ : list Variable_.t
}.
Definition zero : t := mk "" "" [] [] [] [].
End URL.

Module Request.
Record t := mk {
  Method : string;
  Header : list Header.t;
  Body : Body.t;
  URL : URL.t
}.
Definition zero : t := mk "" [] Body.zero URL.zero.
End Request.

Module Item.
#[warnings="-register-all"] Inductive t := mk {
  Name : string;
  Description : string;
  Item : list t;
  Request : Request.t
}.
Definition zero : t := mk "" "" [] Request.zero.
End Item.

Module Group.
Record t := mk { Name : string; Items : list Item.t }.
End Group.

Module Info.
Record t := mk { Name : string; Schema : string }.
End Info.

Module Collection.
Record t := mk {
  Info : Info.t;
  Items : list Item.t;
  Variable_ : list Variable_.t
}.
End Collection.

(** [Environment]: environment name to (variable name to value). *)
Abbreviation Environment := (gmap string (gmap string string)).

(** ** Part 3: the parser of the group- and variable-aware program

    [State] holds the local variables of [convertHTTPToPostman] that live
    across the iterations of the scanning loop, under their names. *)

Record State := mkState {
  groups : list Group.t;
  currentGroup : option Group.t;
  allItems : list Item.t;
  hasGroupSeparators : bool;
  item : Item.t;
  req : Request.t;
  headers : list Header.t;
  body : Body.t;
  url : URL.t;
  query : list QueryParam.t;
  data : string;
  count : N;
  startedJSON : bool;
  currentRequestName : string;
  currentRequestDescription : string;
  requestVariables : gmap string string;
  inRequestScript : bool;
  localVariables : gmap string string
}.

Definition set_groups (v : list Group.t) (s : State) : State :=
  mkState v (currentGroup s) (allItems s) (hasGroupSeparators s) (item s) (req s) (headers s) (body s) (url s) (query s) (data s) (count s) (startedJSON s) (currentRequestName s) (currentRequestDescription s) (requestVariables s) (inRequestScript s) (localVariables s).
Definition set_currentGroup (v : option Group.t) (s : State) : State :=
  mkState (groups s) v (allItems s) (hasGroupSeparators s) (item s) (req s) (headers s) (body s) (url s) (query s) (data s) (count s) (startedJSON s) (currentRequestName s) (currentRequestDescription s) (requestVariables s) (inRequestScript s) (localVariables s).
Definition set_allItems (v : list Item.t) (s : State) : State :=
  mkState (groups s) (currentGroup s) v (hasGroupSeparators s) (item s) (req s) (headers s) (body s) (url s) (query s) (data s) (count s) (startedJSON s) (currentRequestName s) (currentRequestDescription s) (requestVariables s) (inRequestScript s) (localVariables s).
Definition set_hasGroupSeparators (v : bool) (s : State) : State :=
  mkState (groups s) (currentGroup s) (allItems s) v (item s) (req s) (headers s) (body s) (url s) (query s) (data s) (count s) (startedJSON s) (currentRequestName s) (currentRequestDescription s) (requestVariables s) (inRequestScript s) (localVariables s).
Definition set_item (v : Item.t) (s : State) : State :=
  mkState (groups s) (currentGroup s) (allItems s) (hasGroupSeparators s) v (req s) (headers s) (body s) (url s) (query s) (data s) (count s) (startedJSON s) (currentRequestName s) (currentRequestDescription s) (requestVariables s) (inRequestScript s) (localVariables s).
Definition set_req (v : Request.t) (s : State) : State :=
  mkState (groups s) (currentGroup s) (allItems s) (hasGroupSeparators s) (item s) v (headers s) (body s) (url s) (query s) (data s) (count s) (startedJSON s) (currentRequestName s) (currentRequestDescription s) (requestVariables s) (inRequestScript s) (localVariables s).
Definition set_headers (v : list Header.t) (s : State) : State :=
  mkState (groups s) (currentGroup s) (allItems s) (hasGroupSeparators s) (item s) (req s) v (body s) (url s) (query s) (data s) (count s) (startedJSON s) (currentRequestName s) (currentRequestDescription s) (requestVariables s) (inRequestScript s) (localVariables s).
Definition set_body (v : Body.t) (s : State) : State :=
  mkState (groups s) (currentGroup s) (allItems s) (hasGroupSeparators s) (item s) (req s) (headers s) v (url s) (query s) (data s) (count s) (startedJSON s) (currentRequestName s) (currentRequestDescription s) (requestVariables s) (inRequestScript s) (localVariables s).
Definition set_url (v : URL.t) (s : State) : State :=
  mkState (groups s) (currentGroup s) (allItems s) (hasGroupSeparators s) (item s) (req s) (headers s) (body s) v (query s) (data s) (count s) (startedJSON s) (currentRequestName s) (currentRequestDescription s) (requestVariables s) (inRequestScript s) (localVariables s).
Definition set_query (v : list QueryParam.t) (s : State) : State :=
  mkState (groups s) (currentGroup s) (allItems s) (hasGroupSeparators s) (item s) (req s) (headers s) (body s) (url s) v (data s) (count s) (startedJSON s) (currentRequestName s) (currentRequestDescription s) (requestVariables s) (inRequestScript s) (localVariables s).
Definition set_data (v : string) (s : State) : State :=
  mkState (groups s) (currentGroup s) (allItems s) (hasGroupSeparators s) (item s) (req s) (headers s) (body s) (url s) (query s) v (count s) (startedJSON s) (currentRequestName s) (currentRequestDescription s) (requestVariables s) (inRequestScript s) (localVariables s).
Definition set_count (v : N) (s : State) : State :=
  mkState (groups s) (currentGroup s) (allItems s) (hasGroupSeparators s) (item s) (req s) (headers s) (body s) (url s) (query s) (data s) v (startedJSON s) (currentRequestName s) (currentRequestDescription s) (requestVariables s) (inRequestScript s) (localVariables s).
Definition set_startedJSON (v : bool) (s : State) : State :=
  mkState (groups s) (currentGroup s) (allItems s) (hasGroupSeparators s) (item s) (req s) (headers s) (body s) (url s) (query s) (data s) (count s) v (currentRequestName s) (currentRequestDescription s) (requestVariables s) (inRequestScript s) (localVariables s).
Definition set_currentRequestName (v : string) (s : State) : State :=
  mkState (groups s) (currentGroup s) (allItems s) (hasGroupSeparators s) (item s) (req s) (headers s) (body s) (url s) (query s) (data s) (count s) (startedJSON s) v (currentRequestDescription s) (requestVariables s) (inRequestScript s) (localVariables s).
Definition set_currentRequestDescription (v : string) (s : State) : State :=
  mkState (groups s) (currentGroup s) (allItems s) (hasGroupSeparators s) (item s) (req s) (headers s) (body s) (url s) (query s) (data s) (count s) (startedJSON s) (currentRequestName s) v (requestVariables s) (inRequestScript s) (localVariables s).
Definition set_requestVariables (v : gmap string string) (s : State) : State :=
  mkState (groups s) (currentGroup s) (allItems s) (hasGroupSeparators s) (item s) (req s) (headers s) (body s) (url s) (query s) (data s) (count s) (startedJSON s) (currentRequestName s) (currentRequestDescription s) v (inRequestScript s) (localVariables s).
Definition set_inRequestScript (v : bool) (s : State) : State :=
  mkState (groups s) (currentGroup s) (allItems s) (hasGroupSeparators s) (item s) (req s) (headers s) (body s) (url s) (query s) (data s) (count s) (startedJSON s) (currentRequestName s) (currentRequestDescription s) (requestVariables s) v (localVariables s).
Definition set_localVariables (v : gmap string string) (s : State) : State :=
  mkState (groups s) (currentGroup s) (allItems s) (hasGroupSeparators s) (item s) (req s) (headers s) (body s) (url s) (query s) (data s) (count s) (startedJSON s) (currentRequestName s) (currentRequestDescription s) (requestVariables s) (inRequestScript s) v.

(** [detectVariables]: the names of all [{{name}}] references of the text,
    in order, duplicates kept. *)
Definition detectVariables (text : string) : list string :=
  varRegex_FindAll 0 text.

(** [resetRequest]: every request-related variable back to its fresh value. *)
Definition resetRequest (s : State) : State :=
  set_item Item.zero
  (set_req (Request.mk "" [] Body.zero (URL.mk "" "" [] [] [] []))
  (set_headers []
  (set_body Body.zero
  (set_url (URL.mk "" "" [] [] [] [])
  (set_query []
  (set_data ""
  (set_startedJSON false
  (set_currentRequestName ""
  (set_requestVariables ∅
  (set_inRequestScript false s)))))))))).

(** *** [parseURL] *)

(** The value of a path variable: the request script's, else the file's. *)
Definition pathVariableValue (localVars requestVars : gmap string string)
    (varName : string) : string :=
  let varValue :=
    match requestVars !! varName with Some val => val | None => "" end in
  if decide (varValue = "") then
    match localVars !! varName with Some val => val | None => varValue end
  else varValue.

(** One path segment holding variables: each [{{name}}] becomes [:name] and
    is recorded as a path variable. *)
Definition convertSegment (localVars requestVars : gmap string string)
    (part : string) (pathVariables : list Variable_.t)
  : string * list Variable_.t :=
  foldl (fun acc varName =>
           (ReplaceAll (fst acc) ("{{" +:+ varName +:+ "}}") (":" +:+ varName),
            snd acc ++ [Variable_.mk varName
                          (pathVariableValue localVars requestVars varName)
                          "string"]))
        (part, pathVariables) (varRegex_FindAll 0 part).

(** The loop over the segments after the base URL. *)
Fixpoint pathLoop (localVars requestVars : gmap string string)
    (parts : list string) (pathParts : list string)
    (pathVariables : list Variable_.t) : list string * list Variable_.t :=
  match parts with
  | [] => (pathParts, pathVariables)
  | part :: rest =>
    if decide (part = "") then
      pathLoop localVars requestVars rest pathParts pathVariables
    else if varRegex_Match part then
      let cv := convertSegment localVars requestVars part pathVariables in
      pathLoop localVars requestVars rest (pathParts ++ [fst cv]) (snd cv)
    else
      pathLoop localVars requestVars rest (pathParts ++ [part]) pathVariables
  end.

Definition set_Host (v : list string) (u : URL.t) : URL.t :=
  URL.mk (URL.Raw u) (URL.Protocol u) v (URL.Path u) (URL.Query u) (URL.Variable_ u).
Definition set_Path (v : list string) (u : URL.t) : URL.t :=
  URL.mk (URL.Raw u) (URL.Protocol u) (URL.Host u) v (URL.Query u) (URL.Variable_ u).
Definition set_Protocol (v : string) (u : URL.t) : URL.t :=
  URL.mk (URL.Raw u) v (URL.Host u) (URL.Path u) (URL.Query u) (URL.Variable_ u).
Definition set_Raw (v : string) (u : URL.t) : URL.t :=
  URL.mk v (URL.Protocol u) (URL.Host u) (URL.Path u) (URL.Query u) (URL.Variable_ u).
Definition set_Query (v : list QueryParam.t) (u : URL.t) : URL.t :=
  URL.mk (URL.Raw u) (URL.Protocol u) (URL.Host u) (URL.Path u) v (URL.Variable_ u).
Definition set_Variable (v : list Variable_.t) (u : URL.t) : URL.t :=
  URL.mk (URL.Raw u) (URL.Protocol u) (URL.Host u) (URL.Path u) (URL.Query u) v.

(** [xs[i]] for an index the program knows to be in range. *)
Definition at_ (i : nat) (xs : list string) : string := nth i xs "".

Definition parseURL (rawURL : string) (url : URL.t)
    (localVars requestVars : gmap string string) : URL.t :=
  if Contains rawURL "{{baseUrl}}" || Contains rawURL "{{baseURL}}" then
    let url := set_Host ["{{baseUrl}}"] url in
    let pathPart :=
      if Contains rawURL "?" then at_ 0 (Split rawURL "?") else rawURL in
    let parts := Split pathPart "/" in
    let pp :=
      if Contains pathPart "/" && (1 <? length parts)
      then Some (pathLoop localVars requestVars (tail parts) [] [])
      else None in
    let url := match pp with Some r => set_Path (fst r) url | None => url end in
    let pathVariables := match pp with Some r => snd r | None => [] end in
    if 0 <? length pathVariables then set_Variable pathVariables url else url
  else if Contains rawURL "://" then
    let protocolParts := Split rawURL "://" in
    let url := set_Protocol (at_ 0 protocolParts) url in
    let cleanURL := at_ 1 protocolParts in
    let cleanURL :=
      if Contains cleanURL "?" then at_ 0 (Split cleanURL "?") else cleanURL in
    if Contains cleanURL "/" then
      let urlParts := Split cleanURL "/" in
      let url := set_Host (Split (at_ 0 urlParts) ".") url in
      if 1 <? length urlParts then set_Path (tail urlParts) url else url
    else set_Host (Split cleanURL ".") url
  else
    let urlParts := Split rawURL "/" in
    if 0 <? length urlParts then set_Host (Split (at_ 0 urlParts) ".") url
    else url.

(** The query parameters of the method line: the text after the first [?]
    is cut at every [&], and each piece holding an [=] is cut at every [=];
    the first two pieces, trimmed, are the key and the value. *)
Definition addParam (query : list QueryParam.t) (param : string)
  : list QueryParam.t :=
  if Contains param "=" then
    let kv := Split param "=" in
    query ++ [QueryParam.mk (TrimSpace (at_ 0 kv)) (TrimSpace (at_ 1 kv))]
  else query.

Definition parseQueryParams (rawURL : string) (query : list QueryParam.t)
  : list QueryParam.t :=
  if Contains rawURL "?" then
    let queryParts := Split rawURL "?" in
    if 1 <? length queryParts then
      let queryString := at_ 1 queryParts in
      let params := Split queryString "&" in
      foldl addParam query params
    else query
  else query.


(** *** The scanning loop *)

(** The cases of the [switch] of the loop, in the order of the source; the
    first case whose condition holds is taken. *)
Inductive LineKind :=
| KBlank | KGroup | KName | KDescription | KLocalVariable
| KScriptStart | KScriptEnd | KInScript | KSeparator | KComment
| KMethod | KJSONStart | KHeader | KJSONColon | KJSONEnd | KJSONOther
| KNone.

Definition lineKind (s : State) (line : string) : LineKind :=
  if decide (line = "") then KBlank
  else if bool_decide (is_Some (groupRegex_Find line)) then KGroup
  else if bool_decide (is_Some (nameRegex_Find line)) then KName
  else if bool_decide (is_Some (descriptionRegex_Find line)) then KDescription
  else if bool_decide (is_Some (localVariableRegex_Find line)) then KLocalVariable
  else if HasPrefix line "<" && Contains line "{%" then KScriptStart
  else if Contains line "%}" && inRequestScript s then KScriptEnd
  else if inRequestScript s then KInScript
  else if requestSeparatorRegex_Match line then KSeparator
  else if HasPrefix line "#" then KComment
  else if httpMethodRegex_Match line then KMethod
  else if HasPrefix line "{" then KJSONStart
  else if Contains line ":" && negb (startedJSON s) then KHeader
  else if Contains line ":" && startedJSON s then KJSONColon
  else if HasSuffix line "}" && startedJSON s then KJSONEnd
  else if startedJSON s then KJSONOther
  else KNone.

(** The block that the four script cases share: the first match of the
    variable-setter pattern in the line, if any, is stored in the request's
    variable table. *)
Definition scanSetter (line : string) (requestVariables : gmap string string)
  : gmap string string :=
  match requestVariableRegex_Find line with
  | Some (varName, varValue) => <[varName := varValue]> requestVariables
  | None => requestVariables
  end.

Definition jsonOptions : gmap string (gmap string string) :=
  {[ "raw" := {[ "language" := "json" ]} ]}.

Definition sprintfRequest (count : N) : string := "request-" +:+ pretty count.

Definition addItem (it : Item.t) (s : State) : State :=
  match hasGroupSeparators s, currentGroup s with
  | true, Some g =>
    set_currentGroup (Some (Group.mk (Group.Name g) (Group.Items g ++ [it]))) s
  | _, _ => set_allItems (allItems s ++ [it]) s
  end.

(** The case of the separator line, before [resetRequest]: the request is
    saved when it has a method and a URL. *)
Definition sealAtSeparator (s : State) : State :=
  if negb (bool_decide (Request.Method (req s) = ""))
     && negb (bool_decide (URL.Raw (url s) = "")) then
    let req' :=
      Request.mk (Request.Method (req s)) (headers s) (body s)
                 (set_Query (query s) (url s)) in
    let count' :=
      if decide (currentRequestName s = "") then (count s + 1)%N else count s in
    let name :=
      if decide (currentRequestName s = "") then sprintfRequest count'
      else currentRequestName s in
    let description :=
      if decide (currentRequestDescription s = "")
      then Item.Description (item s) else currentRequestDescription s in
    let item' := Item.mk name description (Item.Item (item s)) req' in
    addItem item' (set_item item' (set_count count' (set_req req' s)))
  else s.

(** One iteration of the loop on the line [raw] that the scanner yields. *)
Definition processLine (s : State) (raw : string) : State :=
  let line := TrimSpace raw in
  match lineKind s line with
  | KBlank => s
  | KGroup =>
    match groupRegex_Find line with
    | Some m =>
      let groupName := TrimSpace m in
      let groups' :=
        match currentGroup s with
        | Some g => if 0 <? length (Group.Items g) then groups s ++ [g] else groups s
        | None => groups s
        end in
      set_hasGroupSeparators true
        (set_currentGroup (Some (Group.mk groupName [])) (set_groups groups' s))
    | None => s
    end
  | KName =>
    match nameRegex_Find line with
    | Some m => set_currentRequestName m s
    | None => s
    end
  | KDescription =>
    match descriptionRegex_Find line with
    | Some m => set_currentRequestDescription m s
    | None => s
    end
  | KLocalVariable =>
    match localVariableRegex_Find line with
    | Some (varName, m2) =>
      set_localVariables (<[varName := TrimSpace m2]> (localVariables s)) s
    | None => s
    end
  | KScriptStart =>
    if Contains line "%}" then
      set_requestVariables (scanSetter line (requestVariables s)) s
    else
      set_requestVariables (scanSetter line (requestVariables s))
        (set_inRequestScript true s)
  | KScriptEnd =>
    set_requestVariables (scanSetter line (requestVariables s))
      (set_inRequestScript false s)
  | KInScript =>
    set_requestVariables (scanSetter line (requestVariables s)) s
  | KSeparator =>
    set_currentRequestDescription "" (resetRequest (sealAtSeparator s))
  | KComment => s
  | KMethod =>
    let parts := Fields line in
    if 2 <=? length parts then
      let rawURL := at_ 1 parts in
      let req' := Request.mk (at_ 0 parts) (Request.Header (req s))
                             (Request.Body (req s)) (Request.URL (req s)) in
      let url' := parseURL rawURL (set_Raw rawURL (url s))
                           (localVariables s) (requestVariables s) in
      set_query (parseQueryParams rawURL (query s))
        (set_url url' (set_req req' s))
    else s
  | KJSONStart =>
    let body' := Body.mk "raw" (Body.Raw (body s)) jsonOptions in
    if HasSuffix line "}" then
      set_startedJSON false
        (set_body (Body.mk "raw" (TrimSpace line) jsonOptions) s)
    else
      set_data (data s +:+ line +:+ nl)
        (set_startedJSON true (set_body body' s))
  | KHeader =>
    let headerParts := SplitN2 line ":" in
    if length headerParts =? 2 then
      let key := TrimSpace (at_ 0 headerParts) in
      let value := TrimSpace (at_ 1 headerParts) in
      set_headers (headers s ++ [Header.mk key value "text"]) s
    else s
  | KJSONColon => set_data (data s +:+ line +:+ nl) s
  | KJSONEnd =>
    set_startedJSON false
      (set_body (Body.mk (Body.Mode (body s)) (TrimSpace (data s +:+ line))
                         (Body.Options (body s)))
         (set_data (data s +:+ line) s))
  | KJSONOther => set_data (data s +:+ line +:+ nl) s
  | KNone => s
  end.

(** The variables of the function as they stand when the loop starts. *)
Definition initialState : State :=
  {| groups := []; currentGroup := None; allItems := [];
     hasGroupSeparators := false;
     item := Item.zero;
     req := Request.mk "" [] Body.zero (URL.mk "" "" [] [] [] []);
     headers := []; body := Body.zero; url := URL.zero; query := [];
     data := ""; count := 0%N; startedJSON := false;
     currentRequestName := ""; currentRequestDescription := "";
     requestVariables := ∅; inRequestScript := false;
     localVariables := ∅ |}.

Definition scanLoop (s : State) (lines : list string) : State :=
  foldl processLine s lines.

(** After the loop: the last request, when the input does not end with a
    separator. *)
Definition sealAtEOF (s : State) : State :=
  if negb (bool_decide (Request.Method (req s) = ""))
     && negb (bool_decide (URL.Raw (url s) = "")) then
    let req' :=
      Request.mk (Request.Method (req s)) (headers s) (body s)
                 (set_Query (query s) (url s)) in
    let count' :=
      if decide (currentRequestName s = "") then (count s + 1)%N else count s in
    let name :=
      if decide (currentRequestName s = "") then sprintfRequest count'
      else currentRequestName s in
    let description :=
      if decide (currentRequestDescription s = "")
      then Item.Description (item s) else currentRequestDescription s in
    let item' := Item.mk name description (Item.Item (item s)) req' in
    match hasGroupSeparators s, currentGroup s with
    | true, Some g =>
      set_currentGroup (Some (Group.mk (Group.Name g) (Group.Items g ++ [item'])))
        (set_item item' (set_count count' (set_req req' s)))
    | _, _ =>
      set_allItems (allItems s ++ [item'])
        (set_item item' (set_count count' (set_req req' s)))
    end
  else s.

(** The current group joins the groups when it has items. *)
Definition closeGroup (s : State) : State :=
  match currentGroup s with
  | Some g =>
    if 0 <? length (Group.Items g) then set_groups (groups s ++ [g]) s else s
  | None => s
  end.

(** *** The document assembler *)

(** [uniqueVars[varName]] on a [map[string]bool]: an absent key reads false. *)
Definition seen (uniqueVars : gmap string bool) (varName : string) : bool :=
  default false (uniqueVars !! varName).

(** The loop over the detected variables: each name once, with the value of
    the file's local variable, else of the environment [envName], else empty. *)
Fixpoint detectedLoop (env : option Environment) (envName : string)
    (localVariables : gmap string string) (allVariables : list string)
    (uniqueVars : gmap string bool) (collectionVariables : list Variable_.t)
  : gmap string bool * list Variable_.t :=
  match allVariables with
  | [] => (uniqueVars, collectionVariables)
  | varName :: rest =>
    if seen uniqueVars varName then
      detectedLoop env envName localVariables rest uniqueVars collectionVariables
    else
      let value :=
        match localVariables !! varName with
        | Some localValue => localValue
        | None =>
          match env with
          | Some e =>
            match e !! envName with
            | Some vars =>
              match vars !! varName with Some val => val | None => "" end
            | None => ""
            end
          | None => ""
          end
        end in
      detectedLoop env envName localVariables rest
        (<[varName := true]> uniqueVars)
        (collectionVariables ++ [Variable_.mk varName value "string"])
  end.

(** The loop over the local variables, in the order [entries] in which the
    [range] over the map visits them. *)
Definition localLoop (entries : list (string * string))
    (uniqueVars : gmap string bool) (collectionVariables : list Variable_.t)
  : list Variable_.t :=
  foldl (fun acc kv =>
           if seen uniqueVars (fst kv) then acc
           else acc ++ [Variable_.mk (fst kv) (snd kv) "string"])
        collectionVariables entries.

Definition validItemsOf (its : list Item.t) : list Item.t :=
  filter (fun it => Request.Method (Item.Request it) <> "") its.

(** One iteration of the loop over the groups: a group with valid requests
    becomes a folder, which carries no request of its own. *)
Definition addFolder (items : list Item.t) (group : Group.t) : list Item.t :=
  if 0 <? length (Group.Items group) then
    let validItems := validItemsOf (Group.Items group) in
    if 0 <? length validItems then
      items ++ [Item.mk (Group.Name group) "" validItems Request.zero]
    else items
  else items.

Definition buildFolders (groups : list Group.t) : list Item.t :=
  foldl addFolder [] groups.

(** The folders of the groups, or the flat list of the requests. *)
Definition buildItems (s : State) : list Item.t :=
  if hasGroupSeparators s && (0 <? length (groups s)) then buildFolders (groups s)
  else validItemsOf (allItems s).

Definition schemaURL : string :=
  "https://schema.getpostman.com/json/collection/v2.1.0/collection.json".

(** *** [convertHTTPToPostman]

    What the function reads from outside: the input file (absent when it
    cannot be opened) as the lines the scanner yields and the scanner's
    error, the result of [loadEnvironment], the formatted time, the order
    in which the runtime ranges over a map, and the result of writing. *)
Record World := mkWorld {
  inputFile : option (list string);
  scannerErr : option string;
  envLoad : Environment + string;
  today : string;
  rangeOrder : gmap string string -> list (string * string);
  writeErr : option string
}.

(** A [range] visits every entry of the map once, in an order of its own. *)
Definition fairRange (order : gmap string string -> list (string * string)) : Prop :=
  forall m, order m ≡ₚ map_to_list m.

Inductive Error :=
| OpenError
| VariablesWithoutEnv (allVariables : list string) (envErr : string)
| ScanError (err : string)
| WriteError (err : string).

(** The outcome of a call: the error returned before anything is written,
    or the document handed to [os.WriteFile] with the error it returns. *)
Inductive Outcome :=
| Aborted (e : Error)
| Written (doc : Collection.t) (err : option string).

Definition fileContent (lines : list string) : string :=
  foldl (fun acc l => acc +:+ l +:+ nl) "" lines.

Definition finalState (lines : list string) : State :=
  closeGroup (sealAtEOF (scanLoop initialState lines)).

Definition assemble (env : option Environment) (allVariables : list string)
    (order : gmap string string -> list (string * string)) (today : string)
    (s : State) : Collection.t :=
  let dl := detectedLoop env "dev" (localVariables s) allVariables ∅ [] in
  let collectionVariables :=
    localLoop (order (localVariables s)) (fst dl) (snd dl) in
  Collection.mk (Info.mk ("jb-export-" +:+ today) schemaURL)
                (buildItems s) collectionVariables.

Definition convertHTTPToPostman (w : World) : Outcome :=
  match inputFile w with
  | None => Aborted OpenError
  | Some lines =>
    let allVariables := detectVariables (fileContent lines) in
    match allVariables, envLoad w with
    | _ :: _, inr envErr => Aborted (VariablesWithoutEnv allVariables envErr)
    | _, _ =>
      let env := match envLoad w with inl e => Some e | inr _ => None end in
      match scannerErr w with
      | Some err => Aborted (ScanError err)
      | None =>
        Written (assemble env allVariables (rangeOrder w) (today w)
                          (finalState lines))
                (writeErr w)
      end
    end
  end.

(** The document of a run whose files can all be read and written. *)
Definition document (lines : list string) (env : Environment)
    (order : gmap string string -> list (string * string)) (today : string)
  : Collection.t :=
  assemble (Some env) (detectVariables (fileContent lines)) order today
           (finalState lines).

Definition mapOrder : gmap string string -> list (string * string) := map_to_list.

(** The requests of the program's own tests. *)
Definition postWithJSON : list string :=
  [ "POST https://api.example.com/users";
    "Content-Type: application/json";
    "";
    "{";
    "  " +:+ dq +:+ "name" +:+ dq +:+ ": " +:+ dq +:+ "John Doe" +:+ dq +:+ ",";
    "  " +:+ dq +:+ "email" +:+ dq +:+ ": " +:+ dq +:+ "john@example.com" +:+ dq;
    "}";
    "";
    "###" ].

Definition threeRequests : list string :=
  [ "GET https://api.example.com/users"; "Accept: application/json"; "";
    "###"; "";
    "POST https://api.example.com/users"; "Content-Type: application/json"; "";
    "{"; "  " +:+ dq +:+ "name" +:+ dq +:+ ": " +:+ dq +:+ "Jane Doe" +:+ dq; "}"; "";
    "###"; "";
    "DELETE https://api.example.com/users/123";
    "Authorization: Bearer token123"; "";
    "###" ].

(** ** Part 3b: the parser of [http_to_postman.go] with separator names

    The listing of [convertHTTPToPostman] in [http_to_postman.go] that reads
    a request name from the separator line and substitutes the variables of
    the environment in the URL, the header values and the body.  It has no
    groups, annotations or scripts.  Its structs [Header], [Body] and
    [QueryParam] are those of Part 2; its [URL], [Item] and [Collection]
    have fewer fields. *)

Module NamedSeparators.

Module URL.
Record t := mk {
  Raw : string;
  Protocol : string;
  Host : list string;
  Path : list string;
  Query : list QueryParam.t
}.
Definition zero : t := mk "" "" [] [] [].
End URL.

Module Request.
Record t := mk {
  Method : string;
  Header : list Header.t;
  Body : Body.t;
  URL : URL.t
}.
Definition zero : t := mk "" [] Body.zero URL.zero.
End Request.

Module Item.
Record t := mk { Name : string; Request : Request.t }.
End Item.

Module Collection.
Record t := mk { Info : Info.t; Items : list Item.t }.
End Collection.

Record State := mkState {
  items : list Item.t;
  item : Item.t;
  req : Request.t;
  headers : list Header.t;
  body : Body.t;
  url : URL.t;
  query : list QueryParam.t;
  data : string;
  count : N;
  startedJSON : bool
}.

Definition set_items (v : list Item.t) (s : State) : State :=
  mkState v (item s) (req s) (headers s) (body s) (url s) (query s) (data s) (count s) (startedJSON s).
Definition set_item (v : Item.t) (s : State) : State :=
  mkState (items s) v (req s) (headers s) (body s) (url s) (query s) (data s) (count s) (startedJSON s).
Definition set_req (v : Request.t) (s : State) : State :=
  mkState (items s) (item s) v (headers s) (body s) (url s) (query s) (data s) (count s) (startedJSON s).
Definition set_headers (v : list Header.t) (s : State) : State :=
  mkState (items s) (item s) (req s) v (body s) (url s) (query s) (data s) (count s) (startedJSON s).
Definition set_body (v : Body.t) (s : State) : State :=
  mkState (items s) (item s) (req s) (headers s) v (url s) (query s) (data s) (count s) (startedJSON s).
Definition set_url (v : URL.t) (s : State) : State :=
  mkState (items s) (item s) (req s) (headers s) (body s) v (query s) (data s) (count s) (startedJSON s).
Definition set_query (v : list QueryParam.t) (s : State) : State :=
  mkState (items s) (item s) (req s) (headers s) (body s) (url s) v (data s) (count s) (startedJSON s).
Definition set_data (v : string) (s : State) : State :=
  mkState (items s) (item s) (req s) (headers s) (body s) (url s) (query s) v (count s) (startedJSON s).
Definition set_count (v : N) (s : State) : State :=
  mkState (items s) (item s) (req s) (headers s) (body s) (url s) (query s) (data s) v (startedJSON s).
Definition set_startedJSON (v : bool) (s : State) : State :=
  mkState (items s) (item s) (req s) (headers s) (body s) (url s) (query s) (data s) (count s) v.

(** [varRegex.ReplaceAllStringFunc]: every match is replaced by the value
    of the variable it names, when the environment has one. *)
Fixpoint substituteGo (vars : gmap string string) (skip : nat) (s : string)
  : string :=
  match s with
  | "" => ""
  | String c r =>
    match skip with
    | S k => substituteGo vars k r
    | 0 =>
      match varAt s with
      | Some (w, _) =>
        let match_ := "{{" +:+ w +:+ "}}" in
        let varName := Trim match_ "{}" in
        match vars !! varName with
        | Some value => value
        | None => match_
        end +:+ substituteGo vars (String.length w + 3) r
      | None => String c (substituteGo vars 0 r)
      end
    end
  end.

(** [substituteVariables] *)
Definition substituteVariables (text : string) (env : option Environment)
    (envName : string) : string :=
  match env with
  | None => text
  | Some e =>
    match e !! envName with
    | None => text
    | Some vars => substituteGo vars 0 text
    end
  end.

Inductive LineKind :=
| KSkip | KSeparator | KMethod | KJSONStart | KHeader | KJSONColon
| KJSONEnd | KJSONOther | KNone.

Definition lineKind (s : State) (line : string) : LineKind :=
  if bool_decide (line = "") || HasPrefix line "# " || HasPrefix line "//"
  then KSkip
  else if HasPrefix line "###" && negb (HasPrefix line "####") then KSeparator
  else if httpMethodRegex_Match line then KMethod
  else if HasPrefix line "{" then KJSONStart
  else if Contains line ":" && negb (startedJSON s) then KHeader
  else if Contains line ":" && startedJSON s then KJSONColon
  else if HasSuffix line "}" && startedJSON s then KJSONEnd
  else if startedJSON s then KJSONOther
  else KNone.

Definition sprintfRequest (count : N) : string := "request-" +:+ pretty count.

(** The request of the accumulator joins the items when it has a method
    and a URL (in the separator case). *)
Definition sealAtSeparator (s : State) : State :=
  if negb (bool_decide (Request.Method (req s) = ""))
     && negb (bool_decide (URL.Raw (url s) = "")) then
    let req' :=
      Request.mk (Request.Method (req s)) (headers s) (body s)
        (URL.mk (URL.Raw (url s)) (URL.Protocol (url s)) (URL.Host (url s))
                (URL.Path (url s)) (query s)) in
    let item' := Item.mk (Item.Name (item s)) req' in
    set_items (items s ++ [item']) (set_item item' (set_req req' s))
  else s.

(** The URL of the method line, cut into protocol, host and path. *)
Definition parseURL (rawURL : string) (url : URL.t) : URL.t :=
  if Contains rawURL "://" then
    let protocolParts := Split rawURL "://" in
    let url := URL.mk (URL.Raw url) (at_ 0 protocolParts) (URL.Host url)
                      (URL.Path url) (URL.Query url) in
    let cleanURL := at_ 1 protocolParts in
    let cleanURL :=
      if Contains cleanURL "?" then at_ 0 (Split cleanURL "?") else cleanURL in
    if Contains cleanURL "/" then
      let urlParts := Split cleanURL "/" in
      let url := URL.mk (URL.Raw url) (URL.Protocol url)
                        (Split (at_ 0 urlParts) ".") (URL.Path url)
                        (URL.Query url) in
      if 1 <? length urlParts
      then URL.mk (URL.Raw url) (URL.Protocol url) (URL.Host url)
                  (tail urlParts) (URL.Query url)
      else url
    else URL.mk (URL.Raw url) (URL.Protocol url) (Split cleanURL ".")
                (URL.Path url) (URL.Query url)
  else
    let urlParts := Split rawURL "/" in
    if 0 <? length urlParts
    then URL.mk (URL.Raw url) (URL.Protocol url) (Split (at_ 0 urlParts) ".")
                (URL.Path url) (URL.Query url)
    else url.

(** One iteration of the loop. *)
Definition processLine (env : option Environment) (envName : string)
    (s : State) (raw : string) : State :=
  let line := TrimSpace raw in
  match lineKind s line with
  | KSkip => s
  | KSeparator =>
    let s1 := sealAtSeparator s in
    let requestName := TrimSpace (TrimPrefix line "###") in
    let count' :=
      if decide (requestName = "") then (count s1 + 1)%N else count s1 in
    let name :=
      if decide (requestName = "") then sprintfRequest count' else requestName in
    mkState (items s1) (Item.mk name Request.zero)
            (Request.mk "" [] Body.zero (URL.mk "" "" [] [] []))
            [] Body.zero URL.zero [] "" count' false
  | KMethod =>
    let parts := Fields line in
    if 2 <=? length parts then
      let rawURL := substituteVariables (at_ 1 parts) env envName in
      let req' := Request.mk (at_ 0 parts) (Request.Header (req s))
                             (Request.Body (req s)) (Request.URL (req s)) in
      let url0 := URL.mk rawURL (URL.Protocol (url s)) (URL.Host (url s))
                         (URL.Path (url s)) (URL.Query (url s)) in
      let count' :=
        if decide (Item.Name (item s) = "") then (count s + 1)%N else count s in
      let item' :=
        if decide (Item.Name (item s) = "")
        then Item.mk (sprintfRequest count') (Item.Request (item s))
        else item s in
      set_query (parseQueryParams rawURL (query s))
        (set_url (parseURL rawURL url0)
           (set_count count' (set_item item' (set_req req' s))))
    else s
  | KJSONStart =>
    if HasSuffix line "}" then
      set_startedJSON false
        (set_body (Body.mk "raw"
                     (substituteVariables (TrimSpace line) env envName)
                     jsonOptions) s)
    else
      set_data (data s +:+ line +:+ nl)
        (set_startedJSON true
           (set_body (Body.mk "raw" (Body.Raw (body s)) jsonOptions) s))
  | KHeader =>
    let headerParts := SplitN2 line ":" in
    if length headerParts =? 2 then
      let key := TrimSpace (at_ 0 headerParts) in
      let value := TrimSpace (at_ 1 headerParts) in
      let value := substituteVariables value env envName in
      set_headers (headers s ++ [Header.mk key value "text"]) s
    else s
  | KJSONColon => set_data (data s +:+ line +:+ nl) s
  | KJSONEnd =>
    set_startedJSON false
      (set_body (Body.mk (Body.Mode (body s))
                   (substituteVariables (TrimSpace (data s +:+ line)) env envName)
                   (Body.Options (body s)))
         (set_data (data s +:+ line) s))
  | KJSONOther => set_data (data s +:+ line +:+ nl) s
  | KNone => s
  end.

Definition initialState : State :=
  {| items := []; item := Item.mk "" Request.zero;
     req := Request.mk "" [] Body.zero (URL.mk "" "" [] [] []);
     headers := []; body := Body.zero; url := URL.zero; query := [];
     data := ""; count := 0%N; startedJSON := false |}.

Definition scanLoop (env : option Environment) (envName : string)
    (s : State) (lines : list string) : State :=
  foldl (processLine env envName) s lines.

(** After the loop: the last request, when the input does not end with a
    separator. *)
Definition sealAtEOF (s : State) : State :=
  if negb (bool_decide (Request.Method (req s) = ""))
     && negb (bool_decide (URL.Raw (url s) = "")) then
    let req' :=
      Request.mk (Request.Method (req s)) (headers s) (body s)
        (URL.mk (URL.Raw (url s)) (URL.Protocol (url s)) (URL.Host (url s))
                (URL.Path (url s)) (query s)) in
    let item' := Item.mk (Item.Name (item s)) req' in
    set_items (items s ++ [item']) (set_item item' (set_req req' s))
  else s.

Definition convertHTTPToPostman (w : World) : Error + Collection.t * option string :=
  match inputFile w with
  | None => inl OpenError
  | Some lines =>
    let allVariables := detectVariables (fileContent lines) in
    match allVariables, envLoad w with
    | _ :: _, inr envErr => inl (VariablesWithoutEnv allVariables envErr)
    | _, _ =>
      let env := match envLoad w with inl e => Some e | inr _ => None end in
      match scannerErr w with
      | Some err => inl (ScanError err)
      | None =>
        inr (Collection.mk (Info.mk ("jb-export-" +:+ today w) schemaURL)
               (items (sealAtEOF (scanLoop env "dev" initialState lines))),
             writeErr w)
      end
    end
  end.

End NamedSeparators.

(** ** Part 4: the vocabulary of the properties *)

Definition requestItem (it : Item.t) : Prop :=
  Request.Method (Item.Request it) <> "".

Definition folderItem (it : Item.t) : Prop :=
  Item.Item it <> [] /\ Forall requestItem (Item.Item it).

(** The test of the assembler that selects the folder structure. *)
Definition groupedMode (s : State) : bool :=
  hasGroupSeparators s && (0 <? length (groups s)).

Definition groupedSample : list string :=
  [ "# @group_name USERS";
    "GET https://api.example.com/users"; "###";
    "# @group_name ORDERS";
    "# @name listOrders";
    "GET https://api.example.com/orders" ].

Definition groupedWorld : World :=
  mkWorld (Some groupedSample) None (inl ∅) "20240101000000" mapOrder None.


(** The item that sealing builds from the accumulator: the method with the
    headers, the body, the URL and its query attached, under the explicit
    name or else the next generated one, with the pending description. *)
Definition sealedItem (s : State) : Item.t :=
  Item.mk
    (if decide (currentRequestName s = "")
     then "request-" +:+ pretty (count s + 1)%N else currentRequestName s)
    (if decide (currentRequestDescription s = "")
     then Item.Description (item s) else currentRequestDescription s)
    (Item.Item (item s))
    (Request.mk (Request.Method (req s)) (headers s) (body s)
       (URL.mk (URL.Raw (url s)) (URL.Protocol (url s)) (URL.Host (url s))
               (URL.Path (url s)) (query s) (URL.Variable_ (url s)))).

(** The accumulator holds a request worth sealing. *)
Definition sealable (s : State) : Prop :=
  Request.Method (req s) <> "" /\ URL.Raw (url s) <> "".

Definition unfinishedSample : list string :=
  [ "GET https://api.example.com/users?page=1"; "Accept: application/json" ].

Definition emptySample : list string :=
  [ "# only a comment"; "Accept: application/json" ].

(** The verb, the URL and the query parameters that a method line gives. *)
Definition methodOf (raw : string) : string := at_ 0 (Fields (TrimSpace raw)).
Definition urlOf (raw : string) : string := at_ 1 (Fields (TrimSpace raw)).
Definition queryOf (raw : string) : list QueryParam.t :=
  parseQueryParams (urlOf raw) [].

(** In state [s] the loop takes the line as a method line: the case of the
    method pattern is reached and its guard on the number of fields holds. *)
Definition takenAsMethod (s : State) (raw : string) : Prop :=
  lineKind s (TrimSpace raw) = KMethod /\ 2 <= length (Fields (TrimSpace raw)).

(** None of the lines, read from state [s] on, is taken as a method line or
    as a separator: the lines stay within the request block. *)
Fixpoint withinBlock (s : State) (ls : list string) : Prop :=
  match ls with
  | [] => True
  | l :: r =>
    lineKind s (TrimSpace l) <> KMethod
    /\ lineKind s (TrimSpace l) <> KSeparator
    /\ withinBlock (processLine s l) r
  end.

Definition twoMethodsFirst : string := "GET https://api.example.com/users?page=1&limit=10".
Definition twoMethodsSecond : string := "POST https://api.example.com/orders?sort=name".

(** The line passes every case of the switch that comes before the header
    and body cases: it is not blank, is no group, name, description or
    local-variable line, opens no script, is read outside a script block,
    is no separator, no comment, no method line, and opens no JSON body. *)
Definition pastEarlierCases (s : State) (line : string) : Prop :=
  line <> ""
  /\ groupRegex_Find line = None
  /\ nameRegex_Find line = None
  /\ descriptionRegex_Find line = None
  /\ localVariableRegex_Find line = None
  /\ HasPrefix line "<" && Contains line "{%" = false
  /\ inRequestScript s = false
  /\ requestSeparatorRegex_Match line = false
  /\ HasPrefix line "#" = false
  /\ httpMethodRegex_Match line = false
  /\ HasPrefix line "{" = false.

(** The line matches none of the annotation patterns that the switch tests
    before it looks at the script flag. *)
Definition noAnnotation (line : string) : Prop :=
  groupRegex_Find line = None
  /\ nameRegex_Find line = None
  /\ descriptionRegex_Find line = None
  /\ localVariableRegex_Find line = None.

(** The first sentence of C3 as the specification words it: every line with
    a colon that is read in JSON-body mode is appended verbatim to the body
    text and leaves the header list alone. *)
Definition C3_every_colon_line_in_body_is_appended : Prop :=
  forall (s : State) (raw : string),
    startedJSON s = true -> Contains raw ":" = true ->
    data (processLine s raw) = data s +:+ raw +:+ nl
    /\ headers (processLine s raw) = headers s.

(** A request whose multi-line JSON body has just been opened. *)
Definition openBodySample : list string :=
  [ "POST https://api.example.com/users"; "{" ].

(** C9 as the specification words it: a line read in script mode before the
    close token does nothing but record a variable-setter match. *)
Definition C9_script_lines_only_record_variables : Prop :=
  forall (s : State) (raw : string),
    inRequestScript s = true -> Contains (TrimSpace raw) "%}" = false ->
    processLine s raw
    = set_requestVariables (scanSetter (TrimSpace raw) (requestVariables s)) s.

(** A request followed by the opening line of a multi-line script. *)
Definition openScriptSample : list string :=
  [ "GET https://api.example.com/users/{{id}}"; "< {%" ].

(** The body that the program's test [TestPOSTRequestWithJSON] expects for
    [postWithJSON]: the lines of the body with their indentation. *)
Definition expectedBody : string :=
  "{" +:+ nl
  +:+ "  " +:+ dq +:+ "name" +:+ dq +:+ ": " +:+ dq +:+ "John Doe" +:+ dq +:+ "," +:+ nl
  +:+ "  " +:+ dq +:+ "email" +:+ dq +:+ ": " +:+ dq +:+ "john@example.com" +:+ dq +:+ nl
  +:+ "}".

(** The raw bodies of the requests of a document. *)
Definition rawBodies (items : list Item.t) : list string :=
  map (fun it => Body.Raw (Request.Body (Item.Request it))) items.

(** Every byte of the string satisfies [p]. *)
Fixpoint allBytes (p : ascii -> bool) (s : string) : bool :=
  match s with
  | "" => true
  | String c r => p c && allBytes p r
  end.

(** The text holds a reference [{{name}}] to the variable [name]: the two
    opening braces, a non-empty name of letters, digits and underscores,
    and the two closing braces. *)
Definition refersTo (text name : string) : Prop :=
  name <> "" /\ allBytes isWord name = true
  /\ exists pre post, text = pre +:+ "{{" +:+ name +:+ "}}" +:+ post.

Definition hasVariableReference (text : string) : Prop :=
  exists name, refersTo text name.

(** The same run with an environment file that loads, and is empty. *)
Definition withEmptyEnvironment (w : World) : World :=
  mkWorld (inputFile w) (scannerErr w) (inl ∅) (today w) (rangeOrder w)
          (writeErr w).

Definition tokenSample : list string :=
  [ "GET https://api.example.com/users"; "Authorization: Bearer {{token}}" ].

Definition tokenWorld : World :=
  mkWorld (Some tokenSample) None (inr "open http-client.env.json: no such file")
          "20240101000000" mapOrder None.

(** Two runs read the same files: the same input, the same environment
    file, the same disk.  The clock and the order in which the runtime
    ranges over a map are the run's own. *)
Definition sameFiles (w1 w2 : World) : Prop :=
  inputFile w1 = inputFile w2 /\ scannerErr w1 = scannerErr w2
  /\ envLoad w1 = envLoad w2 /\ writeErr w1 = writeErr w2.

(** The entries of the local variables that the second loop of the
    assembler appends: those whose name was not detected in the text. *)
Definition leftover (uniqueVars : gmap string bool)
    (entries : list (string * string)) : list Variable_.t :=
  map (fun kv => Variable_.mk (fst kv) (snd kv) "string")
      (filter (fun kv => seen uniqueVars (fst kv) = false) entries).

(** C6 as the specification words it: two runs on the same files write
    documents with the same items and the same variable list. *)
Definition C6_two_runs_write_the_same_variables : Prop :=
  forall (w1 w2 : World) (d1 d2 : Collection.t) (r1 r2 : option string),
    sameFiles w1 w2 ->
    fairRange (rangeOrder w1) -> fairRange (rangeOrder w2) ->
    convertHTTPToPostman w1 = Written d1 r1 ->
    convertHTTPToPostman w2 = Written d2 r2 ->
    Collection.Items d1 = Collection.Items d2
    /\ Collection.Variable_ d1 = Collection.Variable_ d2.

(** Another order in which a [range] may visit a map. *)
Definition reverseOrder : gmap string string -> list (string * string) :=
  fun m => reverse (map_to_list m).

Definition twoLocalsSample : list string :=
  [ "@host = example.com"; "@port = 8080";
    "GET https://api.example.com/users" ].

Definition twoLocalsWorld (order : gmap string string -> list (string * string))
    (today : string) : World :=
  mkWorld (Some twoLocalsSample) None (inl ∅) today order None.

(** The text that follows the marker on a separator line. *)
Definition trailingText (sep : string) : string :=
  TrimSpace (TrimPrefix (TrimSpace sep) "###").

(** None of the lines, read from state [s] on, is taken as a separator. *)
Fixpoint noSeparator (s : State) (ls : list string) : Prop :=
  match ls with
  | [] => True
  | l :: r =>
    lineKind s (TrimSpace l) <> KSeparator /\ noSeparator (processLine s l) r
  end.

(** The first sentence of C7 as the specification words it, read on the
    group-aware program: the trailing text of a separator line is the name
    of the request sealed from the block that follows. *)
Definition C7_separator_text_names_the_next_request : Prop :=
  forall (s : State) (sep : string) (block : list string),
    lineKind s (TrimSpace sep) = KSeparator -> trailingText sep <> "" ->
    noSeparator (processLine s sep) block ->
    sealable (scanLoop (processLine s sep) block) ->
    Item.Name (sealedItem (scanLoop (processLine s sep) block))
    = trailingText sep.

(** The same notions for the program with separator names. *)
Fixpoint noSeparatorNS (env : option Environment) (s : NamedSeparators.State)
    (ls : list string) : Prop :=
  match ls with
  | [] => True
  | l :: r =>
    NamedSeparators.lineKind s (TrimSpace l) <> NamedSeparators.KSeparator
    /\ noSeparatorNS env (NamedSeparators.processLine env "dev" s l) r
  end.

Definition sealableNS (s : NamedSeparators.State) : Prop :=
  NamedSeparators.Request.Method (NamedSeparators.req s) <> ""
  /\ NamedSeparators.URL.Raw (NamedSeparators.url s) <> "".

(** The name that the separator case gives to the next request. *)
Definition separatorName (s : NamedSeparators.State) (sep : string) : string :=
  if decide (trailingText sep = "")
  then "request-" +:+ pretty (NamedSeparators.count s + 1)%N
  else trailingText sep.

Definition namedSample : list string :=
  [ "GET https://api.example.com/users"; "Accept: application/json" ].

(** The state in which a request block begins: the state in which the
    loop starts, or the state that a separator line leaves. *)
Definition blockStart (s0 : State) : Prop :=
  s0 = initialState
  \/ exists (s : State) (sep : string),
       lineKind s (TrimSpace sep) = KSeparator /\ s0 = processLine s sep.

(** The name that the [# @name] annotations of a block give: the word of
    the last line of the block that is such an annotation. *)
Definition annotatedName (block : list string) : option string :=
  last (omap (fun l => nameRegex_Find (TrimSpace l)) block).

Definition annotatedSample : list string :=
  [ "# @name getUsers"; "GET https://api.example.com/users";
    "Accept: application/json" ].

(** ** Part 4b: the vocabulary of further properties *)

(** A request as sealing leaves it: a method, a raw URL, a name, and no
    nested items. *)
Definition wellSealed (it : Item.t) : Prop :=
  Request.Method (Item.Request it) <> ""
  /\ URL.Raw (Request.URL (Item.Request it)) <> ""
  /\ Item.Name it <> ""
  /\ Item.Item it = [].

(** The sealed requests that a state of the loop holds are all well
    sealed, and a group that has joined the groups has at least one. *)
Definition sealedState (s : State) : Prop :=
  Forall wellSealed (allItems s)
  /\ Forall (fun g => Group.Items g <> [] /\ Forall wellSealed (Group.Items g))
            (groups s)
  /\ (forall g, currentGroup s = Some g -> Forall wellSealed (Group.Items g))
  /\ Item.Item (item s) = [].

(** The folder of a group. *)
Definition folderOf (g : Group.t) : Item.t :=
  Item.mk (Group.Name g) "" (Group.Items g) Request.zero.

(** The requests of a document: its items, or the items of its folders. *)
Definition requestsOf (s : State) : list Item.t :=
  if groupedMode s then flat_map Item.Item (buildItems s) else buildItems s.

(** No line of the input is a name annotation or a group declaration. *)
Definition plainLines (lines : list string) : Prop :=
  Forall (fun l => nameRegex_Find (TrimSpace l) = None
                   /\ groupRegex_Find (TrimSpace l) = None) lines.

(** The names [request-1], ..., [request-n]. *)
Definition generatedNames (n : nat) : list string :=
  map (fun k => "request-" +:+ pretty (N.of_nat k)) (seq 1 n).

(** The sealed requests of a state without names and groups carry the
    generated names, and the counter has counted them. *)
Definition countedState (s : State) : Prop :=
  currentRequestName s = "" /\ hasGroupSeparators s = false
  /\ count s = N.of_nat (length (allItems s))
  /\ map Item.Name (allItems s) = generatedNames (length (allItems s)).

(** The header that a header line gives: the text before the first colon
    and the text after it, both trimmed. *)
Definition headerOf (raw : string) : Header.t :=
  Header.mk (TrimSpace (at_ 0 (SplitN2 (TrimSpace raw) ":")))
            (TrimSpace (at_ 1 (SplitN2 (TrimSpace raw) ":"))) "text".

(** A line that reaches the header and body cases and holds a colon. *)
Definition colonLine (s : State) (raw : string) : Prop :=
  pastEarlierCases s (TrimSpace raw) /\ Contains (TrimSpace raw) ":" = true.

(** A line inside a JSON body: it reaches the body cases and does not
    close the body. *)
Definition innerBodyLine (s : State) (raw : string) : Prop :=
  pastEarlierCases s (TrimSpace raw)
  /\ (Contains (TrimSpace raw) ":" = true \/ HasSuffix (TrimSpace raw) "}" = false).

(** The line that closes a JSON body. *)
Definition closingBodyLine (s : State) (raw : string) : Prop :=
  pastEarlierCases s (TrimSpace raw)
  /\ Contains (TrimSpace raw) ":" = false /\ HasSuffix (TrimSpace raw) "}" = true.

(** The line that opens a multi-line JSON body. *)
Definition openingBodyLine (s : State) (raw : string) : Prop :=
  lineKind s (TrimSpace raw) = KJSONStart /\ HasSuffix (TrimSpace raw) "}" = false.

(** The lines, trimmed, each followed by a newline. *)
Definition trimmedLines (lines : list string) : string :=
  foldr (fun l acc => TrimSpace l +:+ nl +:+ acc) "" lines.

Definition headerSample : list string :=
  [ "Accept: application/json"; "  Authorization : Bearer abc:def  ";
    "X-Trace-Id:42" ].

Definition bodySample : list string :=
  [ "    " +:+ dq +:+ "tags" +:+ dq +:+ ": ["; "      1,"; "      2"; "    ]" ].

(** The value of a detected variable: the file's local variable, else the
    variable of the environment [dev], else empty. *)
Definition resolvedValue (env : option Environment)
    (localVariables : gmap string string) (name : string) : string :=
  match localVariables !! name with
  | Some v => v
  | None =>
    match env with
    | Some e =>
      match e !! "dev" with
      | Some vars => default "" (vars !! name)
      | None => ""
      end
    | None => ""
    end
  end.

Definition variableOf (name value : string) : Variable_.t :=
  Variable_.mk name value "string".

(** The flags of the detected names agree with the keys of the entries
    written so far, which are distinct. *)
Definition seenAgrees (uniqueVars : gmap string bool)
    (collectionVariables : list Variable_.t) : Prop :=
  (forall k, seen uniqueVars k = true
             <-> k ∈ map Variable_.Key collectionVariables)
  /\ NoDup (map Variable_.Key collectionVariables).

Definition variablesSample : State :=
  scanLoop initialState
    [ "@host = example.com"; "@token = local-secret";
      "GET https://{{host}}/users/{{id}}"; "Authorization: Bearer {{token}}" ].

Definition variablesEnv : Environment :=
  {[ "dev" := {[ "token" := "env-secret"; "id" := "7" ]} ]}.

(** The raw URL names the base URL, in one of its two spellings. *)
Definition hasBaseUrl (rawURL : string) : bool :=
  Contains rawURL "{{baseUrl}}" || Contains rawURL "{{baseURL}}".

(** The raw URL without its query string. *)
Definition pathPartOf (rawURL : string) : string :=
  if Contains rawURL "?" then at_ 0 (Split rawURL "?") else rawURL.




(** The environment defines none of the variables the text refers to. *)
Definition definesNone (vars : gmap string string) (text : string) : Prop :=
  forall name, name ∈ detectVariables text -> vars !! name = None.

(** No byte of the string is an opening brace. *)
Definition braceFree (s : string) : bool :=
  allBytes (fun c => negb (Ascii.eqb c "{"%char)) s.

(** The elements written one after the other with [sep] between them. *)
Fixpoint Join (elems : list string) (sep : string) : string :=
  match elems with
  | [] => ""
  | x :: rest =>
    match rest with
    | [] => x
    | _ => x +:+ sep +:+ Join rest sep
    end
  end.

(** The address of a request with host labels and path segments put back
    together. *)
Definition addressOf (u : URL.t) : string :=
  Join (Join (URL.Host u) "." :: URL.Path u) "/".

(** The request of the item carries one of the five verbs. *)
Definition hasVerb (it : Item.t) : Prop :=
  Request.Method (Item.Request it) ∈ verbs.

(** The method being read is empty or a verb, and every sealed request
    carries a verb. *)
Definition verbState (s : State) : Prop :=
  (Request.Method (req s) = "" \/ Request.Method (req s) ∈ verbs)
  /\ Forall hasVerb (allItems s)
  /\ Forall (fun g => Forall hasVerb (Group.Items g)) (groups s)
  /\ (forall g, currentGroup s = Some g -> Forall hasVerb (Group.Items g)).






(** A key or a value of a well-formed query string: it holds none of the
    three delimiters. *)
Definition plainText (s : string) : bool :=
  negb (Contains s "?") && negb (Contains s "&") && negb (Contains s "=").

Definition pairText (kv : string * string) : string :=
  fst kv +:+ "=" +:+ snd kv.

Definition queryParamOf (kv : string * string) : QueryParam.t :=
  QueryParam.mk (TrimSpace (fst kv)) (TrimSpace (snd kv)).

(** The query string of the pairs: [k1=v1&k2=v2&...]. *)
Definition queryText (kvs : list (string * string)) : string :=
  Join (map pairText kvs) "&".

Definition localsSample : list string :=
  [ "@token = first"; "GET https://example.com/users";
    "@token =   local-secret  "; "###"; "@host = example.com" ].
(** ** Part 5: properties of the parser *)

(** *** The library models on sample inputs *)

Example TrimSpace_ex :
  TrimSpace ("  " +:+ tab +:+ "a b " +:+ nl) = "a b"
  /\ TrimSpace (String (ascii_of_nat 194) (String (ascii_of_nat 160) "x")) = "x"
  /\ TrimSpace (String "x"%char (String (ascii_of_nat 226) (String (ascii_of_nat 128) (String (ascii_of_nat 137) "")))) = "x"
  /\ TrimSpace "   " = "".
Proof. vm_compute. auto. Qed.

Example Split_ex :
  Split "a=b=c" "=" = ["a"; "b"; "c"]
  /\ Split "https://h/p" "://" = ["https"; "h/p"]
  /\ Split "abc" "/" = ["abc"]
  /\ Split "a//" "/" = ["a"; ""; ""]
  /\ SplitN2 "a: b: c" ":" = ["a"; " b: c"]
  /\ Fields ("GET   http://x " +:+ tab +:+ "y") = ["GET"; "http://x"; "y"]
  /\ ReplaceAll "/{{id}}/x/{{id}}" "{{id}}" ":id" = "/:id/x/:id".
Proof. vm_compute. repeat split. Qed.

Example regexp_ex :
  varRegex_FindAll 0 "a {{x}} {{{y_1}}} {{}} {{z z}} {{w}" = ["x"; "y_1"]
  /\ httpMethodRegex_Match "GET http://x" = true
  /\ httpMethodRegex_Match "GETX http://x" = false
  /\ httpMethodRegex_Match "GET" = false
  /\ groupRegex_Find "# @group_name  PRODUCTS list" = Some "PRODUCTS list"
  /\ groupRegex_Find "#@group_name" = None
  /\ nameRegex_Find "# @name  getUsers" = Some "getUsers"
  /\ nameRegex_Find "# @name get users" = None
  /\ descriptionRegex_Find "//   hello world" = Some "hello world"
  /\ descriptionRegex_Find "//" = None
  /\ requestSeparatorRegex_Match "### next" = true
  /\ localVariableRegex_Find "@host = example.com" = Some ("host", "example.com")
  /\ localVariableRegex_Find "@host example.com" = None
  /\ requestVariableRegex_Find
       ("< {% request.variables.set(" +:+ dq +:+ "id" +:+ dq +:+ ",  "
        +:+ dq +:+ "42" +:+ dq +:+ ") %}") = Some ("id", "42").
Proof. vm_compute. repeat split. Qed.

Example parseURL_ex :
  parseURL "https://api.example.com/users?page=1" URL.zero ∅ ∅
  = URL.mk "" "https" ["api"; "example"; "com"] ["users"] [] []
  /\ parseURL "{{baseUrl}}/users/{{id}}?x=1" URL.zero {["id" := "7"]} ∅
  = URL.mk "" "" ["{{baseUrl}}"] ["users"; ":id"] []
      [Variable_.mk "id" "7" "string"]
  /\ parseQueryParams "https://h/p?page=1&limit=10&sort=name" []
  = [QueryParam.mk "page" "1"; QueryParam.mk "limit" "10";
     QueryParam.mk "sort" "name"].
Proof. vm_compute. repeat split. Qed.

Example threeRequests_ex :
  map (fun it => (Item.Name it, Request.Method (Item.Request it)))
      (Collection.Items (document threeRequests ∅ mapOrder "t"))
  = [("request-1", "GET"); ("request-2", "POST"); ("request-3", "DELETE")].
Proof. vm_compute. reflexivity. Qed.


(** *** Records and setters *)

Lemma State_eta (s : State) :
  mkState (groups s) (currentGroup s) (allItems s) (hasGroupSeparators s)
          (item s) (req s) (headers s) (body s) (url s) (query s) (data s)
          (count s) (startedJSON s) (currentRequestName s)
          (currentRequestDescription s) (requestVariables s)
          (inRequestScript s) (localVariables s) = s.
Proof. by destruct s. Qed.

Lemma bool_decide_empty_false (x : string) :
  x <> "" -> bool_decide (x = "") = false.
Proof. intros H. by apply bool_decide_eq_false. Qed.

Lemma validItemsOf_snoc (its : list Item.t) (it : Item.t) :
  Request.Method (Item.Request it) <> "" ->
  validItemsOf (its ++ [it]) = validItemsOf its ++ [it].
Proof.
  intros Hm. unfold validItemsOf. rewrite filter_app. f_equal.
  rewrite filter_cons. by destruct (decide _).
Qed.

Lemma validItemsOf_Forall (its : list Item.t) :
  Forall (fun it => Request.Method (Item.Request it) <> "") (validItemsOf its).
Proof.
  apply Forall_forall. intros it Hin.
  by apply list_elem_of_filter in Hin as [? _].
Qed.

Lemma length_pos_snoc {A} (l : list A) (x : A) : (0 <? length (l ++ [x])) = true.
Proof. apply Nat.ltb_lt. rewrite length_app. simpl. lia. Qed.

(** *** The item list of the document (C8) *)

Lemma addFolder_folderItem (acc : list Item.t) (g : Group.t) :
  Forall folderItem acc -> Forall folderItem (addFolder acc g).
Proof.
  intros Hacc. unfold addFolder.
  destruct (0 <? length (Group.Items g)); [|done].
  destruct (0 <? length (validItemsOf (Group.Items g))) eqn:Hlen; [|done].
  apply Forall_app. split; [done|].
  constructor; [|constructor]. split; simpl.
  - intros Hnil. rewrite Hnil in Hlen. discriminate.
  - apply validItemsOf_Forall.
Qed.

Lemma foldl_addFolder_folderItem (gs : list Group.t) (acc : list Item.t) :
  Forall folderItem acc -> Forall folderItem (foldl addFolder acc gs).
Proof.
  revert acc. induction gs as [|g gs IH]; intros acc Hacc; simpl; [done|].
  apply IH. by apply addFolder_folderItem.
Qed.

Lemma buildItems_shape (s : State) :
  if groupedMode s then Forall folderItem (buildItems s)
  else Forall requestItem (buildItems s).
Proof.
  unfold groupedMode, buildItems.
  destruct (hasGroupSeparators s && (0 <? length (groups s))).
  - unfold buildFolders. by apply foldl_addFolder_folderItem.
  - apply validItemsOf_Forall.
Qed.

(** C8. Whenever the conversion writes a document, the item list of that
    document holds no request with an empty method: without groups every
    item has a non-empty method; with groups every item is a folder that
    holds at least one request and only requests with a non-empty method. *)
Theorem C8_no_item_with_empty_method (w : World) (doc : Collection.t)
    (err : option string) :
  convertHTTPToPostman w = Written doc err ->
  exists lines, inputFile w = Some lines /\
    if groupedMode (finalState lines)
    then Forall folderItem (Collection.Items doc)
    else Forall requestItem (Collection.Items doc).
Proof.
  unfold convertHTTPToPostman. intros H.
  destruct (inputFile w) as [lines|]; [|discriminate].
  exists lines. split; [done|].
  assert (Collection.Items doc = buildItems (finalState lines)) as ->.
  { destruct (detectVariables (fileContent lines)), (envLoad w), (scannerErr w);
      simplify_eq; done. }
  apply buildItems_shape.
Qed.

Lemma C8_no_item_with_empty_method_witness :
  convertHTTPToPostman groupedWorld
  = Written (document groupedSample ∅ mapOrder "20240101000000") None
  /\ exists lines, inputFile groupedWorld = Some lines /\
       if groupedMode (finalState lines)
       then Forall folderItem
              (Collection.Items (document groupedSample ∅ mapOrder "20240101000000"))
       else Forall requestItem
              (Collection.Items (document groupedSample ∅ mapOrder "20240101000000")).
Proof.
  split; [vm_compute; reflexivity|].
  apply (C8_no_item_with_empty_method groupedWorld _ None).
  vm_compute. reflexivity.
Defined.

(** *** Sealing at the end of the input (C4) *)

Lemma sealAtEOF_sealAtSeparator (s : State) : sealAtEOF s = sealAtSeparator s.
Proof.
  unfold sealAtEOF, sealAtSeparator, addItem.
  destruct (negb _ && negb _); [|done]. simpl.
  by destruct (hasGroupSeparators s), (currentGroup s).
Qed.

Lemma sealAtEOF_sealable (s : State) :
  sealable s ->
  sealAtEOF s =
    let s' := set_item (sealedItem s)
                (set_count (if decide (currentRequestName s = "")
                            then (count s + 1)%N else count s)
                   (set_req (Item.Request (sealedItem s)) s)) in
    match hasGroupSeparators s, currentGroup s with
    | true, Some g =>
      set_currentGroup
        (Some (Group.mk (Group.Name g) (Group.Items g ++ [sealedItem s]))) s'
    | _, _ => set_allItems (allItems s ++ [sealedItem s]) s'
    end.
Proof.
  intros [Hm Hu]. unfold sealAtEOF.
  rewrite (bool_decide_empty_false _ Hm), (bool_decide_empty_false _ Hu).
  simpl. unfold sealedItem, sprintfRequest, set_Query.
  destruct (decide (currentRequestName s = "")), (hasGroupSeparators s),
    (currentGroup s); reflexivity.
Qed.

Lemma sealAtEOF_not_sealable (s : State) :
  Request.Method (req s) = "" \/ URL.Raw (url s) = "" -> sealAtEOF s = s.
Proof.
  intros H. unfold sealAtEOF.
  destruct H as [-> | ->]; simpl; [done|].
  by rewrite andb_false_r.
Qed.

Lemma buildFolders_snoc (gs : list Group.t) (g : Group.t) :
  buildFolders (gs ++ [g]) = addFolder (buildFolders gs) g.
Proof. unfold buildFolders. by rewrite foldl_snoc. Qed.

Lemma lineKind_bare_separator (s : State) :
  inRequestScript s = false -> lineKind s "###" = KSeparator.
Proof. intros H. unfold lineKind. rewrite H. vm_compute. reflexivity. Qed.

Lemma processLine_bare_separator (s : State) :
  inRequestScript s = false ->
  processLine s "###"
  = set_currentRequestDescription "" (resetRequest (sealAtSeparator s)).
Proof.
  intros H. unfold processLine.
  change (TrimSpace "###") with "###".
  by rewrite (lineKind_bare_separator s H).
Qed.

Lemma output_after_reset (s : State) :
  buildItems (closeGroup (sealAtEOF
    (set_currentRequestDescription "" (resetRequest s))))
  = buildItems (closeGroup s).
Proof.
  rewrite sealAtEOF_not_sealable by (left; reflexivity).
  unfold closeGroup, buildItems. simpl.
  destruct (currentGroup s) as [g|]; [|done].
  by destruct (0 <? length (Group.Items g)).
Qed.

(** What sealing at the end of the input does to the items of the
    document, from any state of the loop. *)
Lemma sealAtEOF_output (s : State) :
  (sealable s ->
     (hasGroupSeparators s = false ->
        buildItems (closeGroup (sealAtEOF s))
        = validItemsOf (allItems s) ++ [sealedItem s])
     /\ (forall g, hasGroupSeparators s = true -> currentGroup s = Some g ->
           buildItems (closeGroup (sealAtEOF s))
           = buildFolders (groups s)
             ++ [Item.mk (Group.Name g) ""
                   (validItemsOf (Group.Items g) ++ [sealedItem s])
                   Request.zero]))
  /\ (inRequestScript s = false ->
        buildItems (closeGroup (sealAtEOF (processLine s "###")))
        = buildItems (closeGroup (sealAtEOF s))).
Proof.
  split; [|intros Hscript;
    rewrite (processLine_bare_separator s Hscript), output_after_reset;
    do 2 f_equal; symmetry; apply sealAtEOF_sealAtSeparator].
  intros Hs. pose proof Hs as [Hm _].
  rewrite (sealAtEOF_sealable s Hs). split.
  - intros Hflat. rewrite Hflat. simpl.
    unfold closeGroup, buildItems. simpl.
    destruct (currentGroup s) as [g|]; simpl.
    + destruct (0 <? length (Group.Items g)); simpl; rewrite Hflat; simpl;
        by apply validItemsOf_snoc.
    + rewrite Hflat. simpl. by apply validItemsOf_snoc.
  - intros g Hgrp Hcur. rewrite Hgrp, Hcur. simpl.
    unfold closeGroup, buildItems. simpl.
    rewrite length_pos_snoc. simpl. rewrite Hgrp, length_pos_snoc. simpl.
    rewrite buildFolders_snoc. unfold addFolder. simpl.
    rewrite length_pos_snoc, validItemsOf_snoc by done.
    by rewrite length_pos_snoc.
Qed.

(** Once a group has been declared there is a current group. *)
Lemma processLine_current_group (s : State) (raw : string) :
  (hasGroupSeparators s = true -> is_Some (currentGroup s)) ->
  hasGroupSeparators (processLine s raw) = true ->
  is_Some (currentGroup (processLine s raw)).
Proof.
  intros Hinv. unfold processLine.
  destruct (lineKind s (TrimSpace raw)); simpl;
    try (unfold sealAtSeparator, addItem);
    repeat match goal with
           | |- context [match ?c with Some _ => _ | None => _ end] =>
               destruct c eqn:?; simpl
           | |- context [if ?c then _ else _] => destruct c eqn:?; simpl
           | |- context [let (_, _) := ?c in _] => destruct c; simpl
           end; eauto; try (intros H; specialize (Hinv H)); simpl in *;
    try done; try (by destruct Hinv); by eauto.
Qed.

Lemma scanLoop_current_group (lines : list string) (s : State) :
  (hasGroupSeparators s = true -> is_Some (currentGroup s)) ->
  hasGroupSeparators (scanLoop s lines) = true ->
  is_Some (currentGroup (scanLoop s lines)).
Proof.
  revert s. induction lines as [|l ls IH]; intros s Hinv; simpl; [done|].
  apply IH. by apply processLine_current_group.
Qed.

(** C4. For every input, let [s] be the state in which the loop ends.  The
    end of the input seals by the very transformation of the separator
    case.  When [s] holds a non-empty method and a non-empty raw URL, the
    sealed item, with its headers, body, URL, query, name and description,
    is the last item of the document (without groups) or the last request
    of its last folder (with groups); when the method or the URL is empty
    the end of the input appends nothing.  In both cases the items of the
    document are those that the same input followed by a separator line
    gives. *)
Theorem C4_end_of_input_seals_last_request (lines : list string) :
  let s := scanLoop initialState lines in
  sealAtEOF s = sealAtSeparator s
  /\ (sealable s ->
        if hasGroupSeparators s
        then exists g,
               currentGroup s = Some g
               /\ buildItems (finalState lines)
                  = buildFolders (groups s)
                    ++ [Item.mk (Group.Name g) ""
                          (validItemsOf (Group.Items g) ++ [sealedItem s])
                          Request.zero]
        else buildItems (finalState lines)
             = validItemsOf (allItems s) ++ [sealedItem s])
  /\ (Request.Method (req s) = "" \/ URL.Raw (url s) = "" ->
        sealAtEOF s = s /\ finalState lines = closeGroup s)
  /\ (inRequestScript s = false ->
        buildItems (finalState (lines ++ ["###"]))
        = buildItems (finalState lines)).
Proof.
  intros s. destruct (sealAtEOF_output s) as [Hout Hsep].
  split; [apply sealAtEOF_sealAtSeparator|]. split; [|split].
  - intros Hs. destruct (Hout Hs) as [Hflat Hgrp].
    destruct (hasGroupSeparators s) eqn:Hg; [|by apply Hflat].
    destruct (scanLoop_current_group lines initialState) as [g Hcur];
      [done|done|].
    exists g. split; [done|]. by apply Hgrp.
  - intros H. unfold finalState. fold s.
    by rewrite (sealAtEOF_not_sealable s H).
  - intros Hscript. unfold finalState, scanLoop.
    rewrite foldl_snoc. by apply Hsep.
Qed.

Lemma C4_end_of_input_seals_last_request_witness :
  sealable (scanLoop initialState unfinishedSample)
  /\ buildItems (finalState unfinishedSample)
     = [sealedItem (scanLoop initialState unfinishedSample)]
  /\ Request.Method (req (scanLoop initialState emptySample)) = ""
  /\ buildItems (finalState emptySample) = []
  /\ buildItems (finalState (unfinishedSample ++ ["###"]))
     = buildItems (finalState unfinishedSample).
Proof.
  pose proof (C4_end_of_input_seals_last_request unfinishedSample)
    as (_ & Hs & _ & Hsep).
  pose proof (C4_end_of_input_seals_last_request emptySample)
    as (_ & _ & He & _).
  assert (Hseal : sealable (scanLoop initialState unfinishedSample)).
  { split; vm_compute; discriminate. }
  split; [exact Hseal|].
  split; [exact (Hs Hseal)|].
  split; [vm_compute; reflexivity|].
  split; [|exact (Hsep eq_refl)].
  destruct (He (or_introl eq_refl)) as [_ ->]. vm_compute. reflexivity.
Defined.

(** *** Two method lines in one block (C10) *)

Lemma foldl_addParam_app (params : list string) (q acc : list QueryParam.t) :
  foldl addParam (q ++ acc) params = q ++ foldl addParam acc params.
Proof.
  revert acc. induction params as [|p ps IH]; intros acc; simpl; [done|].
  unfold addParam at 2 4. destruct (Contains p "="); [|apply IH].
  rewrite <- app_assoc. apply IH.
Qed.

Lemma parseQueryParams_app (rawURL : string) (q : list QueryParam.t) :
  parseQueryParams rawURL q = q ++ parseQueryParams rawURL [].
Proof.
  unfold parseQueryParams.
  destruct (Contains rawURL "?"); [|by rewrite app_nil_r].
  destruct (1 <? length (Split rawURL "?")); [|by rewrite app_nil_r].
  rewrite <- (app_nil_r q) at 1. apply foldl_addParam_app.
Qed.

Lemma parseURL_Raw (rawURL : string) (u : URL.t) (lv rv : gmap string string) :
  URL.Raw (parseURL rawURL u lv rv) = URL.Raw u.
Proof.
  unfold parseURL.
  repeat match goal with
         | |- context [if ?c then _ else _] => destruct c; simpl
         | |- context [match ?c with Some _ => _ | None => _ end] =>
             destruct c; simpl
         end; reflexivity.
Qed.

Lemma fieldsGo_nonempty (fuel : nat) (cur s : string) :
  Forall (fun x => x <> "") (fieldsGo fuel cur s).
Proof.
  revert cur s. induction fuel as [|f IH]; intros cur s; simpl.
  - destruct cur; [constructor|]. by repeat constructor.
  - destruct s as [|c r].
    + destruct cur; [constructor|]. by repeat constructor.
    + destruct (spaceWidth (String c r)).
      * apply IH.
      * apply Forall_app. split; [|apply IH].
        destruct cur; [constructor|]. by repeat constructor.
Qed.

Lemma Fields_at_nonempty (s : string) (i : nat) :
  i < length (Fields s) -> at_ i (Fields s) <> "".
Proof.
  intros Hi. unfold at_.
  pose proof (fieldsGo_nonempty (S (String.length s)) "" s) as Hall.
  rewrite Forall_forall in Hall. apply Hall.
  apply list_elem_of_In. by apply nth_In.
Qed.

Lemma processLine_method (s : State) (raw : string) :
  takenAsMethod s raw ->
  Request.Method (req (processLine s raw)) = methodOf raw
  /\ URL.Raw (url (processLine s raw)) = urlOf raw
  /\ query (processLine s raw) = query s ++ queryOf raw
  /\ inRequestScript (processLine s raw) = inRequestScript s.
Proof.
  intros [Hk Hlen]. unfold processLine. rewrite Hk.
  apply Nat.leb_le in Hlen. rewrite Hlen. simpl.
  rewrite parseURL_Raw. simpl.
  by rewrite parseQueryParams_app.
Qed.

Lemma processLine_withinBlock (s : State) (raw : string) :
  lineKind s (TrimSpace raw) <> KMethod ->
  lineKind s (TrimSpace raw) <> KSeparator ->
  Request.Method (req (processLine s raw)) = Request.Method (req s)
  /\ URL.Raw (url (processLine s raw)) = URL.Raw (url s)
  /\ query (processLine s raw) = query s.
Proof.
  intros Hm Hsep. unfold processLine.
  destruct (lineKind s (TrimSpace raw)); try done; simpl;
    repeat match goal with
           | |- context [match ?c with Some _ => _ | None => _ end] =>
               destruct c; simpl
           | |- context [if ?c then _ else _] => destruct c; simpl
           | |- context [let (_, _) := ?c in _] => destruct c; simpl
           end; done.
Qed.

Lemma scanLoop_withinBlock (ls : list string) (s : State) :
  withinBlock s ls ->
  Request.Method (req (scanLoop s ls)) = Request.Method (req s)
  /\ URL.Raw (url (scanLoop s ls)) = URL.Raw (url s)
  /\ query (scanLoop s ls) = query s.
Proof.
  revert s. induction ls as [|l ls IH]; intros s; simpl; [done|].
  intros (Hm & Hsep & Hrest).
  destruct (processLine_withinBlock s l Hm Hsep) as (E1 & E2 & E3).
  destruct (IH _ Hrest) as (F1 & F2 & F3).
  unfold scanLoop in *. by rewrite F1, F2, F3.
Qed.

(** A block begins with an empty accumulator: no method, no URL, no
    query parameter, no pending name. *)
Lemma blockStart_fresh (s0 : State) :
  blockStart s0 ->
  query s0 = [] /\ Request.Method (req s0) = "" /\ URL.Raw (url s0) = ""
  /\ currentRequestName s0 = "".
Proof.
  intros [->|(s & sep & Hk & ->)]; [done|].
  unfold processLine. by rewrite Hk.
Qed.

(** Two method lines read from any state: the query list grows by the
    parameters of both URLs. *)
Lemma two_method_lines_from_any_state
    (s : State) (first second : string) (mid post : list string) :
  let s1 := processLine s first in
  let s2 := scanLoop s1 mid in
  let s3 := processLine s2 second in
  let s4 := scanLoop s3 post in
  takenAsMethod s first -> withinBlock s1 mid ->
  takenAsMethod s2 second -> withinBlock s3 post ->
  sealable s4
  /\ Request.Method (Item.Request (sealedItem s4)) = methodOf second
  /\ URL.Raw (Request.URL (Item.Request (sealedItem s4))) = urlOf second
  /\ URL.Query (Request.URL (Item.Request (sealedItem s4)))
     = query s ++ queryOf first ++ queryOf second
  /\ (hasGroupSeparators s4 = false ->
        allItems (sealAtEOF s4) = allItems s4 ++ [sealedItem s4]).
Proof.
  intros s1 s2 s3 s4 H1 Hmid H2 Hpost.
  destruct (processLine_method s first H1) as (_ & _ & Q1 & _).
  destruct (scanLoop_withinBlock mid s1 Hmid) as (_ & _ & Q2).
  destruct (processLine_method s2 second H2) as (M3 & U3 & Q3 & _).
  destruct (scanLoop_withinBlock post s3 Hpost) as (M4 & U4 & Q4).
  fold s1 in Q1. fold s2 in Q2, Q3, M3, U3. fold s3 in Q3, M3, U3, M4, U4, Q4.
  fold s4 in M4, U4, Q4.
  assert (Hseal : sealable s4).
  { destruct H2 as [_ Hlen]. split.
    - rewrite M4, M3. apply Fields_at_nonempty. lia.
    - rewrite U4, U3. apply Fields_at_nonempty. lia. }
  split; [exact Hseal|]. simpl.
  split; [by rewrite M4, M3|]. split; [by rewrite U4, U3|].
  split; [by rewrite Q4, Q3, Q2, Q1, <- app_assoc|].
  intros Hflat. rewrite (sealAtEOF_sealable s4 Hseal), Hflat. reflexivity.
Qed.

(** C10. In a request block (the lines read from the start of the input
    or from a separator line on, up to the next separator) with two method
    lines, the second one replaces the method and the raw URL of the
    accumulator, but the query parameters read from the first URL stay:
    the request that is then sealed has the method and raw URL of the
    second line, and its query list is the parameters of the first URL
    followed by those of the second. *)
Theorem C10_second_method_line_keeps_first_query
    (s0 : State) (pre : list string) (first second : string)
    (mid post : list string) :
  let sp := scanLoop s0 pre in
  let s1 := processLine sp first in
  let s2 := scanLoop s1 mid in
  let s3 := processLine s2 second in
  let s4 := scanLoop s3 post in
  blockStart s0 -> withinBlock s0 pre ->
  takenAsMethod sp first -> withinBlock s1 mid ->
  takenAsMethod s2 second -> withinBlock s3 post ->
  sealable s4
  /\ Request.Method (Item.Request (sealedItem s4)) = methodOf second
  /\ URL.Raw (Request.URL (Item.Request (sealedItem s4))) = urlOf second
  /\ URL.Query (Request.URL (Item.Request (sealedItem s4)))
     = queryOf first ++ queryOf second
  /\ (hasGroupSeparators s4 = false ->
        allItems (sealAtEOF s4) = allItems s4 ++ [sealedItem s4]).
Proof.
  intros sp s1 s2 s3 s4 H0 Hpre H1 Hmid H2 Hpost.
  destruct (blockStart_fresh s0 H0) as (Q0 & _).
  destruct (scanLoop_withinBlock pre s0 Hpre) as (_ & _ & Qp).
  fold sp in Qp. rewrite Q0 in Qp.
  destruct (two_method_lines_from_any_state sp first second mid post
              H1 Hmid H2 Hpost) as (Hs & Hm & Hu & Hq & Hf).
  rewrite Qp in Hq.
  split; [exact Hs|]. split; [exact Hm|]. split; [exact Hu|].
  split; [exact Hq|exact Hf].
Qed.

Lemma C10_second_method_line_keeps_first_query_witness :
  let s0 := processLine
              (scanLoop initialState ["GET https://api.example.com/items?x=1"])
              "### next" in
  let sp := scanLoop s0 ["# two method lines"] in
  let s1 := processLine sp twoMethodsFirst in
  let s2 := scanLoop s1 ["Accept: application/json"] in
  let s3 := processLine s2 twoMethodsSecond in
  let s4 := scanLoop s3 [] in
  blockStart s0
  /\ takenAsMethod sp twoMethodsFirst
  /\ takenAsMethod s2 twoMethodsSecond
  /\ sealable s4
  /\ Request.Method (Item.Request (sealedItem s4)) = "POST"
  /\ URL.Raw (Request.URL (Item.Request (sealedItem s4)))
     = "https://api.example.com/orders?sort=name"
  /\ URL.Query (Request.URL (Item.Request (sealedItem s4)))
     = [QueryParam.mk "page" "1"; QueryParam.mk "limit" "10";
        QueryParam.mk "sort" "name"].
Proof.
  intros s0 sp s1 s2 s3 s4.
  assert (H0 : blockStart s0).
  { right.
    exists (scanLoop initialState ["GET https://api.example.com/items?x=1"]),
           "### next".
    split; [vm_compute; reflexivity|reflexivity]. }
  assert (Hpre : withinBlock s0 ["# two method lines"])
    by (vm_compute; repeat split; discriminate).
  assert (H1 : takenAsMethod sp twoMethodsFirst).
  { split; [vm_compute; reflexivity|]. vm_compute. lia. }
  assert (Hmid : withinBlock s1 ["Accept: application/json"])
    by (vm_compute; repeat split; discriminate).
  assert (H2 : takenAsMethod s2 twoMethodsSecond).
  { split; [vm_compute; reflexivity|]. vm_compute. lia. }
  split; [exact H0|]. split; [exact H1|]. split; [exact H2|].
  destruct (C10_second_method_line_keeps_first_query
              s0 ["# two method lines"] twoMethodsFirst twoMethodsSecond
              ["Accept: application/json"] [] H0 Hpre H1 Hmid H2 I)
    as (Hseal & Hm & Hu & Hq & _).
  split; [exact Hseal|].
  split; [etrans; [exact Hm|vm_compute; reflexivity]|].
  split; [etrans; [exact Hu|vm_compute; reflexivity]|].
  etrans; [exact Hq|vm_compute; reflexivity].
Defined.

(** *** Strings *)

Lemma append_cons (c : ascii) (a b : string) :
  String c a +:+ b = String c (a +:+ b).
Proof. reflexivity. Qed.

Lemma append_nil_r (a : string) : a +:+ "" = a.
Proof. induction a as [|c a IH]; [done|]. by rewrite append_cons, IH. Qed.

Lemma append_assoc (a b c : string) : (a +:+ b) +:+ c = a +:+ (b +:+ c).
Proof.
  induction a as [|x a IH]; [done|]. by rewrite !append_cons, IH.
Qed.

Lemma prefix_single (c d : ascii) (r : string) :
  String.prefix (String c "") (String d r) = bool_decide (c = d).
Proof.
  change (String.prefix (String c "") (String d r))
    with (match ascii_dec c d with
          | left _ => String.prefix "" r
          | right _ => false
          end).
  destruct (ascii_dec c d) as [->|Hne].
  - rewrite bool_decide_eq_true_2 by done. by destruct r.
  - by rewrite bool_decide_eq_false_2.
Qed.

Lemma Contains_cons (c : ascii) (r sub : string) :
  Contains (String c r) sub = String.prefix sub (String c r) || Contains r sub.
Proof. reflexivity. Qed.

Lemma splitFirst_cons (sep cur : string) (c : ascii) (r : string) :
  splitFirst sep cur (String c r)
  = if String.prefix sep (String c r)
    then [cur; drop (String.length sep) (String c r)]
    else splitFirst sep (cur +:+ String c "") r.
Proof. reflexivity. Qed.

(** The model of [strings.SplitN(s, ":", 2)] cuts at the first colon. *)
Lemma splitFirst_colon (s cur : string) :
  Contains s ":" = true ->
  exists key value,
    splitFirst ":" cur s = [cur +:+ key; value]
    /\ s = key +:+ ":" +:+ value /\ Contains key ":" = false.
Proof.
  revert cur. induction s as [|c r IH]; intros cur Hc; [discriminate|].
  rewrite Contains_cons, prefix_single in Hc.
  rewrite splitFirst_cons, prefix_single.
  destruct (bool_decide (":"%char = c)) eqn:Hd.
  - apply bool_decide_eq_true in Hd as <-.
    exists "", r. by rewrite append_nil_r.
  - simpl in Hc. destruct (IH (cur +:+ String c "") Hc) as (k & v & E & -> & Hk).
    exists (String c k), v. rewrite E, append_assoc. repeat split.
    by rewrite Contains_cons, prefix_single, Hd, Hk.
Qed.

Lemma SplitN2_colon (s : string) :
  Contains s ":" = true ->
  exists key value,
    SplitN2 s ":" = [key; value]
    /\ s = key +:+ ":" +:+ value /\ Contains key ":" = false.
Proof.
  intros Hc. destruct (splitFirst_colon s "" Hc) as (k & v & E & Hs & Hk).
  by exists k, v.
Qed.

(** *** The precedence of the cases *)

Lemma lineKind_past (s : State) (line : string) :
  pastEarlierCases s line ->
  lineKind s line =
    if Contains line ":" then (if startedJSON s then KJSONColon else KHeader)
    else if HasSuffix line "}" && startedJSON s then KJSONEnd
    else if startedJSON s then KJSONOther else KNone.
Proof.
  intros (H0 & H1 & H2 & H3 & H4 & H5 & H6 & H7 & H8 & H9 & H10).
  unfold lineKind.
  destruct (decide (line = "")); [done|].
  rewrite H1, H2, H3, H4, H5, H6, H7, H8, H9, H10, andb_false_r. simpl.
  by destruct (Contains line ":"), (startedJSON s).
Qed.

Lemma lineKind_KHeader (s : State) (line : string) :
  lineKind s line = KHeader -> startedJSON s = false.
Proof.
  unfold lineKind.
  repeat match goal with
         | |- context [if ?c then _ else _] => destruct c eqn:?; try discriminate
         end.
  intros _. by destruct (startedJSON s), (Contains line ":").
Qed.

Lemma headers_in_body_mode (s : State) (raw : string) :
  startedJSON s = true ->
  headers (processLine s raw) = headers s \/ headers (processLine s raw) = [].
Proof.
  intros Hj. unfold processLine.
  destruct (lineKind s (TrimSpace raw)) eqn:Hk;
    try (apply lineKind_KHeader in Hk; congruence); simpl;
    repeat match goal with
           | |- context [match ?c with Some _ => _ | None => _ end] =>
               destruct c; simpl
           | |- context [if ?c then _ else _] => destruct c; simpl
           | |- context [let (_, _) := ?c in _] => destruct c; simpl
           end; auto.
Qed.

(** C3 (amended). In JSON-body mode no line is ever added to the header
    list, and a line with a colon and without white space at its ends that
    no earlier case of the switch takes (blank, group, name, description,
    local variable, script, separator, comment, method line, opening brace)
    is appended verbatim, followed by a newline, to the body text.  Outside
    JSON-body mode a line with a colon that no earlier case takes is a
    header: it is cut at its first colon and both sides are trimmed. *)
Theorem C3_colon_lines_past_the_earlier_cases (s : State) (raw : string) :
  let line := TrimSpace raw in
  (startedJSON s = true ->
     headers (processLine s raw) = headers s
     \/ headers (processLine s raw) = [])
  /\ (Contains line ":" = true -> pastEarlierCases s line ->
      (startedJSON s = true -> line = raw ->
         processLine s raw = set_data (data s +:+ raw +:+ nl) s)
      /\ (startedJSON s = false ->
          let key := at_ 0 (SplitN2 line ":") in
          let value := at_ 1 (SplitN2 line ":") in
          line = key +:+ ":" +:+ value /\ Contains key ":" = false
          /\ processLine s raw
             = set_headers
                 (headers s ++ [Header.mk (TrimSpace key) (TrimSpace value) "text"])
                 s)).
Proof.
  intros line. split; [apply headers_in_body_mode|].
  intros Hc Hpast. pose proof (lineKind_past s line Hpast) as Hk.
  rewrite Hc in Hk. split; intros Hj; rewrite Hj in Hk.
  - intros Hraw. unfold processLine. fold line. rewrite Hk. by rewrite Hraw.
  - destruct (SplitN2_colon line Hc) as (k & v & E & Hline & Hk').
    rewrite E. simpl. split; [done|]. split; [done|].
    unfold processLine. fold line. by rewrite Hk, E.
Qed.

Lemma C3_colon_lines_past_the_earlier_cases_witness :
  let body := scanLoop initialState openBodySample in
  let fresh := scanLoop initialState ["POST https://api.example.com/users"] in
  data (processLine body "id: 7,") = "{" +:+ nl +:+ "id: 7," +:+ nl
  /\ headers (processLine body "id: 7,") = []
  /\ headers (processLine fresh "Accept : text/plain: x")
     = [Header.mk "Accept" "text/plain: x" "text"].
Proof.
  intros body fresh.
  destruct (C3_colon_lines_past_the_earlier_cases body "id: 7,")
    as [_ Hb].
  destruct (C3_colon_lines_past_the_earlier_cases fresh "Accept : text/plain: x")
    as [_ Hf].
  assert (Hpb : pastEarlierCases body (TrimSpace "id: 7,")).
  { vm_compute. repeat split; discriminate. }
  assert (Hpf : pastEarlierCases fresh (TrimSpace "Accept : text/plain: x")).
  { vm_compute. repeat split; discriminate. }
  destruct (Hb eq_refl Hpb) as [Hbody _].
  destruct (Hf eq_refl Hpf) as [_ Hhead].
  rewrite (Hbody eq_refl eq_refl).
  destruct (Hhead eq_refl) as (_ & _ & ->).
  vm_compute. repeat split.
Defined.

(** A comment line with a colon inside an open JSON body is taken by the
    comment case: it is not appended to the body text, so the first
    sentence of C3 does not hold for every colon line. *)
Lemma C3_comment_line_in_body_counterexample :
  let s := scanLoop initialState openBodySample in
  startedJSON s = true
  /\ Contains "# note: x" ":" = true
  /\ lineKind s (TrimSpace "# note: x") = KComment
  /\ data (processLine s "# note: x") = data s
  /\ ~ C3_every_colon_line_in_body_is_appended.
Proof.
  intros s. do 4 (split; [vm_compute; reflexivity|]).
  intros H.
  assert (Hj : startedJSON s = true) by (vm_compute; reflexivity).
  assert (Hc : Contains "# note: x" ":" = true)
    by (vm_compute; reflexivity).
  destruct (H s "# note: x" Hj Hc) as [Hd _].
  vm_compute in Hd. discriminate.
Qed.

(** *** Lines inside a script block (C9) *)

Lemma scanSetter_blank (rv : gmap string string) : scanSetter "" rv = rv.
Proof. reflexivity. Qed.

Lemma set_requestVariables_id (s : State) :
  set_requestVariables (requestVariables s) s = s.
Proof. by destruct s. Qed.

Lemma set_inRequestScript_id (s : State) (b : bool) :
  inRequestScript s = b -> set_inRequestScript b s = s.
Proof. intros <-. by destruct s. Qed.

Lemma lineKind_in_script (s : State) (line : string) :
  inRequestScript s = true -> Contains line "%}" = false ->
  noAnnotation line ->
  lineKind s line =
    if decide (line = "") then KBlank
    else if HasPrefix line "<" && Contains line "{%" then KScriptStart
    else KInScript.
Proof.
  intros Hs Hc (H1 & H2 & H3 & H4). unfold lineKind.
  by rewrite H1, H2, H3, H4, Hs, Hc.
Qed.

Lemma script_line_leaves_request (s : State) (raw : string) :
  inRequestScript s = true -> Contains (TrimSpace raw) "%}" = false ->
  headers (processLine s raw) = headers s
  /\ body (processLine s raw) = body s
  /\ data (processLine s raw) = data s
  /\ startedJSON (processLine s raw) = startedJSON s
  /\ inRequestScript (processLine s raw) = true.
Proof.
  intros Hs Hc. unfold processLine.
  assert (Hk : forall k, lineKind s (TrimSpace raw) = k ->
                 k = KBlank \/ k = KGroup \/ k = KName \/ k = KDescription
                 \/ k = KLocalVariable \/ k = KScriptStart \/ k = KInScript).
  { intros k <-. unfold lineKind. rewrite Hs, Hc.
    repeat match goal with
           | |- context [if ?c then _ else _] => destruct c; auto 10
           end. }
  destruct (lineKind s (TrimSpace raw)) eqn:E;
    destruct (Hk _ eq_refl) as [?|[?|[?|[?|[?|[?|?]]]]]]; try discriminate;
    simpl; rewrite ?Hc;
    repeat match goal with
           | |- context [match ?c with Some _ => _ | None => _ end] =>
               destruct c; simpl
           | |- context [let (_, _) := ?c in _] => destruct c; simpl
           end; auto.
Qed.

(** C9 (amended). A line read while multi-line script mode is active and
    before the close token is never treated as a header or as body content:
    the headers, the body and the body text stay as they are and script
    mode stays active.  When the line moreover matches none of the
    annotation patterns that the switch tests before the script flag
    (group, name, description, local variable), the only effect of the line
    is to record a match of the variable-setter pattern, if there is one,
    in the variable table of the request. *)
Theorem C9_script_lines_past_the_annotations (s : State) (raw : string) :
  let line := TrimSpace raw in
  inRequestScript s = true -> Contains line "%}" = false ->
  (headers (processLine s raw) = headers s
   /\ body (processLine s raw) = body s
   /\ data (processLine s raw) = data s
   /\ startedJSON (processLine s raw) = startedJSON s
   /\ inRequestScript (processLine s raw) = true)
  /\ (noAnnotation line ->
      processLine s raw
      = set_requestVariables (scanSetter line (requestVariables s)) s).
Proof.
  intros line Hs Hc. split; [by apply script_line_leaves_request|].
  intros Hna. unfold processLine. fold line.
  rewrite (lineKind_in_script s line Hs Hc Hna).
  destruct (decide (line = "")) as [->|_].
  - by rewrite scanSetter_blank, set_requestVariables_id.
  - destruct (HasPrefix line "<" && Contains line "{%"); [|done].
    by rewrite Hc, (set_inRequestScript_id s true Hs).
Qed.

Lemma C9_script_lines_past_the_annotations_witness :
  let s := scanLoop initialState openScriptSample in
  let raw := "  request.variables.set(" +:+ dq +:+ "id" +:+ dq +:+ ", "
             +:+ dq +:+ "42" +:+ dq +:+ ");" in
  inRequestScript s = true
  /\ noAnnotation (TrimSpace raw)
  /\ processLine s raw = set_requestVariables {[ "id" := "42" ]} s.
Proof.
  intros s raw.
  destruct (C9_script_lines_past_the_annotations s raw eq_refl eq_refl)
    as [_ H].
  assert (Hna : noAnnotation (TrimSpace raw)) by (vm_compute; repeat split).
  split; [reflexivity|]. split; [exact Hna|].
  rewrite (H Hna). reflexivity.
Defined.

(** A comment of the script, read in script mode, is taken by the
    description case, which comes first in the switch: it becomes the
    pending description, so C9 as worded does not hold. *)
Lemma C9_comment_in_script_counterexample :
  let s := scanLoop initialState openScriptSample in
  inRequestScript s = true
  /\ Contains (TrimSpace "// set the id") "%}" = false
  /\ currentRequestDescription s = ""
  /\ currentRequestDescription (processLine s "// set the id") = "set the id"
  /\ ~ C9_script_lines_only_record_variables.
Proof.
  intros s. do 4 (split; [vm_compute; reflexivity|]).
  intros H.
  assert (Hs : inRequestScript s = true) by (vm_compute; reflexivity).
  assert (Hc : Contains (TrimSpace "// set the id") "%}" = false)
    by (vm_compute; reflexivity).
  specialize (H s "// set the id" Hs Hc).
  apply (f_equal currentRequestDescription) in H.
  vm_compute in H. discriminate.
Qed.

(** *** The text of a multi-line body (C1) *)

Lemma processLine_trimmed (s : State) (a b : string) :
  TrimSpace a = TrimSpace b -> processLine s a = processLine s b.
Proof. intros H. unfold processLine. by rewrite H. Qed.

Lemma scanLoop_trimmed (xs ys : list string) (s : State) :
  map TrimSpace xs = map TrimSpace ys -> scanLoop s xs = scanLoop s ys.
Proof.
  revert ys s. induction xs as [|x xs IH]; intros [|y ys] s H; try done.
  simpl in H. injection H as Hxy Hrest. simpl.
  rewrite (processLine_trimmed s x y Hxy). by apply IH.
Qed.

(** Two inputs whose lines agree after trimming give the same items: the
    indentation of a line never reaches the document. *)
Lemma items_blind_to_indentation (xs ys : list string) :
  map TrimSpace xs = map TrimSpace ys ->
  buildItems (finalState xs) = buildItems (finalState ys).
Proof.
  intros H. unfold finalState. by rewrite (scanLoop_trimmed xs ys _ H).
Qed.

(** C1 (the code departs from the claim). On the input of the program's
    own test for a multi-line JSON body, the sealed raw body holds the body
    lines without their indentation: it is not the body that the test
    expects, which keeps the two spaces before each member. *)
Theorem C1_body_lines_lose_their_indentation :
  rawBodies (buildItems (finalState postWithJSON))
  = [ "{" +:+ nl
      +:+ dq +:+ "name" +:+ dq +:+ ": " +:+ dq +:+ "John Doe" +:+ dq +:+ "," +:+ nl
      +:+ dq +:+ "email" +:+ dq +:+ ": " +:+ dq +:+ "john@example.com" +:+ dq +:+ nl
      +:+ "}" ]
  /\ map TrimSpace (rawBodies (buildItems (finalState postWithJSON)))
     <> [TrimSpace expectedBody].
Proof.
  split; [vm_compute; reflexivity|]. vm_compute. discriminate.
Qed.

(** *** Query parameters (C5) *)

Lemma splitGo_cons (sep cur : string) (c : ascii) (r : string) :
  splitGo sep 0 cur (String c r)
  = if String.prefix sep (String c r)
    then cur :: splitGo sep (String.length sep - 1) "" r
    else splitGo sep 0 (cur +:+ String c "") r.
Proof. reflexivity. Qed.

Lemma splitGo_equals (key cur rest : string) :
  Contains key "=" = false ->
  splitGo "=" 0 cur (key +:+ "=" +:+ rest)
  = (cur +:+ key) :: splitGo "=" 0 "" rest.
Proof.
  revert cur. induction key as [|c k IH]; intros cur Hk.
  - change ("" +:+ "=" +:+ rest) with (String "="%char rest).
    rewrite splitGo_cons, prefix_single, bool_decide_eq_true_2 by done.
    by rewrite append_nil_r.
  - rewrite Contains_cons, prefix_single in Hk.
    apply orb_false_iff in Hk as [Hc Hk].
    rewrite append_cons, splitGo_cons, prefix_single, Hc, IH by done.
    by rewrite append_assoc.
Qed.

(** A pair [key=v1=v2] gives the value [v1]: what follows the second [=]
    is dropped. *)
Lemma addParam_two_equals (q : list QueryParam.t) (key v1 v2 : string) :
  Contains key "=" = false -> Contains v1 "=" = false ->
  addParam q (key +:+ "=" +:+ v1 +:+ "=" +:+ v2)
  = q ++ [QueryParam.mk (TrimSpace key) (TrimSpace v1)].
Proof.
  intros Hk Hv. unfold addParam.
  assert (Contains (key +:+ "=" +:+ v1 +:+ "=" +:+ v2) "=" = true) as ->.
  { clear Hk. induction key as [|c k IH].
    - change ("" +:+ "=" +:+ v1 +:+ "=" +:+ v2)
        with (String "="%char (v1 +:+ "=" +:+ v2)).
      by rewrite Contains_cons, prefix_single, bool_decide_eq_true_2.
    - by rewrite append_cons, Contains_cons, IH, orb_true_r. }
  unfold Split. rewrite (splitGo_equals key "" _ Hk), (splitGo_equals v1 "" _ Hv).
  reflexivity.
Qed.

(** C5 (the code departs from the claim). The query string of the claim
    parses as the claim says and pairs without [=] are skipped, but a pair
    is cut at every [=], not at the first one: [a=b=c] gives the value [b],
    not [b=c]. *)
Theorem C5_query_value_is_cut_at_second_equals :
  queryOf "GET https://api.example.com/users?page=1&limit=10&sort=name"
  = [QueryParam.mk "page" "1"; QueryParam.mk "limit" "10";
     QueryParam.mk "sort" "name"]
  /\ queryOf "GET https://api.example.com/users?flag&page=1"
     = [QueryParam.mk "page" "1"]
  /\ queryOf "GET https://api.example.com/users?a=b=c" = [QueryParam.mk "a" "b"]
  /\ map (fun it => URL.Query (Request.URL (Item.Request it)))
         (buildItems (finalState ["GET https://api.example.com/users?a=b=c"]))
     = [[QueryParam.mk "a" "b"]].
Proof. repeat split; vm_compute; reflexivity. Qed.

(** *** Variable references and the environment file (C2) *)

Lemma prefix_cons (a b : ascii) (p s : string) :
  String.prefix (String a p) (String b s)
  = if ascii_dec a b then String.prefix p s else false.
Proof. reflexivity. Qed.

Lemma drop_cons (n : nat) (c : ascii) (s : string) :
  drop (S n) (String c s) = drop n s.
Proof. reflexivity. Qed.

Lemma prefix_app_drop (p s : string) :
  String.prefix p s = true -> s = p +:+ drop (String.length p) s.
Proof.
  revert s. induction p as [|a p IH]; intros s H.
  - by destruct s.
  - destruct s as [|b s]; [discriminate|].
    rewrite prefix_cons in H. destruct (ascii_dec a b) as [->|]; [|discriminate].
    change (String.length (String b p)) with (S (String.length p)).
    rewrite drop_cons, append_cons. f_equal. by apply IH.
Qed.

Lemma prefix_app (p s : string) : String.prefix p (p +:+ s) = true.
Proof.
  induction p as [|a p IH]; [by destruct s|].
  rewrite append_cons, prefix_cons. by destruct (ascii_dec a a).
Qed.

Lemma drop_app (p s : string) : drop (String.length p) (p +:+ s) = s.
Proof.
  induction p as [|a p IH]; [by destruct s|].
  change (String.length (String a p)) with (S (String.length p)).
  by rewrite append_cons, drop_cons.
Qed.

Lemma span_cons (p : ascii -> bool) (c : ascii) (r : string) :
  span p (String c r)
  = if p c then (String c (span p r).1, (span p r).2) else ("", String c r).
Proof. simpl. destruct (p c); [|done]. by destruct (span p r). Qed.

Lemma span_spec (p : ascii -> bool) (s : string) :
  s = (span p s).1 +:+ (span p s).2 /\ allBytes p (span p s).1 = true.
Proof.
  induction s as [|c r [IH1 IH2]]; [done|].
  rewrite span_cons. destruct (p c) eqn:Hc; [|done].
  simpl. rewrite append_cons, <- IH1, Hc, IH2. done.
Qed.

Lemma span_app_stop (p : ascii -> bool) (w : string) (c : ascii) (r : string) :
  allBytes p w = true -> p c = false ->
  span p (w +:+ String c r) = (w, String c r).
Proof.
  intros Hw Hc. induction w as [|a w IH].
  - change ("" +:+ String c r) with (String c r). by rewrite span_cons, Hc.
  - simpl in Hw. apply andb_true_iff in Hw as [Ha Hw].
    by rewrite append_cons, span_cons, Ha, (IH Hw).
Qed.

Lemma varAt_Some (t w rest : string) :
  varAt t = Some (w, rest) ->
  t = "{{" +:+ w +:+ "}}" +:+ rest /\ w <> "" /\ allBytes isWord w = true.
Proof.
  unfold varAt. destruct (String.prefix "{{" t) eqn:Hp; [|discriminate].
  apply prefix_app_drop in Hp. change (String.length "{{") with 2 in Hp.
  remember (drop 2 t) as x eqn:Hx. clear Hx.
  destruct (span_spec isWord x) as [Hs Hw].
  destruct (span isWord x) as [w' r]. cbn [fst snd] in Hs, Hw.
  destruct w' as [|a w']; [discriminate|].
  destruct (String.prefix "}}" r) eqn:Hq; [|discriminate].
  apply prefix_app_drop in Hq. change (String.length "}}") with 2 in Hq.
  remember (drop 2 r) as y eqn:Hy. clear Hy.
  intros [= <- <-]. split; [|done]. by rewrite Hp, Hs, Hq.
Qed.

Lemma varAt_reference (name post : string) :
  name <> "" -> allBytes isWord name = true ->
  varAt ("{{" +:+ name +:+ "}}" +:+ post) = Some (name, post).
Proof.
  intros Hne Hw. unfold varAt. rewrite prefix_app.
  change 2 with (String.length "{{") at 1. rewrite drop_app.
  change ("}}" +:+ post) with (String "}"%char (String "}"%char post)).
  rewrite (span_app_stop isWord name "}"%char _ Hw eq_refl).
  destruct name; [done|].
  change (String "}"%char (String "}"%char post)) with ("}}" +:+ post).
  rewrite prefix_app. change 2 with (String.length "}}"). by rewrite drop_app.
Qed.

Lemma varRegex_FindAll_cons (skip : nat) (c : ascii) (r : string) :
  varRegex_FindAll skip (String c r)
  = match skip with
    | S k => varRegex_FindAll k r
    | 0 =>
      match varAt (String c r) with
      | Some (w, _) => w :: varRegex_FindAll (String.length w + 3) r
      | None => varRegex_FindAll 0 r
      end
    end.
Proof. reflexivity. Qed.

(** Every name that the scan reports is referred to in the text. *)
Lemma varRegex_FindAll_sound (s : string) (skip : nat) (name : string) :
  name ∈ varRegex_FindAll skip s -> refersTo s name.
Proof.
  revert skip. induction s as [|c r IH]; intros skip Hin.
  - by apply elem_of_nil in Hin.
  - rewrite varRegex_FindAll_cons in Hin.
    assert (Hlift : refersTo r name -> refersTo (String c r) name).
    { intros (Hne & Hw & pre & post & ->). split; [done|]. split; [done|].
      by exists (String c pre), post. }
    destruct skip as [|k]; [|by eauto].
    destruct (varAt (String c r)) as [[w rest]|] eqn:Hv; [|by eauto].
    apply elem_of_cons in Hin as [->|Hin]; [|by eauto].
    apply varAt_Some in Hv as (Ht & Hne & Hw).
    split; [done|]. split; [done|]. by exists "", rest.
Qed.

(** A text with a reference makes the scan report at least one name. *)
Lemma varRegex_FindAll_complete (pre name post : string) :
  name <> "" -> allBytes isWord name = true ->
  varRegex_FindAll 0 (pre +:+ "{{" +:+ name +:+ "}}" +:+ post) <> [].
Proof.
  intros Hne Hw. induction pre as [|c pre IH].
  - change ("" +:+ "{{" +:+ name +:+ "}}" +:+ post)
      with (String "{"%char (String "{"%char (name +:+ "}}" +:+ post))).
    rewrite varRegex_FindAll_cons.
    change (String "{"%char (String "{"%char (name +:+ "}}" +:+ post)))
      with ("{{" +:+ name +:+ "}}" +:+ post).
    by rewrite (varAt_reference name post Hne Hw).
  - rewrite append_cons, varRegex_FindAll_cons.
    by destruct (varAt _) as [[w rest]|].
Qed.

Lemma detectVariables_reference (text : string) :
  detectVariables text <> [] <-> hasVariableReference text.
Proof.
  unfold detectVariables. split.
  - destruct (varRegex_FindAll 0 text) as [|name names] eqn:E; [done|].
    intros _. exists name. apply (varRegex_FindAll_sound text 0).
    rewrite E. by left.
  - intros (name & Hne & Hw & pre & post & ->).
    by apply varRegex_FindAll_complete.
Qed.

(** C2. With an input that can be opened, the conversion returns the error
    that lists the variables, before anything is written, exactly when the
    text of the input holds at least one [{{name}}] reference and the
    environment file cannot be loaded; the names the error lists are the
    ones referred to in the text.  When the text holds no reference, the
    result of loading the environment file does not matter: the run ends
    as it does with an environment that loads. *)
Theorem C2_variables_need_the_environment (w : World) (lines : list string) :
  inputFile w = Some lines ->
  let text := fileContent lines in
  ((exists names envErr,
      convertHTTPToPostman w = Aborted (VariablesWithoutEnv names envErr))
   <-> (hasVariableReference text /\ exists envErr, envLoad w = inr envErr))
  /\ (forall names envErr,
        convertHTTPToPostman w = Aborted (VariablesWithoutEnv names envErr) ->
        names = detectVariables text /\ envLoad w = inr envErr
        /\ names <> [] /\ Forall (refersTo text) names)
  /\ (~ hasVariableReference text ->
        convertHTTPToPostman w = convertHTTPToPostman (withEmptyEnvironment w)).
Proof.
  intros Hin text. unfold convertHTTPToPostman. simpl. rewrite Hin.
  pose proof (detectVariables_reference text) as Hiff. fold text.
  assert (Hsound : Forall (refersTo text) (detectVariables text)).
  { apply Forall_forall. intros name. apply varRegex_FindAll_sound. }
  destruct (detectVariables text) as [|n ns] eqn:Hd.
  - split; [|split].
    + split.
      * intros (names & e & H). destruct (envLoad w), (scannerErr w); discriminate.
      * intros [Href _]. by apply Hiff in Href.
    + intros names e H. destruct (envLoad w), (scannerErr w); discriminate.
    + intros _. by destruct (envLoad w).
  - split; [|split].
    + split.
      * intros (names & e & H). split; [by apply Hiff|].
        destruct (envLoad w) as [env|e']; [|by eauto].
        destruct (scannerErr w); discriminate.
      * intros [_ [e He]]. rewrite He. by eauto.
    + intros names e H. destruct (envLoad w) as [env|e'].
      * destruct (scannerErr w); discriminate.
      * by injection H as <- <-.
    + intros Hno. exfalso. apply Hno, Hiff. done.
Qed.

Lemma C2_variables_need_the_environment_witness :
  inputFile tokenWorld = Some tokenSample
  /\ convertHTTPToPostman tokenWorld
     = Aborted (VariablesWithoutEnv ["token"]
                  "open http-client.env.json: no such file")
  /\ hasVariableReference (fileContent tokenSample).
Proof.
  destruct (C2_variables_need_the_environment tokenWorld tokenSample eq_refl)
    as [[Hfwd _] _].
  split; [reflexivity|]. split; [vm_compute; reflexivity|].
  apply Hfwd. eexists _, _. vm_compute. reflexivity.
Defined.

(** *** Two runs on the same files (C6) *)

Lemma fairRange_mapOrder : fairRange mapOrder.
Proof. intros m. reflexivity. Qed.

Lemma fairRange_reverseOrder : fairRange reverseOrder.
Proof. intros m. apply reverse_Permutation. Qed.

Lemma localLoop_leftover (entries : list (string * string))
    (uniqueVars : gmap string bool) (acc : list Variable_.t) :
  localLoop entries uniqueVars acc = acc ++ leftover uniqueVars entries.
Proof.
  unfold localLoop, leftover. revert acc.
  induction entries as [|kv entries IH]; intros acc; simpl.
  - by rewrite app_nil_r.
  - rewrite filter_cons. destruct (seen uniqueVars kv.1) eqn:Hs.
    + rewrite decide_False by done. apply IH.
    + rewrite decide_True by done. rewrite IH. simpl.
      by rewrite <- app_assoc.
Qed.

Lemma leftover_Permutation (uniqueVars : gmap string bool)
    (xs ys : list (string * string)) :
  xs ≡ₚ ys -> leftover uniqueVars xs ≡ₚ leftover uniqueVars ys.
Proof. intros H. unfold leftover. by rewrite H. Qed.

(** Whatever the two orders of the [range] over the local variables, two
    documents assembled from the same state hold the same items and the
    same entries for the detected variables; the entries that follow are
    those of the other local variables, in the order of the [range]. *)
Lemma assemble_orders (env : option Environment) (allVariables : list string)
    (o1 o2 : gmap string string -> list (string * string))
    (t1 t2 : string) (s : State) :
  fairRange o1 -> fairRange o2 ->
  let d1 := assemble env allVariables o1 t1 s in
  let d2 := assemble env allVariables o2 t2 s in
  let dl := detectedLoop env "dev" (localVariables s) allVariables ∅ [] in
  Collection.Items d1 = Collection.Items d2
  /\ Info.Schema (Collection.Info d1) = Info.Schema (Collection.Info d2)
  /\ (t1 = t2 -> Collection.Info d1 = Collection.Info d2)
  /\ Collection.Variable_ d1
     = snd dl ++ leftover (fst dl) (o1 (localVariables s))
  /\ Collection.Variable_ d2
     = snd dl ++ leftover (fst dl) (o2 (localVariables s))
  /\ leftover (fst dl) (o1 (localVariables s))
     ≡ₚ leftover (fst dl) (o2 (localVariables s)).
Proof.
  intros H1 H2. simpl. repeat split; [by intros ->| | |].
  - apply localLoop_leftover.
  - apply localLoop_leftover.
  - apply leftover_Permutation. by rewrite (H1 _), (H2 _).
Qed.

(** C6 (the code departs from the claim). Two runs on the same input
    file, with the same environment and the same clock, differ by nothing
    but the order in which the runtime ranges over the map of the local
    variables, which Go leaves open.  With the two local variables [host]
    and [port], which the text never refers to, one run writes the
    variable entries in the order [host], [port] and the other in the
    order [port], [host]: the two documents are not identical. *)
Theorem C6_two_runs_order_local_variables_differently :
  let w1 := twoLocalsWorld mapOrder "20240101000000" in
  let w2 := twoLocalsWorld reverseOrder "20240101000000" in
  let d1 := document twoLocalsSample ∅ mapOrder "20240101000000" in
  let d2 := document twoLocalsSample ∅ reverseOrder "20240101000000" in
  sameFiles w1 w2 /\ today w1 = today w2
  /\ fairRange (rangeOrder w1) /\ fairRange (rangeOrder w2)
  /\ convertHTTPToPostman w1 = Written d1 None
  /\ convertHTTPToPostman w2 = Written d2 None
  /\ Collection.Info d1 = Collection.Info d2
  /\ Collection.Items d1 = Collection.Items d2
  /\ map Variable_.Key (Collection.Variable_ d1) = ["host"; "port"]
  /\ map Variable_.Key (Collection.Variable_ d2) = ["port"; "host"]
  /\ d1 <> d2
  /\ ~ C6_two_runs_write_the_same_variables.
Proof.
  intros w1 w2 d1 d2.
  assert (Hs : sameFiles w1 w2).
  { split; [reflexivity|]. split; [reflexivity|]. split; reflexivity. }
  assert (E1 : convertHTTPToPostman w1 = Written d1 None)
    by (vm_compute; reflexivity).
  assert (E2 : convertHTTPToPostman w2 = Written d2 None)
    by (vm_compute; reflexivity).
  assert (K1 : map Variable_.Key (Collection.Variable_ d1) = ["host"; "port"])
    by (vm_compute; reflexivity).
  assert (K2 : map Variable_.Key (Collection.Variable_ d2) = ["port"; "host"])
    by (vm_compute; reflexivity).
  split; [exact Hs|]. split; [reflexivity|].
  split; [exact fairRange_mapOrder|]. split; [exact fairRange_reverseOrder|].
  split; [exact E1|]. split; [exact E2|].
  split; [vm_compute; reflexivity|]. split; [vm_compute; reflexivity|].
  split; [exact K1|]. split; [exact K2|].
  split.
  - intros E. rewrite E, K2 in K1. clear E. discriminate K1.
  - intros H.
    destruct (H _ _ _ _ _ _ Hs fairRange_mapOrder fairRange_reverseOrder E1 E2)
      as [_ Hv].
    rewrite Hv, K2 in K1. clear Hv. discriminate K1.
Qed.

(** *** The name of a request (C7) *)

Lemma NS_sealAtSeparator_count (s : NamedSeparators.State) :
  NamedSeparators.count (NamedSeparators.sealAtSeparator s)
  = NamedSeparators.count s.
Proof.
  unfold NamedSeparators.sealAtSeparator. by destruct (negb _ && negb _).
Qed.

Lemma NS_separator_sets_name (env : option Environment)
    (s : NamedSeparators.State) (sep : string) :
  NamedSeparators.lineKind s (TrimSpace sep) = NamedSeparators.KSeparator ->
  NamedSeparators.Item.Name
    (NamedSeparators.item (NamedSeparators.processLine env "dev" s sep))
  = separatorName s sep.
Proof.
  intros Hk. unfold NamedSeparators.processLine, separatorName, trailingText.
  rewrite Hk. simpl. rewrite NS_sealAtSeparator_count.
  by destruct (decide _).
Qed.

Lemma separatorName_nonempty (s : NamedSeparators.State) (sep : string) :
  separatorName s sep <> "".
Proof. unfold separatorName. by destruct (decide _). Qed.

Lemma NS_name_kept (env : option Environment) (s : NamedSeparators.State)
    (raw : string) :
  NamedSeparators.lineKind s (TrimSpace raw) <> NamedSeparators.KSeparator ->
  NamedSeparators.Item.Name (NamedSeparators.item s) <> "" ->
  NamedSeparators.Item.Name
    (NamedSeparators.item (NamedSeparators.processLine env "dev" s raw))
  = NamedSeparators.Item.Name (NamedSeparators.item s).
Proof.
  intros Hk Hn. unfold NamedSeparators.processLine.
  destruct (NamedSeparators.lineKind s (TrimSpace raw)); try done; simpl;
    repeat match goal with
           | |- context [if ?c then _ else _] => destruct c; simpl
           end; done.
Qed.

Lemma NS_block_keeps_name (env : option Environment) (block : list string)
    (s : NamedSeparators.State) :
  noSeparatorNS env s block ->
  NamedSeparators.Item.Name (NamedSeparators.item s) <> "" ->
  NamedSeparators.Item.Name
    (NamedSeparators.item (NamedSeparators.scanLoop env "dev" s block))
  = NamedSeparators.Item.Name (NamedSeparators.item s).
Proof.
  revert s. induction block as [|l ls IH]; intros s; simpl; [done|].
  intros [Hk Hrest] Hn.
  pose proof (NS_name_kept env s l Hk Hn) as E.
  unfold NamedSeparators.scanLoop in *. rewrite IH; [done|done|by rewrite E].
Qed.

Lemma NS_sealAtEOF_item (s : NamedSeparators.State) :
  sealableNS s ->
  exists it,
    NamedSeparators.items (NamedSeparators.sealAtEOF s)
    = NamedSeparators.items s ++ [it]
    /\ NamedSeparators.Item.Name it
       = NamedSeparators.Item.Name (NamedSeparators.item s)
    /\ NamedSeparators.Request.Method (NamedSeparators.Item.Request it)
       = NamedSeparators.Request.Method (NamedSeparators.req s).
Proof.
  intros [Hm Hu]. unfold NamedSeparators.sealAtEOF.
  rewrite (bool_decide_empty_false _ Hm), (bool_decide_empty_false _ Hu).
  simpl. by eexists.
Qed.

Lemma lineKind_KSeparator_outside_script (s : State) (line : string) :
  lineKind s line = KSeparator -> inRequestScript s = false.
Proof.
  intros Hk. unfold lineKind in Hk.
  repeat match type of Hk with
         | (if ?c then _ else _) = _ => destruct c eqn:?; try discriminate
         end.
  reflexivity.
Qed.

Lemma lineKind_KSeparator_resets (s : State) (raw : string) :
  lineKind s (TrimSpace raw) = KSeparator ->
  processLine s raw
  = set_currentRequestDescription "" (resetRequest (sealAtSeparator s)).
Proof. intros Hk. unfold processLine. by rewrite Hk. Qed.

(** A line that is a name annotation is taken by the name case in every
    state, and the word it gives is not empty. *)
Lemma nameRegex_Find_kind (s : State) (line m : string) :
  nameRegex_Find line = Some m -> lineKind s line = KName /\ m <> "".
Proof.
  intros H. assert (Hm : m <> "").
  { unfold nameRegex_Find in H.
    destruct (String.prefix "#" line); [|discriminate].
    destruct (span isReSpace (drop 1 line)) as [ws0 r].
    destruct (String.prefix "@name" r); [|discriminate].
    destruct (span isReSpace (drop 5 r)) as [ws r1].
    destruct (span isWord r1) as [w r2].
    destruct ws, w, r2; try discriminate. by injection H as <-. }
  split; [|exact Hm].
  assert (Hne : line <> "") by (intros ->; discriminate).
  assert (Hg : groupRegex_Find line = None).
  { unfold nameRegex_Find in H. unfold groupRegex_Find.
    destruct (String.prefix "#" line); [|done].
    destruct (span isReSpace (drop 1 line)) as [ws0 r].
    destruct (String.prefix "@name" r) eqn:Hp; [|discriminate].
    apply prefix_app_drop in Hp. rewrite Hp. reflexivity. }
  unfold lineKind. rewrite decide_False by done. by rewrite Hg, H.
Qed.

Lemma processLine_name (s : State) (raw m : string) :
  nameRegex_Find (TrimSpace raw) = Some m ->
  processLine s raw = set_currentRequestName m s.
Proof.
  intros H. destruct (nameRegex_Find_kind s _ _ H) as [Hk _].
  unfold processLine. by rewrite Hk, H.
Qed.

(** A line that is neither a name annotation nor a separator leaves the
    pending name and the counter of generated names alone. *)
Lemma processLine_keeps_name (s : State) (raw : string) :
  nameRegex_Find (TrimSpace raw) = None ->
  lineKind s (TrimSpace raw) <> KSeparator ->
  currentRequestName (processLine s raw) = currentRequestName s
  /\ count (processLine s raw) = count s.
Proof.
  intros Hn Hsep. unfold processLine.
  destruct (lineKind s (TrimSpace raw)); try done; simpl;
    rewrite ?Hn;
    repeat match goal with
           | |- context [match ?c with Some _ => _ | None => _ end] =>
               destruct c; simpl
           | |- context [if ?c then _ else _] => destruct c; simpl
           | |- context [let (_, _) := ?c in _] => destruct c; simpl
           end; done.
Qed.

Lemma annotatedName_snoc (block : list string) (raw : string) :
  annotatedName (block ++ [raw])
  = match nameRegex_Find (TrimSpace raw) with
    | Some m => Some m
    | None => annotatedName block
    end.
Proof.
  unfold annotatedName. rewrite omap_app. simpl.
  destruct (nameRegex_Find (TrimSpace raw)) as [m|].
  - by rewrite last_snoc.
  - by rewrite app_nil_r.
Qed.

Lemma noSeparator_snoc (block : list string) (raw : string) (s : State) :
  noSeparator s (block ++ [raw]) ->
  noSeparator s block
  /\ lineKind (scanLoop s block) (TrimSpace raw) <> KSeparator.
Proof.
  revert s. induction block as [|l ls IH]; intros s; simpl.
  - by intros [H _].
  - intros [Hl Hrest]. destruct (IH _ Hrest) as [H1 H2]. by repeat split.
Qed.

Lemma annotatedName_nonempty (block : list string) (w : string) :
  annotatedName block = Some w -> w <> "".
Proof.
  induction block as [|raw block IH] using rev_ind; [done|].
  rewrite annotatedName_snoc.
  destruct (nameRegex_Find (TrimSpace raw)) as [m|] eqn:Hm; [|done].
  intros [= <-]. by destruct (nameRegex_Find_kind initialState _ _ Hm).
Qed.

(** Within a block the pending name is the word of the last name
    annotation read so far, and the counter stands still. *)
Lemma scanLoop_annotatedName (block : list string) (s0 : State) :
  noSeparator s0 block ->
  currentRequestName (scanLoop s0 block)
  = default (currentRequestName s0) (annotatedName block)
  /\ count (scanLoop s0 block) = count s0.
Proof.
  induction block as [|raw block IH] using rev_ind; [done|].
  intros Hns. apply noSeparator_snoc in Hns as [Hns Hraw].
  destruct (IH Hns) as [En Ec].
  unfold scanLoop. rewrite foldl_app. simpl. fold (scanLoop s0 block).
  rewrite annotatedName_snoc.
  destruct (nameRegex_Find (TrimSpace raw)) as [m|] eqn:Hm.
  - by rewrite (processLine_name _ raw m Hm).
  - destruct (processLine_keeps_name _ raw Hm Hraw) as [Fn Fc].
    by rewrite Fn, Fc.
Qed.

(** C7 (amended). In the listing of [http_to_postman.go] that reads
    separator names, the text that follows the marker on a separator line
    is the name of the request sealed from the block that follows, and a
    separator line without such text gives that request the generated name
    [request-N].  In the group-aware listing the text after the marker is
    dropped: the separator leaves no pending name.  There the request
    sealed from a block (the lines from the start of the input or from a
    separator line on, without a further separator) is named by the last
    [# @name] annotation among the lines of the block, and without such a
    line it gets the generated name [request-N], where [N] is one more
    than the counter at the start of the block; the sealed request joins
    the items, or the current group. *)
Theorem C7_request_names (env : option Environment) :
  (forall (s : NamedSeparators.State) (sep : string) (block : list string),
     NamedSeparators.lineKind s (TrimSpace sep) = NamedSeparators.KSeparator ->
     noSeparatorNS env (NamedSeparators.processLine env "dev" s sep) block ->
     let s' := NamedSeparators.scanLoop env "dev"
                 (NamedSeparators.processLine env "dev" s sep) block in
     NamedSeparators.Item.Name (NamedSeparators.item s') = separatorName s sep
     /\ NamedSeparators.sealAtSeparator s' = NamedSeparators.sealAtEOF s'
     /\ (sealableNS s' ->
         exists it,
           NamedSeparators.items (NamedSeparators.sealAtEOF s')
           = NamedSeparators.items s' ++ [it]
           /\ NamedSeparators.Item.Name it = separatorName s sep))
  /\ (forall (s : State) (sep : string),
        lineKind s (TrimSpace sep) = KSeparator ->
        processLine s sep = processLine s "###"
        /\ currentRequestName (processLine s sep) = "")
  /\ (forall (s0 : State) (block : list string),
        blockStart s0 -> noSeparator s0 block ->
        let s' := scanLoop s0 block in
        currentRequestName s' = default "" (annotatedName block)
        /\ (sealable s' ->
            Item.Name (sealedItem s')
            = match annotatedName block with
              | Some w => w
              | None => "request-" +:+ pretty (count s0 + 1)%N
              end))
  /\ (forall s : State,
        sealable s ->
        Item.Name (sealedItem s)
        = (if decide (currentRequestName s = "")
           then "request-" +:+ pretty (count s + 1)%N
           else currentRequestName s)
        /\ sealAtEOF s = sealAtSeparator s
        /\ (hasGroupSeparators s = false ->
            allItems (sealAtSeparator s) = allItems s ++ [sealedItem s])
        /\ (forall g, hasGroupSeparators s = true -> currentGroup s = Some g ->
              currentGroup (sealAtSeparator s)
              = Some (Group.mk (Group.Name g)
                               (Group.Items g ++ [sealedItem s])))).
Proof.
  split; [|split; [|split]].
  - intros s sep block Hk Hblock s'.
    assert (Hname : NamedSeparators.Item.Name (NamedSeparators.item s')
                    = separatorName s sep).
    { unfold s'. rewrite NS_block_keeps_name; [|done|].
      - by apply NS_separator_sets_name.
      - rewrite NS_separator_sets_name by done. apply separatorName_nonempty. }
    split; [done|]. split; [reflexivity|]. intros Hs.
    destruct (NS_sealAtEOF_item s' Hs) as (it & Hi & Hn & _).
    exists it. by rewrite Hn.
  - intros s sep Hk. rewrite (lineKind_KSeparator_resets s sep Hk).
    split; [|done]. symmetry. apply processLine_bare_separator.
    by apply (lineKind_KSeparator_outside_script s (TrimSpace sep)).
  - intros s0 block H0 Hns s'.
    destruct (blockStart_fresh s0 H0) as (_ & _ & _ & Hn0).
    destruct (scanLoop_annotatedName block s0 Hns) as [En Ec].
    fold s' in En, Ec. rewrite Hn0 in En. split; [exact En|].
    intros _. simpl. rewrite En, Ec.
    destruct (annotatedName block) as [w|] eqn:Ha; simpl.
    + rewrite decide_False; [done|]. by apply (annotatedName_nonempty block).
    + reflexivity.
  - intros s Hs. split; [done|]. split; [apply sealAtEOF_sealAtSeparator|].
    rewrite <- sealAtEOF_sealAtSeparator, (sealAtEOF_sealable s Hs).
    split; [intros Hflat; by rewrite Hflat|].
    intros g Hgrp Hcur. by rewrite Hgrp, Hcur.
Qed.

Lemma C7_request_names_witness :
  let ns := NamedSeparators.scanLoop (Some ∅) "dev"
              (NamedSeparators.processLine (Some ∅) "dev"
                 NamedSeparators.initialState "### Get users") namedSample in
  let s0 := processLine initialState "### Get users" in
  let s := scanLoop s0 annotatedSample in
  let t := scanLoop s0 namedSample in
  NamedSeparators.Item.Name (NamedSeparators.item ns) = "Get users"
  /\ sealableNS ns
  /\ map NamedSeparators.Item.Name
         (NamedSeparators.items (NamedSeparators.sealAtEOF ns)) = ["Get users"]
  /\ currentRequestName s0 = ""
  /\ blockStart s0
  /\ sealable s /\ Item.Name (sealedItem s) = "getUsers"
  /\ sealable t /\ Item.Name (sealedItem t) = "request-1".
Proof.
  intros ns s0 s t.
  destruct (C7_request_names (Some ∅)) as (Hns & Hsep & Hblock & _).
  assert (Hk : NamedSeparators.lineKind NamedSeparators.initialState
                 (TrimSpace "### Get users") = NamedSeparators.KSeparator)
    by (vm_compute; reflexivity).
  assert (Hb : noSeparatorNS (Some ∅)
                 (NamedSeparators.processLine (Some ∅) "dev"
                    NamedSeparators.initialState "### Get users") namedSample)
    by (vm_compute; repeat split; discriminate).
  destruct (Hns NamedSeparators.initialState "### Get users" namedSample Hk Hb)
    as (Hn & _ & Hitems).
  assert (Hs : sealableNS ns) by (vm_compute; split; discriminate).
  split; [exact Hn|]. split; [exact Hs|].
  split; [vm_compute; reflexivity|].
  split; [exact (proj2 (Hsep initialState "### Get users" eq_refl))|].
  assert (H0 : blockStart s0).
  { right. exists initialState, "### Get users". split; reflexivity. }
  split; [exact H0|].
  assert (N1 : noSeparator s0 annotatedSample)
    by (vm_compute; repeat split; discriminate).
  assert (N2 : noSeparator s0 namedSample)
    by (vm_compute; repeat split; discriminate).
  assert (S1 : sealable s) by (vm_compute; split; discriminate).
  assert (S2 : sealable t) by (vm_compute; split; discriminate).
  split; [exact S1|].
  split; [exact (eq_trans (proj2 (Hblock s0 annotatedSample H0 N1) S1) eq_refl)|].
  split; [exact S2|].
  exact (eq_trans (proj2 (Hblock s0 namedSample H0 N2) S2) eq_refl).
Defined.

(** In the group-aware program a request that follows the separator line
    [### Get users] is sealed under the generated name. *)
Lemma C7_separator_text_dropped_counterexample :
  lineKind initialState (TrimSpace "### Get users") = KSeparator
  /\ trailingText "### Get users" = "Get users"
  /\ map Item.Name (buildItems (finalState ("### Get users" :: namedSample)))
     = ["request-1"]
  /\ ~ C7_separator_text_names_the_next_request.
Proof.
  do 3 (split; [vm_compute; reflexivity|]).
  intros H.
  assert (Hk : lineKind initialState (TrimSpace "### Get users") = KSeparator)
    by (vm_compute; reflexivity).
  specialize (H initialState "### Get users" namedSample Hk).
  assert (Hne : trailingText "### Get users" <> "") by (vm_compute; discriminate).
  assert (Hb : noSeparator (processLine initialState "### Get users") namedSample)
    by (vm_compute; repeat split; discriminate).
  assert (Hs : sealable (scanLoop (processLine initialState "### Get users")
                                  namedSample))
    by (vm_compute; split; discriminate).
  specialize (H Hne Hb Hs). vm_compute in H. discriminate.
Qed.

(** ** Part 6: further properties of the parser *)

(** *** What the loop seals *)

Lemma sprintfRequest_nonempty (n : N) : sprintfRequest n <> "".
Proof. done. Qed.

Lemma sealAtSeparator_sealedState (s : State) :
  sealedState s -> sealedState (sealAtSeparator s).
Proof.
  intros (Hall & Hgs & Hcur & Hit). rewrite <- sealAtEOF_sealAtSeparator.
  unfold sealAtEOF.
  destruct (bool_decide (Request.Method (req s) = "")) eqn:Hm; [done|].
  destruct (bool_decide (URL.Raw (url s) = "")) eqn:Hu; [done|].
  apply bool_decide_eq_false in Hm, Hu. simpl.
  match goal with
  | |- context [set_item ?it _] =>
      assert (Hws : wellSealed it);
      [ repeat split; simpl; try done;
        destruct (decide (currentRequestName s = "")); done |]
  end.
  destruct (hasGroupSeparators s), (currentGroup s) as [g|] eqn:Hg;
    repeat split; simpl; try done;
    try (apply Forall_app; split; [done|by constructor]);
    try (intros g' [= <-]; simpl; apply Forall_app; split;
         [by apply Hcur|by constructor]);
    intros g' Hg'; rewrite Hg in Hg'; simplify_eq; by apply Hcur.
Qed.

Lemma processLine_sealedState (s : State) (raw : string) :
  sealedState s -> sealedState (processLine s raw).
Proof.
  intros Hs. unfold processLine.
  destruct (lineKind s (TrimSpace raw)); try done;
    try (destruct Hs as (Hall & Hgs & Hcur & Hit);
         repeat match goal with
                | |- context [match ?c with Some _ => _ | None => _ end] =>
                    destruct c eqn:?
                | |- context [if ?c then _ else _] => destruct c eqn:?
                | |- context [let (_, _) := ?c in _] => destruct c
                end; by repeat split).
  - (* group declaration *)
    destruct Hs as (Hall & Hgs & Hcur & Hit).
    destruct (groupRegex_Find (TrimSpace raw)); [|done].
    repeat split; simpl; try done.
    + destruct (currentGroup s) as [g|] eqn:Hg; [|done].
      destruct (0 <? length (Group.Items g)) eqn:Hlen; [|done].
      apply Forall_app. split; [done|]. constructor; [|done].
      split; [|by apply Hcur]. intros Hnil. by rewrite Hnil in Hlen.
    + by intros g [= <-].
  - (* separator *)
    destruct (sealAtSeparator_sealedState s Hs) as (Hall & Hgs & Hcur & Hit).
    by repeat split.
Qed.

Lemma scanLoop_sealedState (lines : list string) (s : State) :
  sealedState s -> sealedState (scanLoop s lines).
Proof.
  revert s. induction lines as [|l ls IH]; intros s Hs; simpl; [done|].
  apply IH. by apply processLine_sealedState.
Qed.

Lemma initialState_sealedState : sealedState initialState.
Proof. repeat split; simpl; try done. Qed.

Lemma closeGroup_sealedState (s : State) :
  sealedState s -> sealedState (closeGroup s).
Proof.
  intros (Hall & Hgs & Hcur & Hit). unfold closeGroup.
  destruct (currentGroup s) as [g|] eqn:Hg;
    [|repeat split; try done; intros g' Hg'; by rewrite Hg in Hg'].
  destruct (0 <? length (Group.Items g)) eqn:Hlen;
    [|repeat split; try done; intros g' Hg'; rewrite Hg in Hg';
      simplify_eq; by apply Hcur].
  repeat split; simpl; try done;
    [|intros g' Hg'; rewrite Hg in Hg'; simplify_eq; by apply Hcur].
  apply Forall_app. split; [done|]. constructor; [|done].
  split; [|by apply Hcur]. intros Hnil. by rewrite Hnil in Hlen.
Qed.

Lemma finalState_sealedState (lines : list string) :
  sealedState (finalState lines).
Proof.
  unfold finalState. apply closeGroup_sealedState.
  rewrite sealAtEOF_sealAtSeparator. apply sealAtSeparator_sealedState.
  apply scanLoop_sealedState, initialState_sealedState.
Qed.

Lemma validItemsOf_wellSealed (its : list Item.t) :
  Forall wellSealed its -> validItemsOf its = its.
Proof.
  induction 1 as [|it its [Hm _] _ IH]; [done|].
  unfold validItemsOf in *. rewrite filter_cons, decide_True by done.
  by rewrite IH.
Qed.

Lemma buildFolders_sealed (gs : list Group.t) (acc : list Item.t) :
  Forall (fun g => Group.Items g <> [] /\ Forall wellSealed (Group.Items g)) gs ->
  foldl addFolder acc gs = acc ++ map folderOf gs.
Proof.
  revert acc. induction gs as [|g gs IH]; intros acc Hgs; simpl.
  - by rewrite app_nil_r.
  - apply Forall_cons in Hgs as [[Hne Hws] Hgs].
    rewrite IH by done. unfold addFolder, folderOf.
    rewrite (validItemsOf_wellSealed _ Hws).
    destruct (Group.Items g) as [|it its]; [done|]. simpl.
    by rewrite <- app_assoc.
Qed.

(** X1. The filters of the assembler never drop a sealed request: without
    groups the items of the document are exactly the requests the loop has
    sealed, in order, and with groups they are one folder per group that
    has joined the groups, in order, each with all the requests of its
    group. *)
Theorem document_items_are_the_sealed_requests (lines : list string) :
  let s := finalState lines in
  buildItems s
  = if groupedMode s then map folderOf (groups s) else allItems s.
Proof.
  intros s. destruct (finalState_sealedState lines) as (Hall & Hgs & _ & _).
  fold s in Hall, Hgs. unfold buildItems, groupedMode.
  destruct (hasGroupSeparators s && (0 <? length (groups s))).
  - unfold buildFolders. by rewrite buildFolders_sealed.
  - by apply validItemsOf_wellSealed.
Qed.

(** X2. Every request of the document, at the top level or in a folder,
    has a non-empty name, a non-empty method, a non-empty raw URL and no
    nested items. *)
Theorem document_requests_are_well_sealed (lines : list string) :
  Forall wellSealed (requestsOf (finalState lines)).
Proof.
  destruct (finalState_sealedState lines) as (Hall & Hgs & _ & _).
  unfold requestsOf, buildItems, groupedMode.
  destruct (hasGroupSeparators _ && (0 <? length _)).
  - unfold buildFolders. rewrite buildFolders_sealed by done. simpl.
    induction Hgs as [|g gs [_ Hg] _ IH]; [done|].
    simpl. apply Forall_app. by split.
  - by rewrite validItemsOf_wellSealed.
Qed.

(** *** Generated names *)

Lemma lineKind_KGroup (s : State) (line : string) :
  lineKind s line = KGroup -> groupRegex_Find line <> None.
Proof.
  unfold lineKind. destruct (decide (line = "")); [done|].
  destruct (bool_decide (is_Some (groupRegex_Find line))) eqn:Hg.
  - apply bool_decide_eq_true in Hg as [x ->]. done.
  - repeat match goal with
           | |- context [if ?c then _ else _] => destruct c; try done
           end.
Qed.

Lemma lineKind_KName (s : State) (line : string) :
  lineKind s line = KName -> nameRegex_Find line <> None.
Proof.
  unfold lineKind. destruct (decide (line = "")); [done|].
  destruct (bool_decide (is_Some (groupRegex_Find line))); [done|].
  destruct (bool_decide (is_Some (nameRegex_Find line))) eqn:Hg.
  - apply bool_decide_eq_true in Hg as [x ->]. done.
  - repeat match goal with
           | |- context [if ?c then _ else _] => destruct c; try done
           end.
Qed.

Lemma generatedNames_S (n : nat) :
  generatedNames (S n) = generatedNames n ++ ["request-" +:+ pretty (N.of_nat (S n))].
Proof. unfold generatedNames. by rewrite seq_S, map_app. Qed.

Lemma sealAtSeparator_countedState (s : State) :
  countedState s -> countedState (sealAtSeparator s).
Proof.
  intros (Hn & Hg & Hc & Hnames). rewrite <- sealAtEOF_sealAtSeparator.
  unfold sealAtEOF. destruct (negb _ && negb _); [|done].
  rewrite Hg. simpl. rewrite Hn. simpl.
  repeat split; simpl; try done.
  - rewrite length_app. simpl. rewrite Hc. lia.
  - rewrite length_app, map_app, Hnames. simpl.
    rewrite Nat.add_1_r, generatedNames_S. do 2 f_equal.
    unfold sprintfRequest. do 2 f_equal. rewrite Hc. lia.
Qed.

Lemma processLine_countedState (s : State) (raw : string) :
  nameRegex_Find (TrimSpace raw) = None ->
  groupRegex_Find (TrimSpace raw) = None ->
  countedState s -> countedState (processLine s raw).
Proof.
  intros Hname Hgroup Hs. unfold processLine.
  destruct (lineKind s (TrimSpace raw)) eqn:Hk;
    try (by apply lineKind_KGroup in Hk);
    try (by apply lineKind_KName in Hk);
    try done;
    try (destruct Hs as (Hn & Hg & Hc & Hnames);
         repeat match goal with
                | |- context [match ?c with Some _ => _ | None => _ end] =>
                    destruct c eqn:?
                | |- context [if ?c then _ else _] => destruct c eqn:?
                | |- context [let (_, _) := ?c in _] => destruct c
                end; by repeat split).
  destruct (sealAtSeparator_countedState s Hs) as (Hn & Hg & Hc & Hnames).
  by repeat split.
Qed.

Lemma scanLoop_countedState (lines : list string) (s : State) :
  plainLines lines -> countedState s -> countedState (scanLoop s lines).
Proof.
  revert s. induction lines as [|l ls IH]; intros s Hp Hs; simpl; [done|].
  apply Forall_cons in Hp as [[Hn Hg] Hp].
  apply IH; [done|]. by apply processLine_countedState.
Qed.

(** X3. When no line of the input is a name annotation or a group
    declaration, the requests of the document are named [request-1],
    [request-2], ... in their order, without a gap. *)
Theorem generated_names_are_consecutive (lines : list string) :
  plainLines lines ->
  map Item.Name (buildItems (finalState lines))
  = generatedNames (length (buildItems (finalState lines))).
Proof.
  intros Hp.
  assert (Hc : countedState (sealAtEOF (scanLoop initialState lines))).
  { rewrite sealAtEOF_sealAtSeparator. apply sealAtSeparator_countedState.
    apply scanLoop_countedState; [done|]. by repeat split. }
  destruct Hc as (_ & Hg & _ & Hnames).
  destruct (finalState_sealedState lines) as (Hall & _).
  assert (Hitems : allItems (finalState lines)
                   = allItems (sealAtEOF (scanLoop initialState lines))).
  { unfold finalState, closeGroup.
    destruct (currentGroup _) as [g|]; [|done].
    by destruct (0 <? length (Group.Items g)). }
  assert (Hflat : hasGroupSeparators (finalState lines) = false).
  { unfold finalState, closeGroup.
    destruct (currentGroup _) as [g|]; [|done].
    by destruct (0 <? length (Group.Items g)). }
  unfold buildItems. rewrite Hflat. simpl.
  rewrite (validItemsOf_wellSealed _ Hall), Hitems. exact Hnames.
Qed.

Lemma generated_names_are_consecutive_witness :
  plainLines threeRequests
  /\ map Item.Name (buildItems (finalState threeRequests))
     = ["request-1"; "request-2"; "request-3"].
Proof.
  assert (Hp : plainLines threeRequests).
  { unfold plainLines, threeRequests.
    repeat (constructor; [split; vm_compute; reflexivity|]). constructor. }
  split; [exact Hp|].
  etrans; [exact (generated_names_are_consecutive threeRequests Hp)|].
  vm_compute. reflexivity.
Defined.

(** *** Header lines and body lines in sequence *)

Lemma lineKind_flags (s1 s2 : State) (line : string) :
  inRequestScript s1 = inRequestScript s2 ->
  startedJSON s1 = startedJSON s2 ->
  lineKind s1 line = lineKind s2 line.
Proof. intros H1 H2. unfold lineKind. by rewrite H1, H2. Qed.

Lemma pastEarlierCases_flags (s1 s2 : State) (line : string) :
  inRequestScript s1 = inRequestScript s2 ->
  pastEarlierCases s1 line -> pastEarlierCases s2 line.
Proof. intros H. unfold pastEarlierCases. by rewrite H. Qed.

Lemma processLine_header (s : State) (raw : string) :
  startedJSON s = false -> colonLine s raw ->
  processLine s raw = set_headers (headers s ++ [headerOf raw]) s.
Proof.
  intros Hj [Hpast Hc]. pose proof (lineKind_past s _ Hpast) as Hk.
  rewrite Hc, Hj in Hk. unfold processLine. rewrite Hk.
  destruct (SplitN2_colon _ Hc) as (k & v & E & _).
  unfold headerOf. by rewrite E.
Qed.

Lemma set_headers_twice (a b : list Header.t) (s : State) :
  set_headers a (set_headers b s) = set_headers a s.
Proof. reflexivity. Qed.

Lemma scanLoop_headers (ls : list string) (s : State) :
  startedJSON s = false -> Forall (colonLine s) ls ->
  scanLoop s ls = set_headers (headers s ++ map headerOf ls) s.
Proof.
  revert s. induction ls as [|l ls IH]; intros s Hj Hls.
  - simpl. rewrite app_nil_r. by destruct s.
  - apply Forall_cons in Hls as [Hl Hls]. simpl.
    rewrite (processLine_header s l Hj Hl).
    unfold scanLoop in IH. rewrite IH; [|done|].
    + simpl. by rewrite <- app_assoc.
    + eapply Forall_impl; [exact Hls|]. intros x [Hp Hc].
      split; [|done]. by apply (pastEarlierCases_flags s).
Qed.

(** X4. Header lines read one after the other outside a JSON body are
    appended to the header list in the order of the input, each cut at its
    first colon with both sides trimmed, and change nothing else; the
    request then sealed carries the headers in that order. *)
Theorem header_lines_keep_their_order (s : State) (ls : list string) :
  startedJSON s = false -> Forall (colonLine s) ls ->
  scanLoop s ls = set_headers (headers s ++ map headerOf ls) s
  /\ Request.Header (Item.Request (sealedItem (scanLoop s ls)))
     = headers s ++ map headerOf ls.
Proof.
  intros Hj Hls. rewrite (scanLoop_headers ls s Hj Hls). by split.
Qed.

Lemma header_lines_keep_their_order_witness :
  let s := processLine initialState "GET https://api.example.com/users" in
  startedJSON s = false
  /\ Forall (colonLine s) headerSample
  /\ Request.Header (Item.Request (sealedItem (scanLoop s headerSample)))
     = [ Header.mk "Accept" "application/json" "text";
         Header.mk "Authorization" "Bearer abc:def" "text";
         Header.mk "X-Trace-Id" "42" "text" ].
Proof.
  intros s.
  assert (Hls : Forall (colonLine s) headerSample).
  { unfold headerSample.
    repeat (constructor;
            [split; [vm_compute; repeat split; discriminate
                    |vm_compute; reflexivity]|]).
    constructor. }
  split; [reflexivity|]. split; [exact Hls|].
  etrans; [exact (proj2 (header_lines_keep_their_order s headerSample
                           eq_refl Hls))|].
  vm_compute. reflexivity.
Defined.

Lemma processLine_innerBodyLine (s : State) (raw : string) :
  startedJSON s = true -> innerBodyLine s raw ->
  processLine s raw = set_data (data s +:+ TrimSpace raw +:+ nl) s.
Proof.
  intros Hj [Hpast Hc]. pose proof (lineKind_past s _ Hpast) as Hk.
  rewrite Hj in Hk. unfold processLine.
  destruct (Contains (TrimSpace raw) ":") eqn:Hcolon.
  - by rewrite Hk.
  - destruct Hc as [Hc|Hc]; [done|]. rewrite Hc in Hk. simpl in Hk.
    by rewrite Hk.
Qed.

Lemma scanLoop_innerBodyLines (ls : list string) (s : State) :
  startedJSON s = true -> Forall (innerBodyLine s) ls ->
  scanLoop s ls = set_data (data s +:+ trimmedLines ls) s.
Proof.
  revert s. induction ls as [|l ls IH]; intros s Hj Hls.
  - simpl. rewrite append_nil_r. by destruct s.
  - apply Forall_cons in Hls as [Hl Hls]. simpl.
    rewrite (processLine_innerBodyLine s l Hj Hl).
    unfold scanLoop in IH. rewrite IH; [|done|].
    + simpl. by rewrite !append_assoc.
    + eapply Forall_impl; [exact Hls|]. intros x [Hp Hc].
      split; [|done]. by apply (pastEarlierCases_flags s).
Qed.

Lemma processLine_closingBodyLine (s : State) (raw : string) :
  startedJSON s = true -> closingBodyLine s raw ->
  processLine s raw
  = set_startedJSON false
      (set_body (Body.mk (Body.Mode (body s))
                         (TrimSpace (data s +:+ TrimSpace raw))
                         (Body.Options (body s)))
         (set_data (data s +:+ TrimSpace raw) s)).
Proof.
  intros Hj (Hpast & Hc & Hend). pose proof (lineKind_past s _ Hpast) as Hk.
  rewrite Hj, Hc, Hend in Hk. simpl in Hk. unfold processLine. by rewrite Hk.
Qed.

(** X5. A multi-line JSON body of the following shape: an opening line
    that the opening-brace case takes and that does not end with a closing
    brace; inner lines that reach the header and body cases (no earlier
    case of the switch takes them: they are not blank, no group, name,
    description or local-variable line, open no script, are read outside a
    script block, are no separator, comment or method line, and do not
    begin with an opening brace) and that hold a colon or do not end with
    a closing brace; a closing line that reaches the same cases, holds no
    colon and ends with a closing brace.  Such lines give the body of mode
    [raw] whose text is the text accumulated so far followed by the lines,
    each trimmed, joined by newlines, the whole trimmed; JSON-body mode is
    left, and the headers are as before.  (A line of a nested object that
    begins with an opening brace, or that ends with a closing brace
    without a colon, is not an inner line of this shape.) *)
Theorem multi_line_body_is_the_trimmed_lines
    (s : State) (opening closing : string) (inner : list string) :
  openingBodyLine s opening ->
  Forall (innerBodyLine s) inner ->
  closingBodyLine s closing ->
  let s' := scanLoop s (opening :: inner ++ [closing]) in
  body s'
  = Body.mk "raw"
      (TrimSpace (data s +:+ TrimSpace opening +:+ nl
                  +:+ trimmedLines inner +:+ TrimSpace closing))
      jsonOptions
  /\ startedJSON s' = false
  /\ headers s' = headers s.
Proof.
  intros [Hk Hopen] Hinner Hclose s'. unfold s', scanLoop. simpl.
  rewrite foldl_app. simpl.
  assert (E1 : processLine s opening
               = set_data (data s +:+ TrimSpace opening +:+ nl)
                   (set_startedJSON true
                      (set_body (Body.mk "raw" (Body.Raw (body s)) jsonOptions) s))).
  { unfold processLine. by rewrite Hk, Hopen. }
  rewrite E1.
  set (s1 := set_data _ _).
  pose proof (scanLoop_innerBodyLines inner s1 eq_refl) as E2.
  unfold scanLoop in E2. rewrite E2.
  2: { eapply Forall_impl; [exact Hinner|]. intros x [Hp Hc].
       split; [|done]. by apply (pastEarlierCases_flags s). }
  rewrite processLine_closingBodyLine; [|done|].
  2: { destruct Hclose as (Hp & Hc & He). split; [|done].
       by apply (pastEarlierCases_flags s). }
  simpl. by rewrite !append_assoc.
Qed.

Lemma multi_line_body_is_the_trimmed_lines_witness :
  let s := processLine initialState "POST https://api.example.com/users" in
  openingBodyLine s "  {"
  /\ Forall (innerBodyLine s) bodySample
  /\ closingBodyLine s " }"
  /\ Body.Raw (body (scanLoop s ("  {" :: bodySample ++ [" }"])))
     = "{" +:+ nl +:+ dq +:+ "tags" +:+ dq +:+ ": [" +:+ nl
       +:+ "1," +:+ nl +:+ "2" +:+ nl +:+ "]" +:+ nl +:+ "}".
Proof.
  intros s.
  assert (Ho : openingBodyLine s "  {") by (split; vm_compute; reflexivity).
  assert (Hi : Forall (innerBodyLine s) bodySample).
  { unfold bodySample.
    repeat (constructor;
            [split; [vm_compute; repeat split; discriminate
                    |vm_compute; auto]|]).
    constructor. }
  assert (Hc : closingBodyLine s " }").
  { split; [vm_compute; repeat split; discriminate|].
    split; vm_compute; reflexivity. }
  split; [exact Ho|]. split; [exact Hi|]. split; [exact Hc|].
  destruct (multi_line_body_is_the_trimmed_lines s "  {" " }" bodySample
              Ho Hi Hc) as (Hb & _ & _).
  etrans; [exact (f_equal Body.Raw Hb)|]. vm_compute. reflexivity.
Defined.

(** *** The variables of the collection *)

Lemma map_fmap {A B} (f : A -> B) (l : list A) : map f l = f <$> l.
Proof. induction l as [|x l IH]; [done|]. simpl. by rewrite IH. Qed.

Lemma seen_insert (u : gmap string bool) (k k' : string) :
  seen (<[k := true]> u) k' = true <-> k = k' \/ seen u k' = true.
Proof.
  unfold seen. destruct (decide (k = k')) as [->|Hne].
  - rewrite lookup_insert_eq. simpl. split; auto.
  - rewrite lookup_insert_ne by done. split; [auto|]. by intros [?|?].
Qed.

Lemma detectedLoop_spec (env : option Environment)
    (lv : gmap string string) (all : list string)
    (u : gmap string bool) (acc : list Variable_.t) :
  seenAgrees u acc ->
  let r := detectedLoop env "dev" lv all u acc in
  seenAgrees (fst r) (snd r)
  /\ (exists new,
        snd r = acc ++ new
        /\ Forall (fun x => exists k,
                     k ∈ all /\ x = variableOf k (resolvedValue env lv k)) new)
  /\ (forall k, k ∈ all -> k ∈ map Variable_.Key (snd r)).
Proof.
  revert u acc. induction all as [|name rest IH]; intros u acc Hagree; simpl.
  - split; [done|]. split; [|by intros k Hk; apply elem_of_nil in Hk].
    exists []. by rewrite app_nil_r.
  - destruct (seen u name) eqn:Hseen.
    + destruct (IH u acc Hagree) as (Hag & (new & Hnew & Hall) & Hin).
      split; [done|]. split.
      * exists new. split; [done|].
        eapply Forall_impl; [exact Hall|]. intros x (k & Hk & ->).
        exists k. split; [by right|done].
      * intros k Hk. apply elem_of_cons in Hk as [->|Hk]; [|by apply Hin].
        destruct (IH u acc Hagree) as (_ & (new' & Hnew' & _) & _).
        rewrite Hnew', map_app. apply elem_of_app. left.
        by apply Hagree.
    + set (v := match lv !! name with
                | Some localValue => localValue
                | None => _
                end).
      assert (Hv : v = resolvedValue env lv name).
      { unfold v, resolvedValue. destruct (lv !! name); [done|].
        destruct env as [e|]; [|done]. destruct (e !! "dev") as [vars|]; [|done].
        by destruct (vars !! name). }
      assert (Hagree' : seenAgrees (<[name := true]> u)
                          (acc ++ [Variable_.mk name v "string"])).
      { destruct Hagree as [Hiff Hnd]. split.
        - intros k. rewrite seen_insert, map_app, elem_of_app, Hiff. simpl.
          rewrite list_elem_of_singleton.
          split; (intros [?|?]; [right|left]; done).
        - rewrite map_app. apply NoDup_app. split; [done|]. split.
          + intros k Hk Hk'. simpl in Hk'.
            apply list_elem_of_singleton in Hk' as ->.
            apply Hiff in Hk. congruence.
          + simpl. apply NoDup_singleton. }
      destruct (IH _ _ Hagree') as (Hag & (new & Hnew & Hall) & Hin).
      split; [done|]. split.
      * exists (Variable_.mk name v "string" :: new). split.
        -- rewrite Hnew. by rewrite <- app_assoc.
        -- constructor.
           ++ exists name. split; [by left|]. by rewrite Hv.
           ++ eapply Forall_impl; [exact Hall|]. intros x (k & Hk & ->).
              exists k. split; [by right|done].
      * intros k Hk. apply elem_of_cons in Hk as [->|Hk]; [|by apply Hin].
        rewrite Hnew, !map_app, !elem_of_app. left. right. by left.
Qed.

Lemma seenAgrees_empty : seenAgrees ∅ [].
Proof.
  split; [|constructor]. intros k. unfold seen. rewrite lookup_empty. simpl.
  split; [done|]. intros H. by apply elem_of_nil in H.
Qed.

Lemma leftover_keys (u : gmap string bool) (entries : list (string * string)) :
  map Variable_.Key (leftover u entries)
  = (filter (fun kv => seen u (fst kv) = false) entries).*1.
Proof.
  unfold leftover. rewrite !map_fmap, <- list_fmap_compose. done.
Qed.

Lemma assemble_variables (env : option Environment) (all : list string)
    (order : gmap string string -> list (string * string)) (today : string)
    (s : State) :
  Collection.Variable_ (assemble env all order today s)
  = snd (detectedLoop env "dev" (localVariables s) all ∅ [])
    ++ leftover (fst (detectedLoop env "dev" (localVariables s) all ∅ []))
                (order (localVariables s)).
Proof. unfold assemble. simpl. by rewrite localLoop_leftover. Qed.

(** X6. The variable list of the collection never holds two entries with
    the same key, and its keys are exactly the names detected in the text
    and the names of the local variables of the file. *)
Theorem collection_variables_have_distinct_keys
    (env : option Environment) (all : list string)
    (order : gmap string string -> list (string * string)) (today : string)
    (s : State) :
  fairRange order ->
  let vars := Collection.Variable_ (assemble env all order today s) in
  NoDup (map Variable_.Key vars)
  /\ forall k, k ∈ map Variable_.Key vars
               <-> k ∈ all \/ is_Some (localVariables s !! k).
Proof.
  intros Hfair vars. unfold vars. rewrite assemble_variables.
  destruct (detectedLoop_spec env (localVariables s) all ∅ [] seenAgrees_empty)
    as ([Hiff Hnd] & (new & Hnew & Hall) & Hin).
  set (r := detectedLoop env "dev" (localVariables s) all ∅ []) in *.
  rewrite map_app, leftover_keys.
  assert (Hentries : forall k v, (k, v) ∈ order (localVariables s)
                                 <-> localVariables s !! k = Some v).
  { intros k v. rewrite (Hfair _). apply elem_of_map_to_list. }
  split.
  - apply NoDup_app. split; [done|]. split.
    + intros k Hk Hk'. apply list_elem_of_fmap in Hk' as ([k' v] & -> & Hkv).
      apply list_elem_of_filter in Hkv as [Hns _]. simpl in *.
      apply Hiff in Hk. congruence.
    + eapply sublist_NoDup; [|apply fmap_sublist, sublist_filter].
      rewrite (Hfair _). apply NoDup_fst_map_to_list.
  - intros k. rewrite elem_of_app. split.
    + intros [Hk|Hk].
      * rewrite Hnew in Hk. simpl in Hk.
        rewrite map_fmap in Hk. apply list_elem_of_fmap in Hk as (x & -> & Hx).
        rewrite Forall_forall in Hall. destruct (Hall x Hx) as (k & Hk & ->).
        by left.
      * apply list_elem_of_fmap in Hk as ([k' v] & -> & Hkv).
        apply list_elem_of_filter in Hkv as [_ Hkv]. right.
        exists v. by apply Hentries.
    + intros [Hk|[v Hv]]; [left; by apply Hin|].
      destruct (seen (fst r) k) eqn:Hseen; [left; by apply Hiff|].
      right. apply list_elem_of_fmap. exists (k, v). split; [done|].
      apply list_elem_of_filter. split; [done|]. by apply Hentries.
Qed.

Lemma collection_variables_have_distinct_keys_witness :
  fairRange reverseOrder
  /\ map Variable_.Key
       (Collection.Variable_
          (assemble (Some variablesEnv) ["host"; "id"; "token"; "id"]
                    reverseOrder "t" variablesSample))
     = ["host"; "id"; "token"]
  /\ NoDup ["host"; "id"; "token"].
Proof.
  split; [exact fairRange_reverseOrder|].
  assert (E : map Variable_.Key
                (Collection.Variable_
                   (assemble (Some variablesEnv) ["host"; "id"; "token"; "id"]
                             reverseOrder "t" variablesSample))
              = ["host"; "id"; "token"]) by (vm_compute; reflexivity).
  split; [exact E|]. rewrite <- E.
  exact (proj1 (collection_variables_have_distinct_keys
                  (Some variablesEnv) ["host"; "id"; "token"; "id"]
                  reverseOrder "t" variablesSample fairRange_reverseOrder)).
Defined.

Lemma scanLoop_app (s : State) (l1 l2 : list string) :
  scanLoop s (l1 ++ l2) = scanLoop (scanLoop s l1) l2.
Proof. apply foldl_app. Qed.

(** Every entry of the table of local variables is in the variable list
    of the collection, whether the text refers to its name or not. *)
Lemma local_table_reaches_the_collection
    (env : option Environment) (all : list string)
    (order : gmap string string -> list (string * string)) (today : string)
    (s : State) (k v : string) :
  fairRange order ->
  localVariables s !! k = Some v ->
  variableOf k v ∈ Collection.Variable_ (assemble env all order today s).
Proof.
  intros Hfair Hkv. rewrite assemble_variables.
  destruct (detectedLoop_spec env (localVariables s) all ∅ [] seenAgrees_empty)
    as ([Hiff Hnd] & (new & Hnew & Hall) & Hin).
  set (r := detectedLoop env "dev" (localVariables s) all ∅ []) in *.
  apply elem_of_app. destruct (seen (fst r) k) eqn:Hseen.
  - left. apply Hiff in Hseen. rewrite map_fmap in Hseen.
    apply list_elem_of_fmap in Hseen as (x & Hx & Hin').
    pose proof Hin' as Hin''. rewrite Hnew in Hin''. simpl in Hin''.
    rewrite Forall_forall in Hall. destruct (Hall x Hin'') as (k' & _ & ->).
    simpl in Hx. subst k'. unfold resolvedValue in Hin'.
    by rewrite Hkv in Hin'.
  - right. unfold leftover. rewrite map_fmap. apply list_elem_of_fmap.
    exists (k, v). split; [done|]. apply list_elem_of_filter. split; [done|].
    rewrite (Hfair _). by apply elem_of_map_to_list.
Qed.

(** A line that declares a local variable is taken by the local-variable
    case in every state. *)
Lemma localVariableRegex_Find_kind (s : State) (line k v : string) :
  localVariableRegex_Find line = Some (k, v) ->
  lineKind s line = KLocalVariable.
Proof.
  intros H.
  assert (Hp : String.prefix "@" line = true).
  { unfold localVariableRegex_Find in H.
    by destruct (String.prefix "@" line). }
  apply prefix_app_drop in Hp.
  change ("@" +:+ drop (String.length "@") line)
    with (String "@"%char (drop 1 line)) in Hp.
  unfold lineKind. rewrite H. rewrite Hp. reflexivity.
Qed.

Lemma processLine_declaration (s : State) (raw k v : string) :
  localVariableRegex_Find (TrimSpace raw) = Some (k, v) ->
  processLine s raw
  = set_localVariables (<[k := TrimSpace v]> (localVariables s)) s.
Proof.
  intros H. unfold processLine.
  by rewrite (localVariableRegex_Find_kind s _ k v H), H.
Qed.

Lemma sealAtSeparator_localVariables (s : State) :
  localVariables (sealAtSeparator s) = localVariables s.
Proof.
  unfold sealAtSeparator, addItem.
  repeat match goal with
         | |- context [match ?c with Some _ => _ | None => _ end] =>
             destruct c; simpl
         | |- context [if ?c then _ else _] => destruct c; simpl
         end; done.
Qed.

Lemma processLine_keeps_locals (s : State) (raw : string) :
  localVariableRegex_Find (TrimSpace raw) = None ->
  localVariables (processLine s raw) = localVariables s.
Proof.
  intros Hn. unfold processLine.
  destruct (lineKind s (TrimSpace raw)); try done; simpl;
    rewrite ?Hn, ?sealAtSeparator_localVariables;
    repeat match goal with
           | |- context [match ?c with Some _ => _ | None => _ end] =>
               destruct c; simpl
           | |- context [if ?c then _ else _] => destruct c; simpl
           | |- context [let (_, _) := ?c in _] => destruct c; simpl
           end; done.
Qed.

(** Lines that do not declare the name again leave its entry alone. *)
Lemma scanLoop_keeps_local (after : list string) (s : State) (k x : string) :
  Forall (fun l => forall v',
            localVariableRegex_Find (TrimSpace l) <> Some (k, v')) after ->
  localVariables s !! k = Some x ->
  localVariables (scanLoop s after) !! k = Some x.
Proof.
  revert s. induction after as [|l ls IH]; intros s Hall Hk; [done|].
  apply Forall_cons in Hall as [Hl Hls].
  change (scanLoop s (l :: ls)) with (scanLoop (processLine s l) ls).
  apply IH; [done|].
  destruct (localVariableRegex_Find (TrimSpace l)) as [[k' v']|] eqn:Hf.
  - rewrite (processLine_declaration s l k' v' Hf). simpl.
    rewrite lookup_insert_ne; [done|]. intros ->. by apply (Hl v').
  - by rewrite processLine_keeps_locals.
Qed.

Lemma finalState_localVariables (lines : list string) :
  localVariables (finalState lines)
  = localVariables (scanLoop initialState lines).
Proof.
  unfold finalState. rewrite sealAtEOF_sealAtSeparator.
  rewrite <- (sealAtSeparator_localVariables (scanLoop initialState lines)).
  unfold closeGroup.
  destruct (currentGroup _) as [g|]; [|done].
  by destruct (0 <? length (Group.Items g)).
Qed.

(** X7. A line [@name = value] of the input, wherever it stands (in a
    request, in a body, in a script), declares a local variable: when no
    later line declares the same name again, the variable list of the
    collection holds an entry for the name with the declared value,
    trimmed, whether the text refers to the name or not. *)
Theorem local_variables_reach_the_collection
    (env : option Environment) (all : list string)
    (order : gmap string string -> list (string * string)) (today : string)
    (before after : list string) (decl k v : string) :
  fairRange order ->
  localVariableRegex_Find (TrimSpace decl) = Some (k, v) ->
  Forall (fun l => forall v',
            localVariableRegex_Find (TrimSpace l) <> Some (k, v')) after ->
  variableOf k (TrimSpace v)
  ∈ Collection.Variable_
      (assemble env all order today (finalState (before ++ decl :: after))).
Proof.
  intros Hfair Hdecl Hafter.
  apply local_table_reaches_the_collection; [done|].
  rewrite finalState_localVariables, scanLoop_app.
  change (scanLoop ?s (decl :: after))
    with (scanLoop (processLine s decl) after).
  apply scanLoop_keeps_local; [done|].
  rewrite (processLine_declaration _ decl k v Hdecl). simpl.
  apply lookup_insert_eq.
Qed.

Lemma local_variables_reach_the_collection_witness :
  variableOf "token" "local-secret"
  ∈ Collection.Variable_
      (assemble None (detectVariables (fileContent localsSample))
                mapOrder "t" (finalState localsSample)).
Proof.
  apply (local_variables_reach_the_collection None
           (detectVariables (fileContent localsSample)) mapOrder "t"
           [ "@token = first"; "GET https://example.com/users" ]
           [ "###"; "@host = example.com" ]
           "@token =   local-secret  " "token" "local-secret").
  - exact fairRange_mapOrder.
  - vm_compute. reflexivity.
  - repeat constructor; intros v' H; vm_compute in H; discriminate.
Defined.

(** X8. Every name detected in the text is in the variable list of the
    collection, with the value of the file's local variable of that name
    if there is one, else with the value the environment [dev] gives it,
    else with the empty value. *)
Theorem detected_variables_are_resolved_by_priority
    (env : option Environment) (all : list string)
    (order : gmap string string -> list (string * string)) (today : string)
    (s : State) (k : string) :
  k ∈ all ->
  variableOf k (resolvedValue env (localVariables s) k)
  ∈ Collection.Variable_ (assemble env all order today s).
Proof.
  intros Hk. rewrite assemble_variables.
  destruct (detectedLoop_spec env (localVariables s) all ∅ [] seenAgrees_empty)
    as (_ & (new & Hnew & Hall) & Hin).
  set (r := detectedLoop env "dev" (localVariables s) all ∅ []) in *.
  apply elem_of_app. left. specialize (Hin k Hk).
  rewrite map_fmap in Hin. apply list_elem_of_fmap in Hin as (x & Hx & Hin).
  pose proof Hin as Hin'. rewrite Hnew in Hin'. simpl in Hin'.
  rewrite Forall_forall in Hall. destruct (Hall x Hin') as (k' & _ & ->).
  simpl in Hx. by subst k'.
Qed.

Lemma detected_variables_are_resolved_by_priority_witness :
  "token" ∈ ["host"; "id"; "token"] /\ "id" ∈ ["host"; "id"; "token"]
  /\ resolvedValue (Some variablesEnv) (localVariables variablesSample) "token"
     = "local-secret"
  /\ resolvedValue (Some variablesEnv) (localVariables variablesSample) "id" = "7"
  /\ variableOf "id" "7"
     ∈ Collection.Variable_
         (assemble (Some variablesEnv) ["host"; "id"; "token"]
                   mapOrder "t" variablesSample).
Proof.
  assert (H1 : "token" ∈ ["host"; "id"; "token"])
    by (apply list_elem_of_In; simpl; auto).
  assert (H2 : "id" ∈ ["host"; "id"; "token"])
    by (apply list_elem_of_In; simpl; auto).
  split; [exact H1|]. split; [exact H2|].
  split; [vm_compute; reflexivity|].
  assert (E : resolvedValue (Some variablesEnv)
                (localVariables variablesSample) "id" = "7")
    by (vm_compute; reflexivity).
  split; [exact E|]. rewrite <- E.
  exact (detected_variables_are_resolved_by_priority _ _ mapOrder "t" _ _ H2).
Defined.

(** *** [parseURL] with a base URL *)





Lemma splitGo_length_pos (sep : string) (s : string) (skip : nat) (cur : string) :
  1 <= length (splitGo sep skip cur s).
Proof.
  revert skip cur. induction s as [|d r IH]; intros skip cur; [simpl; lia|].
  destruct skip as [|k].
  - rewrite splitGo_cons.
    destruct (String.prefix sep (String d r)); [simpl; lia|apply IH].
  - change (splitGo sep (S k) cur (String d r)) with (splitGo sep k cur r).
    apply IH.
Qed.




(** *** Reversal and length of strings *)

Lemma rev_app_spec (s acc : string) :
  String.rev_app s acc = String.rev s +:+ acc.
Proof.
  revert acc. induction s as [|c s IH]; intros acc; [done|].
  unfold String.rev. simpl. rewrite (IH (String c acc)), (IH (String c "")).
  by rewrite append_assoc.
Qed.

Lemma rev_cons (c : ascii) (s : string) :
  String.rev (String c s) = String.rev s +:+ String c "".
Proof. unfold String.rev at 1. simpl. apply rev_app_spec. Qed.

Lemma rev_append (a b : string) :
  String.rev (a +:+ b) = String.rev b +:+ String.rev a.
Proof.
  induction a as [|c a IH].
  - change ("" +:+ b) with b. change (String.rev "") with "".
    by rewrite append_nil_r.
  - by rewrite append_cons, !rev_cons, IH, append_assoc.
Qed.

Lemma rev_involutive (s : string) : String.rev (String.rev s) = s.
Proof.
  induction s as [|c s IH]; [done|].
  by rewrite rev_cons, rev_append, IH.
Qed.

Lemma length_append (a b : string) :
  String.length (a +:+ b) = String.length a + String.length b.
Proof.
  induction a as [|c a IH]; [done|]. rewrite append_cons. simpl. by rewrite IH.
Qed.

Lemma length_rev (s : string) : String.length (String.rev s) = String.length s.
Proof.
  induction s as [|c s IH]; [done|].
  rewrite rev_cons, length_append, IH. simpl. lia.
Qed.

Lemma allBytes_append (p : ascii -> bool) (a b : string) :
  allBytes p (a +:+ b) = allBytes p a && allBytes p b.
Proof.
  induction a as [|c a IH]; [done|].
  rewrite append_cons. simpl. by rewrite IH, andb_assoc.
Qed.

Lemma allBytes_rev (p : ascii -> bool) (s : string) :
  allBytes p (String.rev s) = allBytes p s.
Proof.
  induction s as [|c s IH]; [done|].
  rewrite rev_cons, allBytes_append, IH. simpl.
  by rewrite andb_true_r, andb_comm.
Qed.

(** *** [substituteVariables] *)

Lemma isWord_not_brace (c : ascii) :
  isWord c = true -> inCutset "{}" c = false.
Proof. destruct c as [[] [] [] [] [] [] [] []]; done. Qed.

Lemma trimLeftGo_stop (width : string -> nat) (fuel : nat) (s : string) :
  width s = 0 -> trimLeftGo width fuel s = s.
Proof. intros H. destruct fuel; [done|]. simpl. by rewrite H. Qed.

Lemma trimLeftGo_step (width : string -> nat) (fuel : nat) (c : ascii)
    (r : string) :
  width (String c r) = 1 ->
  trimLeftGo width (S fuel) (String c r) = trimLeftGo width fuel r.
Proof. intros H. simpl. by rewrite H. Qed.

Lemma cutWidth_word (w : string) :
  w <> "" -> allBytes isWord w = true -> cutWidth "{}" w = 0.
Proof.
  destruct w as [|c w]; [done|]. intros _ H. simpl in H.
  apply andb_true_iff in H as [Hc _]. unfold cutWidth.
  by rewrite (isWord_not_brace c Hc).
Qed.

(** The name inside the braces of a reference. *)
Lemma Trim_reference (w : string) :
  w <> "" -> allBytes isWord w = true ->
  Trim ("{{" +:+ w +:+ "}}") "{}" = w.
Proof.
  intros Hne Hw. unfold Trim.
  assert (Hleft : forall fuel,
            trimLeftGo (cutWidth "{}") (S (S fuel)) ("{{" +:+ w +:+ "}}")
            = w +:+ "}}").
  { intros fuel.
    change ("{{" +:+ w +:+ "}}")
      with (String "{"%char (String "{"%char (w +:+ "}}"))).
    rewrite trimLeftGo_step by done.
    rewrite trimLeftGo_step by done.
    apply trimLeftGo_stop.
    destruct w as [|c w]; [done|]. rewrite append_cons.
    simpl in Hw. apply andb_true_iff in Hw as [Hc _]. unfold cutWidth.
    by rewrite (isWord_not_brace c Hc). }
  change (String.length ("{{" +:+ w +:+ "}}"))
    with (S (S (String.length (w +:+ "}}")))).
  rewrite Hleft, rev_append, length_append.
  change (String.rev "}}") with "}}".
  replace (String.length w + String.length "}}")
    with (S (S (String.length w))) by (simpl; lia).
  change ("}}" +:+ String.rev w)
    with (String "}"%char (String "}"%char (String.rev w))).
  rewrite trimLeftGo_step by done.
  rewrite trimLeftGo_step by done.
  rewrite trimLeftGo_stop; [apply rev_involutive|].
  apply cutWidth_word.
  - intros H. apply (f_equal String.rev) in H.
    rewrite rev_involutive in H. done.
  - by rewrite allBytes_rev.
Qed.

Lemma substituteGo_cons (vars : gmap string string) (skip : nat)
    (c : ascii) (r : string) :
  NamedSeparators.substituteGo vars skip (String c r)
  = match skip with
    | S k => NamedSeparators.substituteGo vars k r
    | 0 =>
      match varAt (String c r) with
      | Some (w, _) =>
        match vars !! Trim ("{{" +:+ w +:+ "}}") "{}" with
        | Some value => value
        | None => "{{" +:+ w +:+ "}}"
        end +:+ NamedSeparators.substituteGo vars (String.length w + 3) r
      | None => String c (NamedSeparators.substituteGo vars 0 r)
      end
    end.
Proof. reflexivity. Qed.

Lemma drop_length_le (n : nat) (s : string) :
  String.length (drop n s) <= String.length s.
Proof.
  revert s. induction n as [|n IH]; intros s; [by destruct s|].
  destruct s as [|c s]; [done|]. simpl. specialize (IH s). lia.
Qed.

(** Skipping [skip] bytes and going on is going on after these bytes, as
    long as none of the references that follow is defined. *)
Lemma substituteGo_undefined (vars : gmap string string) (s : string)
    (skip : nat) :
  skip <= String.length s ->
  (forall name, name ∈ varRegex_FindAll skip s -> vars !! name = None) ->
  NamedSeparators.substituteGo vars skip s = drop skip s.
Proof.
  revert skip. induction s as [|c r IH]; intros skip Hlen Hnone.
  - by destruct skip.
  - rewrite substituteGo_cons. rewrite varRegex_FindAll_cons in Hnone.
    destruct skip as [|k].
    + destruct (varAt (String c r)) as [[w rest]|] eqn:Hv.
      * pose proof Hv as Hv'. apply varAt_Some in Hv' as (Hs & Hne & Hw).
        rewrite (Trim_reference w Hne Hw).
        rewrite (Hnone w) by (by left).
        assert (Hr : r = String "{"%char (w +:+ "}}" +:+ rest))
          by (by injection Hs).
        rewrite IH.
        -- rewrite Hr at 1.
           replace (String.length w + 3) with (S (String.length w + 2)) by lia.
           rewrite drop_cons.
           replace (w +:+ "}}" +:+ rest) with ((w +:+ "}}") +:+ rest)
             by apply append_assoc.
           replace (String.length w + 2) with (String.length (w +:+ "}}"))
             by (rewrite length_append; simpl; lia).
           rewrite drop_app. change (drop 0 (String c r)) with (String c r).
           rewrite Hs. by rewrite !append_assoc.
        -- rewrite Hr. simpl. rewrite !length_append. simpl. lia.
        -- intros name Hin. apply Hnone. by right.
      * simpl. f_equal. rewrite IH; [by destruct r| lia |done].
    + simpl. apply IH; [simpl in Hlen; lia|done].
Qed.

(** X10. [substituteVariables] returns the text as it is when the
    environment is absent, when it has no environment of the given name,
    or when that environment defines none of the variables the text refers
    to; in particular a text without references is never changed. *)
Theorem substituteVariables_keeps_undefined_references
    (text : string) (env : option Environment) (envName : string) :
  (forall e vars, env = Some e -> e !! envName = Some vars ->
                  definesNone vars text) ->
  NamedSeparators.substituteVariables text env envName = text.
Proof.
  intros H. unfold NamedSeparators.substituteVariables.
  destruct env as [e|]; [|done].
  destruct (e !! envName) as [vars|] eqn:He; [|done].
  rewrite substituteGo_undefined; [by destruct text|lia|].
  by apply (H e vars).
Qed.

Lemma substituteVariables_keeps_undefined_references_witness :
  NamedSeparators.substituteVariables
    "https://{{host}}/users/{{id}}"
    (Some {[ "dev" := {[ "token" := "abc" ]} ]}) "dev"
  = "https://{{host}}/users/{{id}}".
Proof.
  apply substituteVariables_keeps_undefined_references.
  intros e vars [= <-] Hvars.
  assert (vars = {[ "token" := "abc" ]}) as ->.
  { rewrite lookup_singleton_eq in Hvars. by injection Hvars. }
  intros name Hin.
  assert (Hd : detectVariables "https://{{host}}/users/{{id}}" = ["host"; "id"])
    by (vm_compute; reflexivity).
  rewrite Hd in Hin. apply list_elem_of_In in Hin.
  destruct Hin as [<-|[<-|[]]]; vm_compute; reflexivity.
Defined.

Lemma varAt_not_brace (c : ascii) (r : string) :
  Ascii.eqb c "{"%char = false -> varAt (String c r) = None.
Proof.
  intros H. unfold varAt.
  assert (Hp : String.prefix "{{" (String c r) = false).
  { change (String.prefix "{{" (String c r))
      with (match ascii_dec "{"%char c with
            | left _ => String.prefix "{" r
            | right _ => false
            end).
    destruct (ascii_dec "{"%char c) as [<-|]; [done|done]. }
  by rewrite Hp.
Qed.

Lemma substituteGo_skip (vars : gmap string string) (p s : string) :
  NamedSeparators.substituteGo vars (String.length p) (p +:+ s)
  = NamedSeparators.substituteGo vars 0 s.
Proof.
  induction p as [|c p IH]; [done|].
  by rewrite append_cons, substituteGo_cons.
Qed.

Lemma substituteGo_braceFree (vars : gmap string string) (pre s : string) :
  braceFree pre = true ->
  NamedSeparators.substituteGo vars 0 (pre +:+ s)
  = pre +:+ NamedSeparators.substituteGo vars 0 s.
Proof.
  intros H. induction pre as [|c pre IH]; [done|].
  simpl in H. apply andb_true_iff in H as [Hc Hpre].
  apply negb_true_iff in Hc.
  rewrite !append_cons, substituteGo_cons.
  rewrite (varAt_not_brace c _ Hc). by rewrite IH.
Qed.

(** X11. In a text that begins with bytes other than an opening brace
    followed by a reference to a variable the named environment defines,
    [substituteVariables] keeps these bytes, puts the value in the place
    of the reference and substitutes in the rest of the text on its own;
    the value itself is not scanned again. *)
Theorem substituteVariables_replaces_defined_reference
    (e : Environment) (envName : string) (vars : gmap string string)
    (pre name value post : string) :
  e !! envName = Some vars ->
  vars !! name = Some value ->
  name <> "" -> allBytes isWord name = true ->
  braceFree pre = true ->
  NamedSeparators.substituteVariables
    (pre +:+ "{{" +:+ name +:+ "}}" +:+ post) (Some e) envName
  = pre +:+ value
    +:+ NamedSeparators.substituteVariables post (Some e) envName.
Proof.
  intros He Hv Hne Hw Hpre. unfold NamedSeparators.substituteVariables.
  rewrite He, (substituteGo_braceFree vars pre _ Hpre). f_equal.
  change ("{{" +:+ name +:+ "}}" +:+ post)
    with (String "{"%char (String "{"%char (name +:+ "}}" +:+ post))).
  rewrite substituteGo_cons.
  change (String "{"%char (String "{"%char (name +:+ "}}" +:+ post)))
    with ("{{" +:+ name +:+ "}}" +:+ post).
  rewrite (varAt_reference name post Hne Hw), (Trim_reference name Hne Hw), Hv.
  f_equal.
  replace (String "{"%char (name +:+ "}}" +:+ post))
    with ((String "{"%char (name +:+ "}}")) +:+ post)
    by (by rewrite append_cons, append_assoc).
  replace (String.length name + 3)
    with (String.length (String "{"%char (name +:+ "}}")))
    by (simpl; rewrite length_append; simpl; lia).
  apply substituteGo_skip.
Qed.

Lemma substituteVariables_replaces_defined_reference_witness :
  NamedSeparators.substituteVariables
    ("https://" +:+ "{{" +:+ "host" +:+ "}}" +:+ "/users/{{id}}")
    (Some {[ "dev" := {[ "host" := "example.com/{{id}}" ]} ]}) "dev"
  = "https://" +:+ "example.com/{{id}}"
    +:+ NamedSeparators.substituteVariables "/users/{{id}}"
          (Some {[ "dev" := {[ "host" := "example.com/{{id}}" ]} ]}) "dev".
Proof.
  apply (substituteVariables_replaces_defined_reference
           {[ "dev" := {[ "host" := "example.com/{{id}}" ]} ]} "dev"
           {[ "host" := "example.com/{{id}}" ]}).
  - apply lookup_singleton_eq.
  - apply lookup_singleton_eq.
  - discriminate.
  - reflexivity.
  - reflexivity.
Defined.

(** *** [strings.Split] and the address of a request *)

Lemma splitGo_skip (sep cur p s : string) :
  splitGo sep (String.length p) cur (p +:+ s) = splitGo sep 0 cur s.
Proof. induction p as [|c p IH]; [done|]. by rewrite append_cons. Qed.

Lemma Join_cons (x : string) (l : list string) (sep : string) :
  l <> [] -> Join (x :: l) sep = x +:+ sep +:+ Join l sep.
Proof. by destruct l. Qed.

Lemma splitGo_nonempty (sep cur s : string) (skip : nat) :
  splitGo sep skip cur s <> [].
Proof.
  pose proof (splitGo_length_pos sep s skip cur) as H.
  intros E. rewrite E in H. simpl in H. lia.
Qed.

(** Joining the pieces of a split with the separator gives the string
    back. *)
Lemma Join_splitGo (sep : string) (n : nat) (s cur : string) :
  sep <> "" -> String.length s <= n ->
  Join (splitGo sep 0 cur s) sep = cur +:+ s.
Proof.
  intros Hsep. revert s cur. induction n as [|n IH]; intros s cur Hlen.
  - destruct s; [|simpl in Hlen; lia]. simpl. by rewrite append_nil_r.
  - destruct s as [|c r]; [simpl; by rewrite append_nil_r|].
    rewrite splitGo_cons.
    destruct (String.prefix sep (String c r)) eqn:Hp.
    + pose proof (prefix_app_drop _ _ Hp) as Hs.
      destruct sep as [|a sep']; [done|].
      rewrite append_cons in Hs. injection Hs as <- Hr.
      change (String.length (String c sep') - 1)
        with (String.length sep' - 0).
      rewrite Nat.sub_0_r.
      remember (drop (String.length (String c sep')) (String c r)) as r'.
      rewrite Hr, splitGo_skip.
      rewrite Join_cons by apply splitGo_nonempty.
      rewrite IH; [by rewrite append_cons|].
      rewrite Hr in Hlen. simpl in Hlen. rewrite length_append in Hlen. lia.
    + rewrite IH by (simpl in Hlen; lia).
      by rewrite append_assoc.
Qed.

Lemma Join_Split (s sep : string) : Join (Split s sep) sep = s.
Proof.
  unfold Split. destruct sep as [|a sep']; [done|].
  by rewrite (Join_splitGo _ (String.length s)).
Qed.

Lemma splitGo_Contains (sep s cur : string) :
  sep <> "" -> Contains s sep = true -> 2 <= length (splitGo sep 0 cur s).
Proof.
  intros Hsep. revert cur. induction s as [|c r IH]; intros cur H.
  - by destruct sep.
  - rewrite Contains_cons in H. rewrite splitGo_cons.
    destruct (String.prefix sep (String c r)).
    + pose proof (splitGo_length_pos sep r (String.length sep - 1) "").
      simpl. lia.
    + by apply IH.
Qed.

Lemma Split_Contains (s sep : string) :
  sep <> "" -> Contains s sep = true -> 2 <= length (Split s sep).
Proof.
  intros Hsep H. unfold Split. destruct sep; [done|].
  by apply splitGo_Contains.
Qed.

Lemma Join_head_tail (l : list string) (sep : string) :
  l <> [] -> Join (at_ 0 l :: tail l) sep = Join l sep.
Proof. by destruct l. Qed.

(** X12. For a URL with a scheme and without the base-URL variable,
    [parseURL] stores the text before the first [://] as the protocol and
    cuts the address (the text after it, up to the next [://] and without
    its query string) at the slashes and the first piece at the dots.
    Nothing of the address is lost: the host labels joined by dots,
    followed by the path segments, all joined by slashes, are the address
    again.  Without a slash the address is the host and the path stays as
    it was; the raw URL, the query and the path variables are never
    touched. *)
Theorem parseURL_keeps_the_address (rawURL : string) (u : URL.t)
    (localVars requestVars : gmap string string) :
  hasBaseUrl rawURL = false -> Contains rawURL "://" = true ->
  let address := pathPartOf (at_ 1 (Split rawURL "://")) in
  let u' := parseURL rawURL u localVars requestVars in
  URL.Protocol u' = at_ 0 (Split rawURL "://")
  /\ URL.Raw u' = URL.Raw u /\ URL.Query u' = URL.Query u
  /\ URL.Variable_ u' = URL.Variable_ u
  /\ (if Contains address "/"
      then addressOf u' = address
      else Join (URL.Host u') "." = address /\ URL.Path u' = URL.Path u).
Proof.
  intros Hb Hc address u'. subst u'. unfold parseURL.
  unfold hasBaseUrl in Hb. rewrite Hb, Hc.
  fold (pathPartOf (at_ 1 (Split rawURL "://"))). fold address.
  destruct (Contains address "/") eqn:Hs.
  - pose proof (Split_Contains address "/" ltac:(done) Hs) as Hlen.
    destruct (1 <? length (Split address "/")) eqn:Hl;
      [|apply Nat.ltb_ge in Hl; lia].
    repeat (split; [reflexivity|]).
    unfold addressOf. cbn [URL.Host URL.Path set_Path set_Host set_Protocol].
    rewrite Join_Split, Join_head_tail, Join_Split; [done|].
    intros E. rewrite E in Hlen. simpl in Hlen. lia.
  - repeat (split; [reflexivity|]). split; [|reflexivity].
    cbn [URL.Host set_Host]. apply Join_Split.
Qed.

Lemma parseURL_keeps_the_address_witness :
  let u' := parseURL "https://api.example.com/v1/users?page=2"
              (URL.mk "https://api.example.com/v1/users?page=2" "" [] [] [] [])
              ∅ ∅ in
  URL.Protocol u' = "https"
  /\ URL.Host u' = ["api"; "example"; "com"]
  /\ URL.Path u' = ["v1"; "users"]
  /\ addressOf u' = "api.example.com/v1/users".
Proof.
  intros u'.
  pose proof (parseURL_keeps_the_address
                "https://api.example.com/v1/users?page=2"
                (URL.mk "https://api.example.com/v1/users?page=2" "" [] [] [] [])
                ∅ ∅ eq_refl eq_refl) as (Hp & _ & _ & _ & Ha).
  split; [exact Hp|]. split; [reflexivity|]. split; [reflexivity|].
  exact Ha.
Defined.

(** *** [strings.Fields] on a method line *)

Lemma isReSpace_isAsciiSpace (c : ascii) :
  isReSpace c = true -> isAsciiSpace c = true.
Proof. destruct c as [[] [] [] [] [] [] [] []]; done. Qed.

Lemma fieldsGo_cons (fuel : nat) (cur : string) (c : ascii) (r : string) :
  fieldsGo (S fuel) cur (String c r)
  = match spaceWidth (String c r) with
    | 0 => fieldsGo fuel (cur +:+ String c "") r
    | w => match cur with "" => [] | _ => [cur] end
           ++ fieldsGo fuel "" (drop w (String c r))
    end.
Proof. reflexivity. Qed.

Lemma spaceWidth_ascii (c : ascii) (r : string) :
  isAsciiSpace c = true -> spaceWidth (String c r) = 1.
Proof. intros H. unfold spaceWidth. by rewrite H. Qed.

Lemma spaceWidth_word (c : ascii) (r : string) :
  isWord c = true -> spaceWidth (String c r) = 0.
Proof. destruct c as [[] [] [] [] [] [] [] []]; done. Qed.

Lemma fieldsGo_word (w : string) (fuel : nat) (cur rest : string) :
  allBytes isWord w = true ->
  fieldsGo (String.length w + fuel) cur (w +:+ rest)
  = fieldsGo fuel (cur +:+ w) rest.
Proof.
  revert cur. induction w as [|c w IH]; intros cur H.
  - by rewrite append_nil_r.
  - simpl in H. apply andb_true_iff in H as [Hc Hw].
    rewrite append_cons. cbn [String.length Nat.add].
    rewrite fieldsGo_cons, (spaceWidth_word c _ Hc), IH by done.
    by rewrite append_assoc.
Qed.

Lemma Fields_verb (v : string) (c : ascii) (r : string) :
  v ∈ verbs -> isReSpace c = true ->
  Fields (v +:+ String c r) = v :: fieldsGo (S (String.length r)) "" r.
Proof.
  intros Hv Hc. apply isReSpace_isAsciiSpace in Hc.
  assert (Hw : allBytes isWord v = true /\ v <> "").
  { unfold verbs in Hv. apply list_elem_of_In in Hv. simpl in Hv.
    destruct Hv as [<-|[<-|[<-|[<-|[<-|[]]]]]]; by split. }
  destruct Hw as [Hw Hne].
  unfold Fields. rewrite length_append.
  replace (S (String.length v + String.length (String c r)))
    with (String.length v + S (S (String.length r))) by (simpl; lia).
  rewrite (fieldsGo_word v _ "" _ Hw), fieldsGo_cons.
  rewrite (spaceWidth_ascii c r Hc).
  change ("" +:+ v) with v. by destruct v.
Qed.

(** *** Method lines *)

Lemma fieldsGo_cur (fuel : nat) (cur s : string) :
  cur <> "" -> fieldsGo fuel cur s <> [].
Proof.
  revert cur s. induction fuel as [|f IH]; intros cur s H.
  - by destruct cur.
  - destruct s as [|c r]; [by destruct cur|].
    rewrite fieldsGo_cons. destruct (spaceWidth (String c r)).
    + apply IH. by destruct cur.
    + by destruct cur.
Qed.

Lemma fieldsGo_nonempty_fields (fuel : nat) (cur s : string) :
  Forall (fun f => f <> "") (fieldsGo fuel cur s).
Proof.
  revert cur s. induction fuel as [|f IH]; intros cur s.
  - destruct cur; simpl; [done|by repeat constructor].
  - destruct s as [|c r]; [destruct cur; simpl; [done|by repeat constructor]|].
    rewrite fieldsGo_cons. destruct (spaceWidth (String c r)); [apply IH|].
    apply Forall_app. split; [|apply IH].
    destruct cur; [done|by repeat constructor].
Qed.

Lemma trimLeftGo_fixed (width : string -> nat) (fuel : nat) (s : string) :
  width "" = 0 -> String.length s <= fuel ->
  width (trimLeftGo width fuel s) = 0.
Proof.
  intros H0. revert s. induction fuel as [|f IH]; intros s Hlen.
  - destruct s; [done|simpl in Hlen; lia].
  - simpl. destruct (width s) as [|w] eqn:Hw; [done|].
    apply IH. destruct s as [|c r]; [by rewrite H0 in Hw|].
    simpl in *. pose proof (drop_length_le w r). lia.
Qed.

(** A trimmed line does not end with white space. *)
Lemma TrimSpace_end (raw : string) :
  spaceWidthRev (String.rev (TrimSpace raw)) = 0.
Proof.
  unfold TrimSpace. rewrite rev_involutive.
  apply trimLeftGo_fixed; [done|by rewrite length_rev].
Qed.

Lemma spaceWidth_cases (s : string) :
  spaceWidth s <> 0 ->
  (exists c r, s = String c r /\ isAsciiSpace c = true)
  \/ (exists c d r, s = String c (String d r)
        /\ isAsciiSpace d = false /\ spaceWidth s = 2
        /\ spaceWidth (String c (String d "")) = 2
        /\ forall c0, spaceWidth (String c0 (String c (String d ""))) <> 3)
  \/ (exists c d e r, s = String c (String d (String e r))
        /\ isAsciiSpace e = false /\ spaceWidth s = 3
        /\ spaceWidth (String c (String d (String e ""))) = 3).
Proof.
  destruct s as [|c s]; [done|].
  destruct (isAsciiSpace c) eqn:Hc; [left; by eauto|].
  intros H. right.
  destruct c as [[] [] [] [] [] [] [] []]; try done;
    destruct s as [|d s]; try done;
    destruct d as [[] [] [] [] [] [] [] []]; try done;
    try (left; eexists _, _, _; repeat (split; [reflexivity|]);
         intros [[] [] [] [] [] [] [] []]; done);
    destruct s as [|e s]; try done;
    destruct e as [[] [] [] [] [] [] [] []]; try done;
    right; eexists _, _, _, _; repeat (split; [reflexivity|]); reflexivity.
Qed.

(** A non-empty text made of white space only ends with white space,
    whatever comes before it. *)
Lemma fieldsGo_nil_end (fuel : nat) (t p : string) :
  t <> "" -> String.length t < fuel -> fieldsGo fuel "" t = [] ->
  spaceWidthRev (String.rev (p +:+ t)) <> 0.
Proof.
  revert t p. induction fuel as [|f IH]; intros t p Hne Hlen Hnil; [lia|].
  destruct t as [|c r]; [done|]. rewrite fieldsGo_cons in Hnil.
  destruct (spaceWidth (String c r)) as [|w] eqn:Hw.
  { exfalso. by apply (fieldsGo_cur f ("" +:+ String c "") r). }
  simpl app in Hnil.
  assert (Hw' : spaceWidth (String c r) <> 0) by lia.
  apply spaceWidth_cases in Hw' as
    [(c1 & r1 & [= <- <-] & Hc)
    |[(c1 & d & r1 & [= <- ->] & Hd & H2 & H2' & H3)
     |(c1 & d & e & r1 & [= <- ->] & He & H3 & H3')]].
  - rewrite spaceWidth_ascii in Hw by done. injection Hw as <-.
    change (drop 1 (String c r)) with r in Hnil.
    destruct r as [|c2 r2].
    + rewrite rev_append. change (String.rev (String c "")) with (String c "").
      rewrite append_cons. unfold spaceWidthRev. by rewrite Hc.
    + replace (p +:+ String c (String c2 r2))
        with ((p +:+ String c "") +:+ String c2 r2)
        by (by rewrite append_assoc).
      apply IH; [done|simpl in *; lia|done].
  - rewrite H2 in Hw. injection Hw as <-.
    change (drop 2 (String c (String d r1))) with r1 in Hnil.
    destruct r1 as [|c2 r2].
    + rewrite rev_append.
      change (String.rev (String c (String d ""))) with (String d (String c "")).
      rewrite !append_cons. change ("" +:+ String.rev p) with (String.rev p).
      unfold spaceWidthRev. rewrite Hd.
      destruct (String.rev p) as [|c0 q].
      * by rewrite H2'.
      * destruct (spaceWidth (String c0 (String c (String d ""))) =? 3) eqn:E;
          [done|]. by rewrite H2'.
    + replace (p +:+ String c (String d (String c2 r2)))
        with ((p +:+ String c (String d "")) +:+ String c2 r2)
        by (by rewrite append_assoc).
      apply IH; [done|simpl in *; lia|done].
  - rewrite H3 in Hw. injection Hw as <-.
    change (drop 3 (String c (String d (String e r1)))) with r1 in Hnil.
    destruct r1 as [|c2 r2].
    + rewrite rev_append.
      change (String.rev (String c (String d (String e ""))))
        with (String e (String d (String c ""))).
      rewrite !append_cons. unfold spaceWidthRev. rewrite He.
      by rewrite H3'.
    + replace (p +:+ String c (String d (String e (String c2 r2))))
        with ((p +:+ String c (String d (String e ""))) +:+ String c2 r2)
        by (by rewrite append_assoc).
      apply IH; [done|simpl in *; lia|done].
Qed.

(** The fields of a trimmed line that matches the method pattern: the
    verb first, and at least one more. *)
Lemma Fields_method_line (raw : string) :
  httpMethodRegex_Match (TrimSpace raw) = true ->
  2 <= length (Fields (TrimSpace raw))
  /\ at_ 0 (Fields (TrimSpace raw)) ∈ verbs
  /\ at_ 1 (Fields (TrimSpace raw)) <> "".
Proof.
  pose proof (TrimSpace_end raw) as Hend.
  remember (TrimSpace raw) as line eqn:Hline. clear Hline.
  unfold httpMethodRegex_Match. intros H.
  apply existsb_exists in H as (v & Hv & H).
  apply andb_true_iff in H as [Hp Hs].
  apply prefix_app_drop in Hp.
  destruct (drop (String.length v) line) as [|c r]; [done|].
  simpl in Hs. apply andb_true_iff in Hs as [Hc Hr].
  apply list_elem_of_In in Hv.
  rewrite Hp, (Fields_verb v c r Hv Hc).
  assert (Hne : r <> "") by (by destruct r).
  pose proof (fieldsGo_nonempty_fields (S (String.length r)) "" r) as Hall.
  destruct (fieldsGo (S (String.length r)) "" r) as [|f fs] eqn:Hf.
  - exfalso.
    apply (fieldsGo_nil_end (S (String.length r)) r (v +:+ String c ""));
      [done|lia|done|].
    rewrite append_assoc. change (String c "" +:+ r) with (String c r).
    by rewrite <- Hp.
  - apply Forall_cons in Hall as [Hf0 _].
    split; [simpl; lia|]. split; done.
Qed.

Lemma lineKind_KMethod (s : State) (line : string) :
  lineKind s line = KMethod -> httpMethodRegex_Match line = true.
Proof.
  unfold lineKind.
  destruct (httpMethodRegex_Match line); [done|].
  repeat match goal with
         | |- context [if ?c then _ else _] => destruct c; try done
         end.
Qed.

(** X13. A line taken by the method case always starts a request: the
    trimmed line has at least two fields, so the guard on their number
    never fails; the method becomes the first field, which is one of the
    five verbs, and the raw URL becomes the second field, which is not
    empty.  The accumulator is then worth sealing. *)
Theorem method_line_starts_a_request (s : State) (raw : string) :
  let line := TrimSpace raw in
  lineKind s line = KMethod ->
  let s' := processLine s raw in
  2 <= length (Fields line)
  /\ Request.Method (req s') = at_ 0 (Fields line)
  /\ Request.Method (req s') ∈ verbs
  /\ URL.Raw (url s') = at_ 1 (Fields line)
  /\ sealable s'.
Proof.
  intros line Hk s'.
  destruct (Fields_method_line raw (lineKind_KMethod s line Hk))
    as (Hlen & Hv & Hu).
  fold line in Hlen, Hv, Hu.
  assert (Hs : s' = set_query (parseQueryParams (at_ 1 (Fields line)) (query s))
                      (set_url (parseURL (at_ 1 (Fields line))
                                  (set_Raw (at_ 1 (Fields line)) (url s))
                                  (localVariables s) (requestVariables s))
                         (set_req (Request.mk (at_ 0 (Fields line))
                                     (Request.Header (req s))
                                     (Request.Body (req s))
                                     (Request.URL (req s))) s))).
  { subst s'. unfold processLine. fold line. rewrite Hk.
    destruct (2 <=? length (Fields line)) eqn:Hl; [done|].
    apply Nat.leb_gt in Hl. lia. }
  assert (Em : Request.Method (req s') = at_ 0 (Fields line))
    by (by rewrite Hs).
  assert (Eu : URL.Raw (url s') = at_ 1 (Fields line)).
  { rewrite Hs. cbn [url set_query set_url]. by rewrite parseURL_Raw. }
  unfold sealable. rewrite Em, Eu. repeat split; try done.
  intros E. rewrite E in Hv. unfold verbs in Hv.
  apply list_elem_of_In in Hv. simpl in Hv.
  destruct Hv as [Hv|[Hv|[Hv|[Hv|[Hv|[]]]]]]; discriminate.
Qed.

Lemma method_line_starts_a_request_witness :
  let s' := processLine initialState "  POST   https://example.com/users  " in
  Request.Method (req s') = "POST"
  /\ URL.Raw (url s') = "https://example.com/users"
  /\ sealable s'.
Proof.
  intros s'.
  destruct (method_line_starts_a_request initialState
              "  POST   https://example.com/users  " eq_refl)
    as (_ & Hm & _ & Hu & Hs).
  split; [exact Hm|]. split; [exact Hu|exact Hs].
Defined.

(** *** The methods of the document *)

Lemma sealAtSeparator_verbState (s : State) :
  verbState s -> verbState (sealAtSeparator s).
Proof.
  intros (Hreq & Hall & Hgs & Hcur). rewrite <- sealAtEOF_sealAtSeparator.
  unfold sealAtEOF.
  destruct (bool_decide (Request.Method (req s) = "")) eqn:Hm; [done|].
  destruct (bool_decide (URL.Raw (url s) = "")) eqn:Hu; [done|].
  apply bool_decide_eq_false in Hm. destruct Hreq as [Hreq|Hreq]; [done|].
  simpl.
  destruct (hasGroupSeparators s), (currentGroup s) as [g|] eqn:Hg;
    repeat split; simpl; try done; try (by right);
    try (apply Forall_app; split; [done|by constructor]);
    try (intros g' [= <-]; simpl; apply Forall_app; split;
         [by apply Hcur|by constructor]);
    intros g' Hg'; rewrite Hg in Hg'; simplify_eq; by apply Hcur.
Qed.

Lemma processLine_verbState (s : State) (raw : string) :
  verbState s -> verbState (processLine s raw).
Proof.
  intros Hs. unfold processLine.
  destruct (lineKind s (TrimSpace raw)) eqn:Hk; try done;
    try (destruct Hs as (Hreq & Hall & Hgs & Hcur);
         repeat match goal with
                | |- context [match ?c with Some _ => _ | None => _ end] =>
                    destruct c eqn:?
                | |- context [if ?c then _ else _] => destruct c eqn:?
                | |- context [let (_, _) := ?c in _] => destruct c
                end; by repeat split).
  - (* group declaration *)
    destruct Hs as (Hreq & Hall & Hgs & Hcur).
    destruct (groupRegex_Find (TrimSpace raw)); [|done].
    repeat split; simpl; try done.
    + destruct (currentGroup s) as [g|] eqn:Hg; [|done].
      destruct (0 <? length (Group.Items g)) eqn:Hlen; [|done].
      apply Forall_app. split; [done|]. constructor; [|done]. by apply Hcur.
    + by intros g [= <-].
  - (* separator *)
    destruct (sealAtSeparator_verbState s Hs) as (Hreq & Hall & Hgs & Hcur).
    repeat split; try done. by left.
  - (* method line *)
    destruct (Fields_method_line raw (lineKind_KMethod s _ Hk))
      as (_ & Hv & _).
    destruct Hs as (Hreq & Hall & Hgs & Hcur).
    destruct (2 <=? length (Fields (TrimSpace raw))); [|done].
    repeat split; try done. by right.
Qed.

Lemma scanLoop_verbState (lines : list string) (s : State) :
  verbState s -> verbState (scanLoop s lines).
Proof.
  revert s. induction lines as [|l ls IH]; intros s Hs; simpl; [done|].
  apply IH. by apply processLine_verbState.
Qed.

Lemma closeGroup_verbState (s : State) :
  verbState s -> verbState (closeGroup s).
Proof.
  intros Hs. pose proof Hs as (Hreq & Hall & Hgs & Hcur). unfold closeGroup.
  destruct (currentGroup s) as [g|] eqn:Hg; [|exact Hs].
  destruct (0 <? length (Group.Items g)) eqn:Hlen; [|exact Hs].
  repeat split; simpl; try done;
    [|intros g' Hg'; rewrite Hg in Hg'; simplify_eq; by apply Hcur].
  apply Forall_app. split; [done|]. constructor; [|done]. by apply Hcur.
Qed.

Lemma finalState_verbState (lines : list string) :
  verbState (finalState lines).
Proof.
  unfold finalState. apply closeGroup_verbState.
  rewrite sealAtEOF_sealAtSeparator. apply sealAtSeparator_verbState.
  apply scanLoop_verbState. repeat split; simpl; try done. by left.
Qed.

(** X14. Every request of the document, at the top level or in a folder,
    carries one of the five verbs GET, PUT, POST, DELETE and OPTIONS as
    its method. *)
Theorem document_methods_are_verbs (lines : list string) :
  Forall hasVerb (requestsOf (finalState lines)).
Proof.
  destruct (finalState_sealedState lines) as (Hall & Hgs & _ & _).
  destruct (finalState_verbState lines) as (_ & Vall & Vgs & _).
  unfold requestsOf, buildItems, groupedMode.
  destruct (hasGroupSeparators _ && (0 <? length _)).
  - unfold buildFolders. rewrite buildFolders_sealed by done. simpl.
    induction Vgs as [|g gs Hg _ IH]; [done|].
    apply Forall_cons in Hgs as [_ Hgs].
    simpl. apply Forall_app. split; [done|by apply IH].
  - by rewrite validItemsOf_wellSealed.
Qed.

(** *** Script blocks *)








(** *** [detectVariables] *)

Lemma isWord_not_open (c : ascii) : isWord c = true -> c <> "{"%char.
Proof. destruct c as [[] [] [] [] [] [] [] []]; done. Qed.

(** A reference cannot begin inside the name or the closing braces of
    another one. *)
Lemma reference_after_name (w pre x rest : string) :
  allBytes isWord w = true ->
  pre +:+ "{{" +:+ x = w +:+ "}}" +:+ rest ->
  String.length w + 2 <= String.length pre.
Proof.
  revert pre. induction w as [|a w IH]; intros pre Hw H.
  - destruct pre as [|p1 [|p2 pre]]; [done|done|simpl; lia].
  - simpl in Hw. apply andb_true_iff in Hw as [Ha Hw].
    destruct pre as [|p pre].
    + injection H as H _. by apply isWord_not_open in Ha.
    + rewrite !append_cons in H. injection H as _ H.
      specialize (IH pre Hw H). simpl. lia.
Qed.

Lemma reference_after_match (w pre x rest : string) (c : ascii) :
  w <> "" -> allBytes isWord w = true ->
  String c (pre +:+ "{{" +:+ x) = "{{" +:+ w +:+ "}}" +:+ rest ->
  String.length w + 3 <= String.length pre.
Proof.
  intros Hne Hw H.
  change ("{{" +:+ w +:+ "}}" +:+ rest)
    with (String "{"%char (String "{"%char (w +:+ "}}" +:+ rest))) in H.
  injection H as _ H.
  destruct pre as [|p pre].
  - destruct w as [|a w]; [done|]. injection H as H _.
    simpl in Hw. apply andb_true_iff in Hw as [Ha _].
    by apply isWord_not_open in Ha.
  - rewrite append_cons in H. injection H as _ H.
    pose proof (reference_after_name w pre x rest Hw H). simpl. lia.
Qed.

(** The scan misses no reference that begins after the bytes it skips. *)
Lemma varRegex_FindAll_finds (name post pre : string) (skip : nat) :
  name <> "" -> allBytes isWord name = true ->
  skip <= String.length pre ->
  name ∈ varRegex_FindAll skip (pre +:+ "{{" +:+ name +:+ "}}" +:+ post).
Proof.
  intros Hne Hw. revert skip. induction pre as [|c pre IH]; intros skip Hs.
  - destruct skip; [|simpl in Hs; lia].
    change ("" +:+ "{{" +:+ name +:+ "}}" +:+ post)
      with (String "{"%char (String "{"%char (name +:+ "}}" +:+ post))).
    rewrite varRegex_FindAll_cons.
    change (String "{"%char (String "{"%char (name +:+ "}}" +:+ post)))
      with ("{{" +:+ name +:+ "}}" +:+ post).
    rewrite (varAt_reference name post Hne Hw). by left.
  - rewrite append_cons, varRegex_FindAll_cons.
    destruct skip as [|k]; [|apply IH; simpl in Hs; lia].
    destruct (varAt _) as [[w rest]|] eqn:Hv; [|apply IH; lia].
    right. apply IH.
    apply varAt_Some in Hv as (Ht & Hwne & Hww).
    by apply (reference_after_match w pre (name +:+ "}}" +:+ post) rest c).
Qed.

(** X16. [detectVariables] reports exactly the variables the text refers
    to: a name is in its result if and only if the text holds the name,
    made of word characters, between double braces. *)
Theorem detectVariables_reports_the_references (text name : string) :
  name ∈ detectVariables text <-> refersTo text name.
Proof.
  split.
  - apply varRegex_FindAll_sound.
  - intros (Hne & Hw & pre & post & ->).
    apply varRegex_FindAll_finds; [done|done|lia].
Qed.

(** X17. A JSON body that is opened (by a line that the opening-brace
    case takes and that does not end with a closing brace) and followed
    only by lines that reach the header and body cases (no earlier case of
    the switch takes them: they are not blank, no annotation, no script,
    separator, comment or method line, and do not begin with an opening
    brace) and that hold a colon or do not end with a closing brace, as
    the last line of a body that ends with [..."a": 1}] does, stays open:
    the lines are kept in the text buffer, the body gets the mode [raw]
    and the JSON options but keeps the text it had, and so does the
    request that sealing would build. *)
Theorem unclosed_body_has_no_text (s : State) (opening : string)
    (inner : list string) :
  openingBodyLine s opening ->
  Forall (innerBodyLine s) inner ->
  let s' := scanLoop s (opening :: inner) in
  startedJSON s' = true
  /\ data s' = data s +:+ TrimSpace opening +:+ nl +:+ trimmedLines inner
  /\ body s' = Body.mk "raw" (Body.Raw (body s)) jsonOptions
  /\ Request.Body (Item.Request (sealedItem s'))
     = Body.mk "raw" (Body.Raw (body s)) jsonOptions.
Proof.
  intros [Hk Hopen] Hinner s'.
  assert (E1 : processLine s opening
               = set_data (data s +:+ TrimSpace opening +:+ nl)
                   (set_startedJSON true
                      (set_body (Body.mk "raw" (Body.Raw (body s)) jsonOptions) s))).
  { unfold processLine. by rewrite Hk, Hopen. }
  assert (E : s' = set_data (data s +:+ TrimSpace opening +:+ nl
                             +:+ trimmedLines inner)
                     (set_startedJSON true
                        (set_body (Body.mk "raw" (Body.Raw (body s)) jsonOptions) s))).
  { subst s'.
    change (scanLoop s (opening :: inner))
      with (scanLoop (processLine s opening) inner).
    rewrite E1, scanLoop_innerBodyLines; [|reflexivity|].
    - simpl. by rewrite !append_assoc.
    - eapply Forall_impl; [exact Hinner|]. intros x [Hp Hc].
      split; [|done]. by apply (pastEarlierCases_flags s). }
  by rewrite E.
Qed.

Lemma unclosed_body_has_no_text_witness :
  let s := processLine initialState "POST https://api.example.com/users" in
  let s' := scanLoop s [ "{"; dq +:+ "name" +:+ dq +:+ ": 1}" ] in
  startedJSON s' = true
  /\ Request.Body (Item.Request (sealedItem s')) = Body.mk "raw" "" jsonOptions.
Proof.
  intros s s'.
  assert (Ho : openingBodyLine s "{") by (split; vm_compute; reflexivity).
  assert (Hi : Forall (innerBodyLine s) [ dq +:+ "name" +:+ dq +:+ ": 1}" ]).
  { repeat (constructor;
            [split; [vm_compute; repeat split; discriminate
                    |vm_compute; auto]|]).
    constructor. }
  destruct (unclosed_body_has_no_text s "{" _ Ho Hi) as (Hj & _ & _ & Hb).
  split; [exact Hj|exact Hb].
Defined.

(** *** Query strings *)

Lemma Contains_single_nil (c : ascii) : Contains "" (String c "") = false.
Proof. reflexivity. Qed.

Lemma Contains_single_app (a b : string) (c : ascii) :
  Contains (a +:+ b) (String c "")
  = Contains a (String c "") || Contains b (String c "").
Proof.
  induction a as [|x a IH]; [done|].
  rewrite append_cons, !Contains_cons, !prefix_single, IH.
  by rewrite orb_assoc.
Qed.

Lemma splitGo_single_none (c : ascii) (s cur : string) :
  Contains s (String c "") = false ->
  splitGo (String c "") 0 cur s = [cur +:+ s].
Proof.
  revert cur. induction s as [|d s IH]; intros cur H.
  - simpl. by rewrite append_nil_r.
  - rewrite Contains_cons, prefix_single in H.
    apply orb_false_iff in H as [Hd Hs].
    rewrite splitGo_cons, prefix_single, Hd, IH by done.
    by rewrite append_assoc.
Qed.

Lemma splitGo_single_cut (c : ascii) (key cur rest : string) :
  Contains key (String c "") = false ->
  splitGo (String c "") 0 cur (key +:+ String c rest)
  = (cur +:+ key) :: splitGo (String c "") 0 "" rest.
Proof.
  revert cur. induction key as [|d k IH]; intros cur Hk.
  - change ("" +:+ String c rest) with (String c rest).
    rewrite splitGo_cons, prefix_single, bool_decide_eq_true_2 by done.
    by rewrite append_nil_r.
  - rewrite Contains_cons, prefix_single in Hk.
    apply orb_false_iff in Hk as [Hd Hk].
    rewrite append_cons, splitGo_cons, prefix_single, Hd, IH by done.
    by rewrite append_assoc.
Qed.

(** Splitting at a byte what was joined with it gives the pieces back,
    when no piece holds the byte. *)
Lemma Split_Join_single (c : ascii) (l : list string) :
  l <> [] -> Forall (fun x => Contains x (String c "") = false) l ->
  Split (Join l (String c "")) (String c "") = l.
Proof.
  intros Hne Hall. unfold Split.
  induction Hall as [|x l Hx Hall IH]; [done|].
  destruct l as [|y l].
  - simpl. by rewrite splitGo_single_none.
  - rewrite Join_cons by done.
    change (String c "" +:+ Join (y :: l) (String c ""))
      with (String c (Join (y :: l) (String c ""))).
    rewrite splitGo_single_cut by done. f_equal. by apply IH.
Qed.

Lemma Join_no_byte (c d : ascii) (l : list string) :
  c <> d -> Forall (fun x => Contains x (String c "") = false) l ->
  Contains (Join l (String d "")) (String c "") = false.
Proof.
  intros Hcd Hall. induction Hall as [|x l Hx Hall IH]; [done|].
  destruct l as [|y l]; [done|].
  rewrite Join_cons by done.
  rewrite !Contains_single_app, Hx, IH.
  rewrite Contains_cons, prefix_single, bool_decide_eq_false_2 by done.
  done.
Qed.

Lemma plainText_spec (s : string) :
  plainText s = true ->
  Contains s "?" = false /\ Contains s "&" = false /\ Contains s "=" = false.
Proof.
  unfold plainText. intros H.
  apply andb_true_iff in H as [H H3]. apply andb_true_iff in H as [H1 H2].
  apply negb_true_iff in H1, H2, H3. done.
Qed.

Lemma addParam_pair (q : list QueryParam.t) (kv : string * string) :
  plainText (fst kv) = true -> plainText (snd kv) = true ->
  addParam q (pairText kv) = q ++ [queryParamOf kv].
Proof.
  intros Hk Hv. destruct kv as [k v]. simpl in Hk, Hv.
  apply plainText_spec in Hk as (_ & _ & Hk).
  apply plainText_spec in Hv as (_ & _ & Hv).
  unfold addParam, pairText, queryParamOf. cbn [fst snd].
  change ("=" +:+ v) with (String "="%char v).
  assert (Hc : Contains (k +:+ String "="%char v) "=" = true).
  { rewrite Contains_single_app, Contains_cons, prefix_single.
    rewrite bool_decide_eq_true_2 by done. by rewrite orb_true_r. }
  rewrite Hc. unfold Split.
  rewrite splitGo_single_cut, splitGo_single_none by done.
  done.
Qed.

Lemma foldl_addParam_pairs (kvs : list (string * string))
    (q : list QueryParam.t) :
  Forall (fun kv => plainText (fst kv) = true /\ plainText (snd kv) = true)
         kvs ->
  foldl addParam q (map pairText kvs) = q ++ map queryParamOf kvs.
Proof.
  intros Hall. revert q.
  induction Hall as [|kv kvs [Hk Hv] Hall IH]; intros q.
  - simpl. by rewrite app_nil_r.
  - simpl. rewrite addParam_pair, IH by done. by rewrite <- app_assoc.
Qed.

Lemma pairText_no_byte (c : ascii) (kv : string * string) :
  c <> "="%char ->
  Contains (fst kv) (String c "") = false ->
  Contains (snd kv) (String c "") = false ->
  Contains (pairText kv) (String c "") = false.
Proof.
  intros Hc Hk Hv. unfold pairText.
  rewrite !Contains_single_app, Hk, Hv.
  change (Contains "=" (String c "")) with
    (String.prefix (String c "") (String "="%char "") || false).
  rewrite prefix_single, bool_decide_eq_false_2 by done. done.
Qed.

(** X18. A URL whose query string is well formed (pairs [key=value]
    joined by [&], after the only [?], no key and no value holding one of
    the three delimiters) gives one query parameter for each pair, in
    order, with key and value trimmed, after the parameters that were
    there. *)
Theorem well_formed_query_gives_its_pairs (base : string)
    (kvs : list (string * string)) (q : list QueryParam.t) :
  Contains base "?" = false -> kvs <> [] ->
  Forall (fun kv => plainText (fst kv) = true /\ plainText (snd kv) = true)
         kvs ->
  parseQueryParams (base +:+ "?" +:+ queryText kvs) q
  = q ++ map queryParamOf kvs.
Proof.
  intros Hb Hne Hall.
  assert (Hq : Contains (queryText kvs) "?" = false).
  { apply Join_no_byte; [done|]. apply Forall_map.
    eapply Forall_impl; [exact Hall|]. intros kv [Hk Hv].
    apply plainText_spec in Hk as (Hk & _), Hv as (Hv & _).
    by apply pairText_no_byte. }
  assert (Ha : Forall (fun x => Contains x "&" = false) (map pairText kvs)).
  { apply Forall_map. eapply Forall_impl; [exact Hall|]. intros kv [Hk Hv].
    apply plainText_spec in Hk as (_ & Hk & _), Hv as (_ & Hv & _).
    by apply pairText_no_byte. }
  unfold parseQueryParams.
  change ("?" +:+ queryText kvs) with (String "?"%char (queryText kvs)).
  assert (Hc : Contains (base +:+ String "?"%char (queryText kvs)) "?" = true).
  { rewrite Contains_single_app, Contains_cons, prefix_single.
    rewrite bool_decide_eq_true_2 by done. by rewrite orb_true_r. }
  assert (Hs : Split (base +:+ String "?"%char (queryText kvs)) "?"
               = [base; queryText kvs]).
  { unfold Split. by rewrite splitGo_single_cut, splitGo_single_none. }
  rewrite Hc, Hs. cbn [length Nat.ltb Nat.leb at_ nth].
  unfold queryText. rewrite Split_Join_single; [|by destruct kvs|done].
  by apply foldl_addParam_pairs.
Qed.

Lemma well_formed_query_gives_its_pairs_witness :
  parseQueryParams
    ("https://example.com/users" +:+ "?"
     +:+ queryText [("page", "2"); (" sort ", "name desc")]) []
  = [QueryParam.mk "page" "2"; QueryParam.mk "sort" "name desc"].
Proof.
  apply (well_formed_query_gives_its_pairs "https://example.com/users"
           [("page", "2"); (" sort ", "name desc")] []).
  - reflexivity.
  - discriminate.
  - repeat constructor.
Defined.
